(** * A shallow embedding of the Nostr client scripts

    The development follows the three Python modules of the repository:
    - [advanced_nips.py]: relay information (NIP-11) and proof of work (NIP-13);
    - [sqlite_local_database.py]: the SQLite cache of fetched events;
    - [main_basics_functions.py]: key encoding, event fetching, chat rooms and
      the follow list.

    Python exceptions are explicit: a call that may raise returns an
    [outcome].  Library calls whose code is not part of the repository
    (SHA-256, [json.dumps], the clock, the relay manager, the cipher) are
    parameters of the definitions that use them; the [bech32] package and
    [binascii] are small enough to be written out. *)

From Stdlib Require Import ZArith Lia List Bool Ascii String.
From stdpp Require Import gmap strings list fin_maps sorting.

Local Open Scope string_scope.
Local Open Scope list_scope.
Local Open Scope Z_scope.

#[local] Set Warnings "-clear-no-such-hyp".

(** ** Exceptions *)

(** The exception classes the code distinguishes in its [except] clauses.
    [binascii.Error] is a subclass of [ValueError]; every class below is a
    subclass of [Exception]. *)
Inductive exn : Type :=
| ValueError (msg : string)
| BinasciiError (msg : string)
| TypeError (msg : string)
| IndexError (msg : string)
| StopIteration
| RequestException (msg : string)
| IntegrityError (msg : string)
| OverflowError (msg : string)
| OSError (msg : string)
| OtherException (msg : string).

Inductive outcome (A : Type) : Type :=
| Return (a : A)
| Raise (e : exn).
Arguments Return {A} a.
Arguments Raise {A} e.

(** Sequencing: an exception raised by the first computation propagates.
    With these instances [x ← o; k] reads as the Python statement sequence. *)
#[global] Instance outcome_ret : MRet outcome := fun A a => Return a.
#[global] Instance outcome_bind : MBind outcome := fun A B k o =>
  match o with
  | Return a => k a
  | Raise e => Raise e
  end.

(** [isinstance(e, ValueError)] *)
Definition is_ValueError (e : exn) : bool :=
  match e with
  | ValueError _ | BinasciiError _ => true
  | _ => false
  end.

Definition is_RequestException (e : exn) : bool :=
  match e with
  | RequestException _ => true
  | _ => false
  end.

(** [str(e)] *)
Definition exn_str (e : exn) : string :=
  match e with
  | ValueError m | BinasciiError m | TypeError m | IndexError m
  | RequestException m | IntegrityError m | OverflowError m | OSError m
  | OtherException m => m
  | StopIteration => ""
  end.

(** ** Characters, digits and integers *)

Definition ord (c : ascii) : Z := Z.of_N (N_of_ascii c).
Definition chr (z : Z) : ascii := ascii_of_N (Z.to_N z).

Definition chars (s : string) : list ascii := list_ascii_of_string s.
Definition str_of_chars (l : list ascii) : string := string_of_list_ascii l.

(** [str(n)] for a Python integer *)
Definition digit_char (d : Z) : ascii := chr (48 + d).

Fixpoint pos_digits (fuel : nat) (n : Z) (acc : list ascii) : list ascii :=
  match fuel with
  | O => acc
  | S fuel' =>
      if n <? 10 then digit_char n :: acc
      else pos_digits fuel' (n / 10) (digit_char (n mod 10) :: acc)
  end.

Definition str_of_Z (n : Z) : string :=
  if n <? 0
  then String "-" (str_of_chars (pos_digits (S (Z.to_nat (Z.log2 (- n)))) (- n) []))
  else str_of_chars (pos_digits (S (Z.to_nat (Z.log2 n))) n []).

(** The integers of a signed C type of [w] bits: [time_t], the [INTEGER]
    of SQLite and the fields of [struct tm] are such types. *)
Definition fits_signed (w : Z) (n : Z) : bool :=
  (- 2 ^ (w - 1) <=? n) && (n <? 2 ^ (w - 1)).

(** ** [binascii] *)

Definition hex_value (c : ascii) : option Z :=
  let n := ord c in
  if (48 <=? n) && (n <=? 57) then Some (n - 48)
  else if (97 <=? n) && (n <=? 102) then Some (n - 87)
  else if (65 <=? n) && (n <=? 70) then Some (n - 55)
  else None.

Definition hex_char (v : Z) : ascii :=
  if v <? 10 then chr (48 + v) else chr (87 + v).

Fixpoint unhex_pairs (l : list ascii) : option (list Z) :=
  match l with
  | [] => Some []
  | [_] => None
  | a :: b :: rest =>
      match hex_value a, hex_value b, unhex_pairs rest with
      | Some x, Some y, Some bs => Some (16 * x + y :: bs)
      | _, _, _ => None
      end
  end.

(** [binascii.unhexlify] on a [str]: the argument must be ASCII, of even
    length, and made of hexadecimal digits of either case. *)
Definition unhexlify (s : string) : outcome (list Z) :=
  let l := chars s in
  if existsb (fun c => 128 <=? ord c) l
  then Raise (ValueError "string argument should contain only ASCII characters")
  else if Nat.odd (length l)
  then Raise (BinasciiError "Odd-length string")
  else match unhex_pairs l with
       | Some bs => Return bs
       | None => Raise (BinasciiError "Non-hexadecimal digit found")
       end.

(** [binascii.hexlify(b).decode()]: two lowercase digits per byte. *)
Definition hexlify (bs : list Z) : string :=
  str_of_chars (flat_map (fun b => [hex_char (b / 16); hex_char (b mod 16)]) bs).

(** ** The [bech32] package

    [main_basics_functions.py] imports the reference implementation of
    BIP-173 ([bech32_encode], [bech32_decode], [convertbits]); it is
    transcribed here function by function.  Integers are Python integers
    ([Z]), lists of integers are [list Z]. *)
Module bech32.

Definition CHARSET : string := "qpzry9x8gf2tvdw0s3jn54khce6mua7l".

Definition generator : list Z :=
  [0x3b6a57b2; 0x26508e6d; 0x1ea119fa; 0x3d4233dd; 0x2a1462b3].

(** One round of the loop of [bech32_polymod]:
    [top = chk >> 25; chk = (chk & 0x1ffffff) << 5 ^ value], then
    [chk ^= generator[i] if ((top >> i) & 1) else 0] for [i] in [range(5)]. *)
Definition polymod_step (chk value : Z) : Z :=
  let top := Z.shiftr chk 25 in
  let chk := Z.lxor (Z.shiftl (Z.land chk 0x1ffffff) 5) value in
  fold_left
    (fun chk '(i, g) =>
       Z.lxor chk (if Z.land (Z.shiftr top i) 1 =? 0 then 0 else g))
    (combine [0; 1; 2; 3; 4] generator) chk.

Definition bech32_polymod (values : list Z) : Z :=
  fold_left polymod_step values 1.

Definition bech32_hrp_expand (hrp : string) : list Z :=
  map (fun x => Z.shiftr (ord x) 5) (chars hrp) ++ [0]
  ++ map (fun x => Z.land (ord x) 31) (chars hrp).

Definition bech32_verify_checksum (hrp : string) (data : list Z) : bool :=
  bech32_polymod (bech32_hrp_expand hrp ++ data) =? 1.

Definition bech32_create_checksum (hrp : string) (data : list Z) : list Z :=
  let values := bech32_hrp_expand hrp ++ data in
  let polymod := Z.lxor (bech32_polymod (values ++ [0; 0; 0; 0; 0; 0])) 1 in
  map (fun i => Z.land (Z.shiftr polymod (5 * (5 - i))) 31) [0; 1; 2; 3; 4; 5].

(** [CHARSET[d]]: a Python index may be negative and raises out of range. *)
Definition charset_at (d : Z) : outcome ascii :=
  let n := Z.of_nat (length (chars CHARSET)) in
  let i := if d <? 0 then d + n else d in
  if (0 <=? i) && (i <? n)
  then Return (nth (Z.to_nat i) (chars CHARSET) "000"%char)
  else Raise (IndexError "string index out of range").

Fixpoint charset_all (ds : list Z) : outcome (list ascii) :=
  match ds with
  | [] => Return []
  | d :: rest =>
      c ← charset_at d; cs ← charset_all rest; Return (c :: cs)
  end.

Definition bech32_encode (hrp : string) (data : list Z) : outcome string :=
  let combined := data ++ bech32_create_checksum hrp data in
  cs ← charset_all combined;
  Return (hrp +:+ "1" +:+ str_of_chars cs).

(** [str.lower], [str.upper], [str.rfind] and [str.find] on the printable
    ASCII range, the only one [bech32_decode] lets through. *)
Definition lower_char (c : ascii) : ascii :=
  if (65 <=? ord c) && (ord c <=? 90) then chr (ord c + 32) else c.

Definition upper_char (c : ascii) : ascii :=
  if (97 <=? ord c) && (ord c <=? 122) then chr (ord c - 32) else c.

Fixpoint rfind (c : ascii) (l : list ascii) : Z :=
  match l with
  | [] => -1
  | x :: rest =>
      let k := rfind c rest in
      if 0 <=? k then k + 1
      else if Ascii.eqb x c then 0 else -1
  end.

Fixpoint find (c : ascii) (l : list ascii) : Z :=
  match l with
  | [] => -1
  | x :: rest =>
      if Ascii.eqb x c then 0
      else let k := find c rest in if 0 <=? k then k + 1 else -1
  end.

Definition list_ascii_eqb (l1 l2 : list ascii) : bool :=
  String.eqb (str_of_chars l1) (str_of_chars l2).

(** [bech32_decode]; the pair [(None, None)] of the package is [None].
    The package has the test of BIP-173 on the length of the text, [or
    len(bech) > 90], in a comment: a text of any length is decoded. *)
Definition bech32_decode (bech : string) : option (string * list Z) :=
  let b := chars bech in
  if existsb (fun x => (ord x <? 33) || (126 <? ord x)) b
     || (negb (list_ascii_eqb (map lower_char b) b)
         && negb (list_ascii_eqb (map upper_char b) b))
  then None
  else
    let b := map lower_char b in
    let pos := rfind "1"%char b in
    let len := Z.of_nat (length b) in
    if (pos <? 1) || (len <? pos + 7) then None
    else
      let tail := drop (Z.to_nat (pos + 1)) b in
      if negb (forallb (fun x => 0 <=? find x (chars CHARSET)) tail) then None
      else
        let hrp := str_of_chars (take (Z.to_nat pos) b) in
        let data := map (fun x => find x (chars CHARSET)) tail in
        if negb (bech32_verify_checksum hrp data) then None
        else Some (hrp, take (length data - 6) data).

(** The inner [while bits >= tobits] loop of [convertbits].  It runs at
    most [bits] times whenever [tobits] is positive, which is the fuel. *)
Fixpoint convertbits_emit (fuel : nat) (tobits acc bits : Z) (ret : list Z)
  : Z * list Z :=
  match fuel with
  | O => (bits, ret)
  | S fuel' =>
      if tobits <=? bits
      then let bits := bits - tobits in
           convertbits_emit fuel' tobits acc bits
             (ret ++ [Z.land (Z.shiftr acc bits) (Z.shiftl 1 tobits - 1)])
      else (bits, ret)
  end.

(** The [for value in data] loop; [None] is the early [return None]. *)
Fixpoint convertbits_loop (data : list Z) (frombits tobits acc bits : Z)
  (ret : list Z) : option (Z * Z * list Z) :=
  match data with
  | [] => Some (acc, bits, ret)
  | value :: rest =>
      if (value <? 0) || negb (Z.shiftr value frombits =? 0) then None
      else
        let max_acc := Z.shiftl 1 (frombits + tobits - 1) - 1 in
        let acc := Z.land (Z.lor (Z.shiftl acc frombits) value) max_acc in
        let bits := bits + frombits in
        let '(bits, ret) := convertbits_emit (Z.to_nat bits) tobits acc bits ret in
        convertbits_loop rest frombits tobits acc bits ret
  end.

Definition convertbits (data : list Z) (frombits tobits : Z) (pad : bool)
  : option (list Z) :=
  let maxv := Z.shiftl 1 tobits - 1 in
  match convertbits_loop data frombits tobits 0 0 [] with
  | None => None
  | Some (acc, bits, ret) =>
      if pad then
        if negb (bits =? 0)
        then Some (ret ++ [Z.land (Z.shiftl acc (tobits - bits)) maxv])
        else Some ret
      else if (frombits <=? bits)
              || negb (Z.land (Z.shiftl acc (tobits - bits)) maxv =? 0)
      then None
      else Some ret
  end.

End bech32.

(** ** Key encoding ([main_basics_functions.py]) *)

(** [convert_hex_to_npub]: [binascii.Error] and every other exception are
    re-raised as [ValueError]. *)
Definition convert_hex_to_npub (hex_pubkey : string) : outcome string :=
  let body : outcome string :=
    pubkey_bytes ← unhexlify hex_pubkey;
    let hrp := "npub" in
    match bech32.convertbits pubkey_bytes 8 5 true with
    | None =>
        Raise (TypeError "unsupported operand type(s) for +: 'NoneType' and 'list'")
    | Some five_bit_r => bech32.bech32_encode hrp five_bit_r
    end in
  match body with
  | Return s => Return s
  | Raise (BinasciiError m) => Raise (ValueError ("Invalid hex public key: " +:+ m))
  | Raise e => Raise (ValueError ("Error converting to npub: " +:+ exn_str e))
  end.

(** [decode_npub]: the [ValueError] raised for a bad format is caught by the
    function's own handler and raised again with a prefix. *)
Definition decode_npub (npub : string) : outcome string :=
  let body : outcome string :=
    match bech32.bech32_decode npub with
    | None => Raise (ValueError "Invalid npub format")
    | Some (hrp, data) =>
        if negb (String.eqb hrp "npub")
        then Raise (ValueError "Invalid npub format")
        else match bech32.convertbits data 5 8 false with
             | None =>
                 Raise (TypeError "cannot convert 'NoneType' object to bytearray")
             | Some decoded_bytes => Return (hexlify decoded_bytes)
             end
    end in
  match body with
  | Return s => Return s
  | Raise e =>
      if is_ValueError e
      then Raise (ValueError ("Error decoding npub: " +:+ exn_str e))
      else Raise (ValueError ("Unexpected error decoding npub: " +:+ exn_str e))
  end.

(** ** Relay information and proof of work ([advanced_nips.py]) *)

(** Python values that travel through JSON. *)
#[warnings="-register-all"]
Inductive pyval : Type :=
| PNone
| PBool (b : bool)
| PInt (z : Z)
| PStr (s : string)
| PList (l : list pyval)
| PDict (l : list (string * pyval)).

(** What the caller of [get_relay_info] sees of a [requests.Response]. *)
Record Response : Type := {
  status_code : Z;
  text : string
}.

(** [get_relay_info] returns the parsed JSON or one of two messages. *)
Inductive relay_info : Type :=
| InfoJson (j : pyval)
| InfoMessage (s : string).

Section RelayInfo.

(** [requests.get(url, headers=...)] and [response.json()]. *)
Variable requests_get : string -> list (string * string) -> outcome Response.
Variable response_json : Response -> outcome pyval.

Definition get_relay_info (relay_url : string) : outcome relay_info :=
  let headers := [("Accept", "application/nostr+json")] in
  let body : outcome relay_info :=
    response ← requests_get relay_url headers;
    if status_code response =? 200
    then j ← response_json response; Return (InfoJson j)
    else Return (InfoMessage ("Failed to retrieve relay info. Status code: "
                              +:+ str_of_Z (status_code response))) in
  match body with
  | Return v => Return v
  | Raise e =>
      if is_RequestException e
      then Return (InfoMessage ("An error occurred: " +:+ exn_str e))
      else Raise e
  end.

End RelayInfo.

(** [int(hex_string, 16)] on a string of hexadecimal digits.  (Python also
    accepts a sign, a [0x] prefix, underscores and surrounding blanks; a
    [hexdigest] contains none of them, and they are rejected here.) *)
Definition int_of_hex (hex_string : string) : outcome Z :=
  match chars hex_string with
  | [] => Raise (ValueError "invalid literal for int() with base 16")
  | l =>
      fold_left
        (fun acc c =>
           n ← acc;
           match hex_value c with
           | Some v => Return (16 * n + v)
           | None => Raise (ValueError "invalid literal for int() with base 16")
           end)
        l (Return 0)
  end.

(** [bin(n)] *)
Fixpoint pos_bin (p : positive) : list ascii :=
  match p with
  | xH => ["1"%char]
  | xO q => pos_bin q ++ ["0"%char]
  | xI q => pos_bin q ++ ["1"%char]
  end.

Definition bin (n : Z) : list ascii :=
  match n with
  | Z0 => chars "0b0"
  | Zpos p => chars "0b" ++ pos_bin p
  | Zneg p => chars "-0b" ++ pos_bin p
  end.

(** [s.zfill(width)]: zeros are inserted after a leading sign. *)
Definition zfill (width : nat) (s : list ascii) : list ascii :=
  let pad := replicate (width - length s)%nat "0"%char in
  match s with
  | c :: rest =>
      if Ascii.eqb c "+" || Ascii.eqb c "-" then c :: pad ++ rest else pad ++ s
  | [] => pad
  end.

(** [s.lstrip('0')] *)
Fixpoint lstrip_zeros (s : list ascii) : list ascii :=
  match s with
  | c :: rest => if Ascii.eqb c "0" then lstrip_zeros rest else s
  | [] => []
  end.

Definition count_leading_zero_bits (hex_string : string) : outcome Z :=
  n ← int_of_hex hex_string;
  let binary_string := zfill 256 (drop 2 (bin n)) in
  Return (Z.of_nat (length binary_string)
          - Z.of_nat (length (lstrip_zeros binary_string))).

(** The number of leading zero bits of [n] read as a [w]-bit big-endian
    integer, counted bit by bit from the top: the quantity the difficulty
    of NIP-13 is about. *)
Fixpoint leading_zero_bits (w : nat) (n : Z) : nat :=
  match w with
  | O => O
  | S w' => if Z.testbit n (Z.of_nat w') then O else S (leading_zero_bits w' n)
  end.

Section ProofOfWork.

(** [hashlib.sha256(data).digest()], [json.dumps(note, separators=(',', ':'),
    sort_keys=True)] and the value of [int(time.time())] read at the
    [n]-th attempt. *)
Variable sha256 : string -> list Z.
Variable json_dumps : gmap string pyval -> string.
Variable time_time : nat -> Z.

Definition hexdigest (data : string) : string := hexlify (sha256 data).

Definition nonce_tags (nonce : nat) (difficulty : Z) : pyval :=
  PList [PList [PStr "nonce"; PStr (str_of_Z (Z.of_nat nonce));
                PStr (str_of_Z difficulty)]].

(** The note as it is hashed at attempt [nonce]. *)
Definition stamp (note : gmap string pyval) (nonce : nat) (difficulty : Z)
  : gmap string pyval :=
  <["created_at" := PInt (time_time nonce)]>
    (<["tags" := nonce_tags nonce difficulty]> note).

(** The [while True] loop of [mine_note], started at [nonce] with [fuel]
    iterations allowed; [None] when the fuel runs out. *)
Fixpoint mine_note_from (fuel : nat) (note : gmap string pyval)
  (difficulty : Z) (nonce : nat) : option (outcome (gmap string pyval)) :=
  match fuel with
  | O => None
  | S fuel' =>
      let note := stamp note nonce difficulty in
      let note_json := json_dumps note in
      let note_id := hexdigest note_json in
      match count_leading_zero_bits note_id with
      | Raise e => Some (Raise e)
      | Return zeros =>
          if difficulty <=? zeros
          then Some (Return (<["id" := PStr note_id]> note))
          else mine_note_from fuel' note difficulty (S nonce)
      end
  end.

Definition mine_note (fuel : nat) (note : gmap string pyval) (difficulty : Z)
  : option (outcome (gmap string pyval)) :=
  mine_note_from fuel note difficulty 0.

End ProofOfWork.

(** ** The local cache ([sqlite_local_database.py])

    A table is the list of its rows in insertion order.  A [TEXT] column
    holds [NULL] or a string, an [INTEGER] column [NULL] or an integer.
    Foreign keys are declared by the schema but SQLite does not enforce
    them unless asked to, and the code never asks. *)
Module sqlite.

Definition TEXT : Type := option string.
Definition INTEGER : Type := option Z.

Record profile_row : Type := {
  profile_pubkey : TEXT;
  profile_name : TEXT;
  profile_about : TEXT;
  profile_picture : TEXT;
  profile_banner : TEXT;
  profile_website : TEXT;
  profile_lud06 : TEXT;
  profile_lud16 : TEXT;
  profile_display_name : TEXT;
  profile_timestamp : INTEGER
}.

Record note_row : Type := {
  note_id : TEXT;
  note_pubkey : TEXT;
  note_content : TEXT;
  note_tags : TEXT;
  note_kind : INTEGER;
  note_timestamp : INTEGER
}.

Record comment_row : Type := {
  comment_id : TEXT;
  comment_pubkey : TEXT;
  comment_content : TEXT;
  comment_timestamp : INTEGER;
  comment_event_id : TEXT
}.

Record reaction_row : Type := {
  rx_id : TEXT;
  rx_event_id : TEXT;
  rx_reaction_data : TEXT;
  rx_timestamp : INTEGER;
  rx_pubkey : TEXT;
  rx_content : TEXT
}.

Record follower_row : Type := {
  fol_id : TEXT;
  fol_pubkey : TEXT;
  fol_follower_pubkey : TEXT;
  fol_timestamp : INTEGER;
  fol_event_id : TEXT
}.

Record direct_message_row : Type := {
  dm_id : TEXT;
  dm_sender_pubkey : TEXT;
  dm_recipient_pubkey : TEXT;
  dm_encrypted_content : TEXT;
  dm_decrypted_content : TEXT;
  dm_timestamp : INTEGER
}.

Record room_row : Type := {
  room_id : TEXT;
  room_owner_pubkey : TEXT;
  room_direct_message_ids : TEXT;
  room_timestamp : INTEGER
}.

(** The tables of the entities the client persists. *)
Record store : Type := {
  profiles : list profile_row;
  notes : list note_row;
  comments : list comment_row;
  reactions : list reaction_row;
  followers : list follower_row;
  direct_messages : list direct_message_row;
  rooms : list room_row
}.

Definition empty_store : store :=
  {| profiles := []; notes := []; comments := []; reactions := [];
     followers := []; direct_messages := []; rooms := [] |}.

(** A statement run on a cursor: it returns or raises, and leaves a store.
    A statement that raises leaves the store as it found it. *)
Definition statement : Type := store -> outcome unit * store.

(** SQL equality of two column values: [NULL] equals nothing. *)
Definition sql_eq (a b : TEXT) : bool :=
  match a, b with
  | Some x, Some y => String.eqb x y
  | _, _ => false
  end.

(** Binding the parameters of a statement.  [sqlite3] passes a Python
    integer as a 64-bit signed integer; for any other integer it raises
    [OverflowError] before the statement runs, and nothing is written.
    [None] is bound as [NULL]. *)
Definition bindable (v : INTEGER) : bool :=
  match v with
  | Some n => fits_signed 64 n
  | None => true
  end.

Definition too_large : exn :=
  OverflowError "Python int too large to convert to SQLite INTEGER".

(** [INSERT INTO t VALUES row] under the uniqueness constraints of [t]:
    [clash new old] tells whether [new] violates one against the stored
    row [old]. *)
Definition insert_into {R : Type} (clash : R -> R -> bool) (table : string)
  (row : R) (rows : list R) : outcome (list R) :=
  if existsb (clash row) rows
  then Raise (IntegrityError ("UNIQUE constraint failed: " +:+ table))
  else Return (rows ++ [row]).

Definition save_profile
  (pubkey name about picture banner website lud06 lud16 display_name : TEXT)
  (timestamp : INTEGER) : statement := fun db =>
  if negb (bindable timestamp) then (Raise too_large, db) else
  let row := {| profile_pubkey := pubkey; profile_name := name;
                profile_about := about; profile_picture := picture;
                profile_banner := banner; profile_website := website;
                profile_lud06 := lud06; profile_lud16 := lud16;
                profile_display_name := display_name;
                profile_timestamp := timestamp |} in
  match insert_into (fun n o => sql_eq (profile_pubkey n) (profile_pubkey o))
          "profiles.pubkey" row (profiles db) with
  | Raise e => (Raise e, db)
  | Return t =>
      (Return tt,
       {| profiles := t; notes := notes db; comments := comments db;
          reactions := reactions db; followers := followers db;
          direct_messages := direct_messages db; rooms := rooms db |})
  end.

Definition save_note (id pubkey content tags : TEXT) (kind timestamp : INTEGER)
  : statement := fun db =>
  if negb (bindable kind && bindable timestamp) then (Raise too_large, db) else
  let row := {| note_id := id; note_pubkey := pubkey; note_content := content;
                note_tags := tags; note_kind := kind;
                note_timestamp := timestamp |} in
  match insert_into (fun n o => sql_eq (note_id n) (note_id o))
          "notes.id" row (notes db) with
  | Raise e => (Raise e, db)
  | Return t =>
      (Return tt,
       {| profiles := profiles db; notes := t; comments := comments db;
          reactions := reactions db; followers := followers db;
          direct_messages := direct_messages db; rooms := rooms db |})
  end.

Definition save_comment (id pubkey content : TEXT) (timestamp : INTEGER)
  (event_id : TEXT) : statement := fun db =>
  if negb (bindable timestamp) then (Raise too_large, db) else
  let row := {| comment_id := id; comment_pubkey := pubkey;
                comment_content := content; comment_timestamp := timestamp;
                comment_event_id := event_id |} in
  match insert_into (fun n o => sql_eq (comment_id n) (comment_id o))
          "comments.id" row (comments db) with
  | Raise e => (Raise e, db)
  | Return t =>
      (Return tt,
       {| profiles := profiles db; notes := notes db; comments := t;
          reactions := reactions db; followers := followers db;
          direct_messages := direct_messages db; rooms := rooms db |})
  end.

Definition save_reaction (id event_id reaction_data : TEXT)
  (timestamp : INTEGER) (pubkey content : TEXT) : statement := fun db =>
  if negb (bindable timestamp) then (Raise too_large, db) else
  let row := {| rx_id := id; rx_event_id := event_id;
                rx_reaction_data := reaction_data;
                rx_timestamp := timestamp; rx_pubkey := pubkey;
                rx_content := content |} in
  match insert_into (fun n o => sql_eq (rx_id n) (rx_id o))
          "reactions.id" row (reactions db) with
  | Raise e => (Raise e, db)
  | Return t =>
      (Return tt,
       {| profiles := profiles db; notes := notes db; comments := comments db;
          reactions := t; followers := followers db;
          direct_messages := direct_messages db; rooms := rooms db |})
  end.

(** [followers] has a second constraint, [UNIQUE(pubkey, follower_pubkey)]. *)
Definition save_follower (id pubkey follower_pubkey : TEXT)
  (timestamp : INTEGER) (event_id : TEXT) : statement := fun db =>
  if negb (bindable timestamp) then (Raise too_large, db) else
  let row := {| fol_id := id; fol_pubkey := pubkey;
                fol_follower_pubkey := follower_pubkey;
                fol_timestamp := timestamp;
                fol_event_id := event_id |} in
  match insert_into
          (fun n o => sql_eq (fol_id n) (fol_id o)
                      || (sql_eq (fol_pubkey n) (fol_pubkey o)
                          && sql_eq (fol_follower_pubkey n) (fol_follower_pubkey o)))
          "followers" row (followers db) with
  | Raise e => (Raise e, db)
  | Return t =>
      (Return tt,
       {| profiles := profiles db; notes := notes db; comments := comments db;
          reactions := reactions db; followers := t;
          direct_messages := direct_messages db; rooms := rooms db |})
  end.

Definition save_direct_message
  (id sender_pubkey recipient_pubkey encrypted_content decrypted_content : TEXT)
  (timestamp : INTEGER) : statement := fun db =>
  if negb (bindable timestamp) then (Raise too_large, db) else
  let row := {| dm_id := id; dm_sender_pubkey := sender_pubkey;
                dm_recipient_pubkey := recipient_pubkey;
                dm_encrypted_content := encrypted_content;
                dm_decrypted_content := decrypted_content;
                dm_timestamp := timestamp |} in
  match insert_into (fun n o => sql_eq (dm_id n) (dm_id o))
          "direct_messages.id" row (direct_messages db) with
  | Raise e => (Raise e, db)
  | Return t =>
      (Return tt,
       {| profiles := profiles db; notes := notes db; comments := comments db;
          reactions := reactions db; followers := followers db;
          direct_messages := t; rooms := rooms db |})
  end.

Definition save_room (id owner_pubkey direct_message_ids : TEXT)
  (timestamp : INTEGER) : statement := fun db =>
  if negb (bindable timestamp) then (Raise too_large, db) else
  let row := {| room_id := id; room_owner_pubkey := owner_pubkey;
                room_direct_message_ids := direct_message_ids;
                room_timestamp := timestamp |} in
  match insert_into (fun n o => sql_eq (room_id n) (room_id o))
          "rooms.id" row (rooms db) with
  | Raise e => (Raise e, db)
  | Return t =>
      (Return tt,
       {| profiles := profiles db; notes := notes db; comments := comments db;
          reactions := reactions db; followers := followers db;
          direct_messages := direct_messages db; rooms := t |})
  end.

(** [UPDATE profiles SET ... WHERE pubkey = ?]: once the parameters are
    bound, every row whose key equals the argument gets the new fields; no
    other condition is tested. *)
Definition update_profile
  (pubkey name about picture banner website lud06 lud16 display_name : TEXT)
  (timestamp : INTEGER) : statement := fun db =>
  if negb (bindable timestamp) then (Raise too_large, db) else
  let set (r : profile_row) : profile_row :=
    if sql_eq (profile_pubkey r) pubkey
    then {| profile_pubkey := profile_pubkey r; profile_name := name;
            profile_about := about; profile_picture := picture;
            profile_banner := banner; profile_website := website;
            profile_lud06 := lud06; profile_lud16 := lud16;
            profile_display_name := display_name;
            profile_timestamp := timestamp |}
    else r in
  (Return tt,
   {| profiles := map set (profiles db); notes := notes db;
      comments := comments db; reactions := reactions db;
      followers := followers db; direct_messages := direct_messages db;
      rooms := rooms db |}).

(** The persisted entity kinds, each with the arguments of its [save_]
    function, and the dispatch to that function. *)
Inductive entity : Type :=
| Profile (r : profile_row)
| Note (r : note_row)
| Comment (r : comment_row)
| Reaction (r : reaction_row)
| Follower (r : follower_row)
| DirectMessage (r : direct_message_row)
| Room (r : room_row).

Definition save (e : entity) : statement :=
  match e with
  | Profile r =>
      save_profile (profile_pubkey r) (profile_name r) (profile_about r)
        (profile_picture r) (profile_banner r) (profile_website r)
        (profile_lud06 r) (profile_lud16 r) (profile_display_name r)
        (profile_timestamp r)
  | Note r =>
      save_note (note_id r) (note_pubkey r) (note_content r) (note_tags r)
        (note_kind r) (note_timestamp r)
  | Comment r =>
      save_comment (comment_id r) (comment_pubkey r) (comment_content r)
        (comment_timestamp r) (comment_event_id r)
  | Reaction r =>
      save_reaction (rx_id r) (rx_event_id r) (rx_reaction_data r)
        (rx_timestamp r) (rx_pubkey r) (rx_content r)
  | Follower r =>
      save_follower (fol_id r) (fol_pubkey r) (fol_follower_pubkey r)
        (fol_timestamp r) (fol_event_id r)
  | DirectMessage r =>
      save_direct_message (dm_id r) (dm_sender_pubkey r)
        (dm_recipient_pubkey r) (dm_encrypted_content r)
        (dm_decrypted_content r) (dm_timestamp r)
  | Room r =>
      save_room (room_id r) (room_owner_pubkey r) (room_direct_message_ids r)
        (room_timestamp r)
  end.

(** The primary key of an entity. *)
Definition key (e : entity) : TEXT :=
  match e with
  | Profile r => profile_pubkey r
  | Note r => note_id r
  | Comment r => comment_id r
  | Reaction r => rx_id r
  | Follower r => fol_id r
  | DirectMessage r => dm_id r
  | Room r => room_id r
  end.

(** The integer columns of an entity can be bound. *)
Definition integers_fit (e : entity) : bool :=
  match e with
  | Profile r => bindable (profile_timestamp r)
  | Note r => bindable (note_kind r) && bindable (note_timestamp r)
  | Comment r => bindable (comment_timestamp r)
  | Reaction r => bindable (rx_timestamp r)
  | Follower r => bindable (fol_timestamp r)
  | DirectMessage r => bindable (dm_timestamp r)
  | Room r => bindable (room_timestamp r)
  end.

End sqlite.

(** ** Events, chats and follows ([main_basics_functions.py]) *)

(** An event as the relay libraries hand it over. *)
Record Event : Type := {
  id : string;
  pubkey : string;
  content : string;
  kind : Z;
  tags : list (list string);
  created_at : Z;
  sig : option string
}.

(** The dictionary [fetch_events_by_kind] builds for an event; its keys are
    ["Event ID"], ["Pubkey"], ["Content"], ["Kind"], ["Tags"] and
    ["Created at"]. *)
Record event_data : Type := {
  Event_ID : string;
  Pubkey : string;
  Content : string;
  Kind : Z;
  Tags : list (list string);
  Created_at : string
}.

(** *** [convert_timestamp] *)

(** Proleptic Gregorian date of a day number counted from 1970-01-01. *)
Definition civil_from_days (days : Z) : Z * Z * Z :=
  let z := days + 719468 in
  let era := z / 146097 in
  let doe := z - era * 146097 in
  let yoe := (doe - doe / 1460 + doe / 36524 - doe / 146096) / 365 in
  let doy := doe - (365 * yoe + yoe / 4 - yoe / 100) in
  let mp := (5 * doy + 2) / 153 in
  let d := doy - (153 * mp + 2) / 5 + 1 in
  let m := if mp <? 10 then mp + 3 else mp - 9 in
  let y := yoe + era * 400 in
  (if m <=? 2 then y + 1 else y, m, d).

(** A non-negative integer on at least [width] digits. *)
Definition zero_padded (width : nat) (n : Z) : string :=
  let s := chars (str_of_Z n) in
  str_of_chars (replicate (width - length s)%nat "0"%char ++ s).

(** [datetime.utcfromtimestamp(ts)], as CPython has it on 64-bit Linux.
    The timestamp must fit [time_t], or [OverflowError] is raised; [gmtime]
    must be able to write the year, counted from 1900, in the [int] field
    [tm_year], or [OSError] is raised; and a [datetime] has a year between
    1 and 9999, or [ValueError] is raised.  The result is the date and the
    second of the day. *)
Definition utcfromtimestamp (timestamp : Z) : outcome (Z * Z * Z * Z) :=
  if negb (fits_signed 64 timestamp)
  then Raise (OverflowError "timestamp out of range for platform time_t")
  else
    let '(y, m, d) := civil_from_days (timestamp / 86400) in
    if negb (fits_signed 32 (y - 1900))
    then Raise (OSError "[Errno 75] Value too large for defined data type")
    else if (y <? 1) || (9999 <? y)
    then Raise (ValueError ("year " +:+ str_of_Z y +:+ " is out of range"))
    else Return (y, m, d, timestamp mod 86400).

(** [dt.strftime("%Y-%m-%d %H:%M:%S UTC")]: the C library writes the year
    of [%Y] as it is, without padding; the other fields have two digits. *)
Definition strftime (dt : Z * Z * Z * Z) : string :=
  let '(y, m, d, secs) := dt in
  str_of_Z y +:+ "-" +:+ zero_padded 2 m +:+ "-" +:+ zero_padded 2 d +:+ " "
  +:+ zero_padded 2 (secs / 3600) +:+ ":"
  +:+ zero_padded 2 (secs mod 3600 / 60) +:+ ":"
  +:+ zero_padded 2 (secs mod 60) +:+ " UTC".

(** [convert_timestamp]: the handler catches [ValueError] only and raises
    it again with a prefix; [OverflowError] and [OSError] pass through. *)
Definition convert_timestamp (timestamp : Z) : outcome string :=
  match utcfromtimestamp timestamp with
  | Return dt => Return (strftime dt)
  | Raise e =>
      if is_ValueError e
      then Raise (ValueError ("Invalid timestamp: " +:+ exn_str e))
      else Raise e
  end.

(** *** [fetch_events_by_kind] *)

(** A message of the pool: the event and the relay it came from. *)
Record EventMessage : Type := {
  event : Event;
  url : string
}.

Definition make_event_data (e : Event) : outcome event_data :=
  created ← convert_timestamp (created_at e);
  Return {| Event_ID := id e; Pubkey := pubkey e; Content := content e;
            Kind := kind e; Tags := tags e; Created_at := created |}.

(** Step 4, the loop that empties the message pool: [pool] is the queue
    [get_event] pops from, [events] and [seen_event_ids] are the two
    accumulators of the loop. *)
Fixpoint collect_events (pool : list EventMessage) (events : list event_data)
  (seen_event_ids : gset string) : outcome (list event_data) :=
  match pool with
  | [] => Return events
  | event_msg :: pool' =>
      let event_id := id (event event_msg) in
      if decide (event_id ∈ seen_event_ids)
      then collect_events pool' events seen_event_ids
      else
        event_data ← make_event_data (event event_msg);
        collect_events pool' (events ++ [event_data])
          ({[event_id]} ∪ seen_event_ids)
  end.

Section Fetch.

(** The relay manager: an abstract connection state, the two calls that
    talk to the relays, and the queue of its message pool. *)
Variable RelayManager : Type.
Variable Filters : Type.
Variable add_subscription_on_relay :
  RelayManager -> string -> list Filters -> string -> outcome RelayManager.
Variable run_sync : RelayManager -> outcome RelayManager.
Variable message_pool : RelayManager -> list EventMessage.

Fixpoint subscribe_each (relay_manager : RelayManager) (subscription_id : string)
  (subscription_filters : list Filters) (relay_urls : list string)
  : outcome RelayManager :=
  match relay_urls with
  | [] => Return relay_manager
  | u :: rest =>
      rm ← add_subscription_on_relay relay_manager subscription_id
             subscription_filters u;
      subscribe_each rm subscription_id subscription_filters rest
  end.

(** [subscription_id] is the value of [str(uuid.uuid4())]. *)
Definition fetch_events_by_kind (subscription_id : string)
  (relay_manager : RelayManager) (filters : Filters) (relay_urls : list string)
  : list event_data :=
  let body : outcome (list event_data) :=
    let subscription_filters := [filters] in
    rm ← subscribe_each relay_manager subscription_id subscription_filters
           relay_urls;
    rm ← run_sync rm;
    collect_events (message_pool rm) [] ∅ in
  match body with
  | Return events => events
  | Raise _ => []
  end.

(** *** [fetch_existing_follows] *)

Inductive follows_result : Type :=
| FollowList (followed : list string)
| FollowError (msg : string).

(** The [for tag in event.tags] loop: [tag[0]] and [tag[1]] raise
    [IndexError] on a tag that is too short. *)
Fixpoint add_p_tags (tags : list (list string)) (followed_users : gset string)
  : outcome (gset string) :=
  match tags with
  | [] => Return followed_users
  | tag :: rest =>
      match tag with
      | [] => Raise (IndexError "list index out of range")
      | t0 :: tl =>
          if String.eqb t0 "p"
          then match tl with
               | [] => Raise (IndexError "list index out of range")
               | t1 :: _ => add_p_tags rest ({[t1]} ∪ followed_users)
               end
          else add_p_tags rest followed_users
      end
  end.

(** The loop over the message pool: every kind-3 event adds its ["p"]
    tags to the one set [followed_users]. *)
Fixpoint collect_follows (pool : list EventMessage) (followed_users : gset string)
  : outcome (gset string) :=
  match pool with
  | [] => Return followed_users
  | event_msg :: pool' =>
      if kind (event event_msg) =? 3
      then s ← add_p_tags (tags (event event_msg)) followed_users;
           collect_follows pool' s
      else collect_follows pool' followed_users
  end.

(** [authors_kinds authors kinds] stands for
    [Filters(authors=authors, kinds=kinds)]. *)
Variable authors_kinds : list string -> list Z -> Filters.

Definition fetch_existing_follows (subscription_id : string)
  (relay_manager : RelayManager) (public_key : string) : follows_result :=
  let body : outcome (list string) :=
    let filters := authors_kinds [public_key] [3] in
    let subscription_filters := [filters] in
    rm ← add_subscription_on_relay relay_manager subscription_id
           subscription_filters "wss://relay.damus.io";
    rm ← run_sync rm;
    followed_users ← collect_follows (message_pool rm) ∅;
    Return (elements followed_users) in
  match body with
  | Return l => FollowList l
  | Raise e =>
      FollowError ("An error occurred while fetching followed users: "
                   +:+ exn_str e)
  end.

End Fetch.

(** *** Chat rooms *)

(** A message of [all_msgs]: the fetched dictionary with the added key
    ['type'], which is ['sent'] or ['received']. *)
Record chat_msg : Type := {
  type : string;
  data : event_data
}.

(** [next(tag[1] for tag in msg['Tags'] if tag[0] == 'p')] *)
Fixpoint first_p_tag (tags : list (list string)) : outcome string :=
  match tags with
  | [] => Raise StopIteration
  | tag :: rest =>
      match tag with
      | [] => Raise (IndexError "list index out of range")
      | t0 :: tl =>
          if String.eqb t0 "p"
          then match tl with
               | [] => Raise (IndexError "list index out of range")
               | t1 :: _ => Return t1
               end
          else first_p_tag rest
      end
  end.

Definition get_other_pubkey (msg : chat_msg) : outcome string :=
  if String.eqb (type msg) "sent"
  then first_p_tag (Tags (data msg))
  else Return (Pubkey (data msg)).

(** [rooms] is a dictionary of lists; a Python dictionary keeps its keys in
    the order of their first insertion, which is the order of the pairs. *)
Definition rooms_t : Type := list (string * list chat_msg).

Fixpoint rooms_lookup (rooms : rooms_t) (k : string) : option (list chat_msg) :=
  match rooms with
  | [] => None
  | (k', v) :: rest => if String.eqb k' k then Some v else rooms_lookup rest k
  end.

(** [rooms[other_pubkey].append(msg)] on a [defaultdict(list)] *)
Fixpoint rooms_append (rooms : rooms_t) (k : string) (msg : chat_msg) : rooms_t :=
  match rooms with
  | [] => [(k, [msg])]
  | (k', v) :: rest =>
      if String.eqb k' k then (k', v ++ [msg]) :: rest
      else (k', v) :: rooms_append rest k msg
  end.

Fixpoint group_rooms (msgs : list chat_msg) (rooms : rooms_t) : outcome rooms_t :=
  match msgs with
  | [] => Return rooms
  | msg :: rest =>
      other_pubkey ← get_other_pubkey msg;
      group_rooms rest (rooms_append rooms other_pubkey msg)
  end.

(** [list.sort(key=...)]: the keys are computed first, one per element, and
    the sort is stable.  A stable sort has one possible result; it is
    computed here by insertion, from the right. *)
Fixpoint insert_keyed {A : Type} (x : Z * A) (l : list (Z * A)) : list (Z * A) :=
  match l with
  | [] => [x]
  | y :: rest =>
      if x.1 <=? y.1 then x :: y :: rest else y :: insert_keyed x rest
  end.

Definition sort_keyed {A : Type} (l : list (Z * A)) : list (Z * A) :=
  foldr insert_keyed [] l.

Fixpoint with_keys {A : Type} (key : A -> outcome Z) (l : list A)
  : outcome (list (Z * A)) :=
  match l with
  | [] => Return []
  | x :: rest => k ← key x; ks ← with_keys key rest; Return ((k, x) :: ks)
  end.

Definition sort_by_key {A : Type} (key : A -> outcome Z) (l : list A)
  : outcome (list A) :=
  ks ← with_keys key l; Return (map snd (sort_keyed ks)).

Section Chat.

Variable PrivateKey : Type.

(** [datetime.strptime(s, '%Y-%m-%d %H:%M:%S UTC')]: the parsed instant, as
    a number of seconds, or the [ValueError] of a string that does not
    match.  Instants are compared as these numbers are. *)
Variable strptime : string -> outcome Z.

(** [private_key.decrypt_message(encoded_message=..., public_key_hex=...)] *)
Variable decrypt_message : PrivateKey -> string -> string -> outcome string.

(** [decrypt_msg]: whatever the cipher raises is printed and returned as
    its text. *)
Definition decrypt_msg (private_key : PrivateKey) (encrypted_message : string)
  (pubkey_hex : string) : outcome string :=
  match decrypt_message private_key encrypted_message pubkey_hex with
  | Return plaintext => Return plaintext
  | Raise e => Return (exn_str e)
  end.

Fixpoint sort_rooms (rooms : rooms_t) : outcome rooms_t :=
  match rooms with
  | [] => Return []
  | (room, messages) :: rest =>
      sorted ← sort_by_key (fun x => strptime (Created_at (data x))) messages;
      rest' ← sort_rooms rest;
      Return ((room, sorted) :: rest')
  end.

Definition direction_of (msg : chat_msg) : string :=
  if String.eqb (type msg) "sent" then "Received" else "Sent".

(** The loops that print every room; the printed lines are the result. *)
Fixpoint print_messages
  (decrypt_msg_fn : PrivateKey -> string -> string -> outcome string)
  (private_key : PrivateKey) (room : string) (messages : list chat_msg)
  : outcome (list string) :=
  match messages with
  | [] => Return []
  | msg :: rest =>
      plain ← decrypt_msg_fn private_key (Content (data msg)) room;
      lines ← print_messages decrypt_msg_fn private_key room rest;
      Return ((direction_of msg +:+ " at " +:+ Created_at (data msg) +:+ ": "
               +:+ plain) :: lines)
  end.

Fixpoint print_rooms (convert_hex_to_npub_fn : string -> outcome string)
  (decrypt_msg_fn : PrivateKey -> string -> string -> outcome string)
  (private_key : PrivateKey) (rooms : rooms_t) : outcome (list string) :=
  match rooms with
  | [] => Return []
  | (room, messages) :: rest =>
      npub ← convert_hex_to_npub_fn room;
      lines ← print_messages decrypt_msg_fn private_key room messages;
      more ← print_rooms convert_hex_to_npub_fn decrypt_msg_fn private_key rest;
      Return (("Chat with " +:+ npub +:+ ":") :: lines ++ more)
  end.

(** [organize_chat_messages]: any exception, in the grouping, the sort or
    the printing, makes the result the empty dictionary. *)
Definition organize_chat_messages (sent_msgs received_msgs : list event_data)
  (private_key : PrivateKey)
  (convert_hex_to_npub_fn : string -> outcome string)
  (decrypt_msg_fn : PrivateKey -> string -> string -> outcome string)
  : rooms_t :=
  let body : outcome rooms_t :=
    let all_msgs :=
      map (fun msg => {| type := "sent"; data := msg |}) sent_msgs
      ++ map (fun msg => {| type := "received"; data := msg |}) received_msgs in
    rooms ← group_rooms all_msgs [];
    rooms ← sort_rooms rooms;
    _ ← print_rooms convert_hex_to_npub_fn decrypt_msg_fn private_key rooms;
    Return rooms in
  match body with
  | Return rooms => rooms
  | Raise _ => []
  end.

(** An entry of the ["messages"] list of a room view. *)
Record message_data : Type := {
  direction : string;
  timestamp : string;
  message_content : string
}.

Inductive chat_result : Type :=
| RoomData (chat_with : string) (messages : list message_data)
| ChatError (error : string).

Fixpoint room_messages
  (decrypt_msg_fn : PrivateKey -> string -> string -> outcome string)
  (private_key : PrivateKey) (target_raw_pubkey : string)
  (messages : list chat_msg) : outcome (list message_data) :=
  match messages with
  | [] => Return []
  | msg :: rest =>
      plain ← decrypt_msg_fn private_key (Content (data msg)) target_raw_pubkey;
      more ← room_messages decrypt_msg_fn private_key target_raw_pubkey rest;
      Return ({| direction := direction_of msg;
                 timestamp := Created_at (data msg);
                 message_content := plain |} :: more)
  end.

(** [get_chat_for_pubkey]; the source decodes the key with the module's
    [decode_npub], whatever function is passed as [convert_hex_to_npub_fn]. *)
Definition get_chat_for_pubkey (rooms : rooms_t) (target_pubkey : string)
  (convert_hex_to_npub_fn : string -> outcome string)
  (decrypt_msg_fn : PrivateKey -> string -> string -> outcome string)
  (private_key : PrivateKey) : chat_result :=
  let body : outcome chat_result :=
    target_raw_pubkey ← decode_npub target_pubkey;
    match rooms_lookup rooms target_raw_pubkey with
    | Some messages =>
        ms ← room_messages decrypt_msg_fn private_key target_raw_pubkey messages;
        Return (RoomData target_pubkey ms)
    | None => Return (ChatError "No chat found with the specified public key.")
    end in
  match body with
  | Return r => r
  | Raise e =>
      ChatError ("An error occurred while retrieving the chat: " +:+ exn_str e)
  end.

End Chat.

(** *** The follow list *)

(** [l.remove(x)]: the first occurrence goes. *)
Fixpoint list_remove (x : string) (l : list string) : list string :=
  match l with
  | [] => []
  | y :: rest => if String.eqb y x then rest else y :: list_remove x rest
  end.

Definition list_contains (x : string) (l : list string) : bool :=
  existsb (String.eqb x) l.

(** [EventKind.CONTACTS] *)
Definition CONTACTS : Z := 3.

Section Follow.

Variable RelayManager : Type.

(** The identifier the [Event] constructor computes from the other fields;
    the signature [private_key.sign_event(event)] stores in the event; and
    [relay_manager.publish_event(event)], which changes the connection
    state and may raise. *)
Variable compute_id : string -> Z -> Z -> list (list string) -> string -> string.
Variable sign_event : Event -> outcome string.
Variable publish_event : RelayManager -> Event -> outcome unit * RelayManager.

(** What [update_follow_list] leaves behind: the list object it was given,
    the relay manager, and, for each relay URL of the loop, the event
    handed to [publish_event] and how the call ended. *)
Record follow_update : Type := {
  local_follows : list string;
  manager : RelayManager;
  published : list (string * Event * outcome unit)
}.

Fixpoint publish_to_each (relay_manager : RelayManager) (contact_event : Event)
  (relay_urls : list string)
  : RelayManager * list (string * Event * outcome unit) :=
  match relay_urls with
  | [] => (relay_manager, [])
  | u :: rest =>
      let '(r, rm) := publish_event relay_manager contact_event in
      let '(rm', log) := publish_to_each rm contact_event rest in
      (rm', (u, contact_event, r) :: log)
  end.

(** [existing_follows] is changed in place before anything is sent;
    [public_key_hex] is [public_key.hex()] and [now] is [int(time.time())]. *)
Definition update_follow_list (existing_follows : list string)
  (relay_manager : RelayManager) (relay_urls : list string)
  (public_key_hex : string) (now : Z) (pubkey_to_toggle : string)
  : follow_update :=
  let existing_follows :=
    if list_contains pubkey_to_toggle existing_follows
    then list_remove pubkey_to_toggle existing_follows
    else existing_follows ++ [pubkey_to_toggle] in
  let p_tags := map (fun pk => ["p"; pk]) existing_follows in
  let contact_event :=
    {| id := compute_id public_key_hex now CONTACTS p_tags "";
       pubkey := public_key_hex; content := ""; kind := CONTACTS;
       tags := p_tags; created_at := now; sig := None |} in
  match sign_event contact_event with
  | Raise _ =>
      {| local_follows := existing_follows; manager := relay_manager;
         published := [] |}
  | Return signature =>
      let contact_event :=
        {| id := id contact_event; pubkey := pubkey contact_event;
           content := content contact_event; kind := kind contact_event;
           tags := tags contact_event; created_at := created_at contact_event;
           sig := Some signature |} in
      let '(rm, log) := publish_to_each relay_manager contact_event relay_urls in
      {| local_follows := existing_follows; manager := rm; published := log |}
  end.

End Follow.

(** * Properties *)

(** ** Relay information *)

Section RelayInfoFacts.

Variable requests_get : string -> list (string * string) -> outcome Response.
Variable response_json : Response -> outcome pyval.

Let nostr_headers : list (string * string) :=
  [("Accept", "application/nostr+json")].


End RelayInfoFacts.

(** A relay that answers 200 with a JSON document on one address, 503 on a
    second one, and cannot be reached elsewhere.  On a fourth address the
    request raises an exception of another class than [RequestException],
    as the [LocationParseError] of [urllib3] is. *)
Definition sample_requests_get (u : string) (h : list (string * string))
  : outcome Response :=
  if String.eqb u "https://relay.damus.io"
  then Return {| status_code := 200; text := "{}" |}
  else if String.eqb u "https://eden.nostr.land"
  then Return {| status_code := 503; text := "" |}
  else if String.eqb u "https://.nostr.land"
  then Raise (OtherException "Failed to parse: '.nostr.land'")
  else Raise (RequestException "Connection refused").

Definition sample_response_json (r : Response) : outcome pyval :=
  if String.eqb (text r) "{}" then Return (PDict [])
  else Raise (RequestException "Expecting value: line 1 column 1 (char 0)").



(** ** The local cache *)

Module sqlite_facts.
Import sqlite.

Lemma insert_into_twice {R : Type} (clash : R -> R -> bool) (table : string)
  (row : R) (rows : list R) :
  clash row row = true ->
  let failure := IntegrityError ("UNIQUE constraint failed: " +:+ table) in
  (exists rows', insert_into clash table row rows = Return rows'
                 /\ insert_into clash table row rows' = Raise failure)
  \/ insert_into clash table row rows = Raise failure.
Proof.
  intros Hself. unfold insert_into.
  destruct (existsb (clash row) rows) eqn:Hex; [right; reflexivity|].
  left. eexists; split; [reflexivity|].
  rewrite existsb_app, Hex. cbn. rewrite Hself. reflexivity.
Qed.

(** The seven [save_] functions differ by their table only. *)
Ltac save_twice_table :=
  match goal with
  | |- context [insert_into ?c ?t ?row ?rows] =>
      let H := fresh "H" in
      destruct (insert_into_twice c t row rows) as [(rows' & H & H') | H];
      [ cbn; rewrite String.eqb_refl; reflexivity
      | rewrite H; cbn -[insert_into bindable]; rewrite H';
        split; [reflexivity | split; [eexists; reflexivity | discriminate]]
      | rewrite H; cbn -[insert_into bindable]; rewrite H;
        split; [reflexivity | split; [eexists; reflexivity | discriminate]] ]
  end.


Definition sample_note : note_row :=
  {| note_id := Some "32cf229e5e46e47a1d3b4eb90b7058c6bef8f8ae6ac32c1ccdb741a815d37c40";
     note_pubkey := Some "2879af11e3ffc2e58efa6b1a57ad89bc2f1ea890ae9f968183fa610312d4a029";
     note_content := Some "Ahmed Testing, Nostr! This is my first note.";
     note_tags := Some "[]"; note_kind := Some 1;
     note_timestamp := Some 1700000000 |}.



(** With a [NULL] key no constraint applies: both inserts succeed and the
    table holds the row twice. *)
Lemma save_twice_null_key :
  let r := {| note_id := None; note_pubkey := None; note_content := None;
              note_tags := None; note_kind := None; note_timestamp := None |} in
  notes (save (Note r) (save (Note r) empty_store).2).2 = [r; r].
Proof. reflexivity. Qed.

(** The row [update_profile] writes over a stored row [r]. *)
Definition updated_row (r : profile_row)
  (name about picture banner website lud06 lud16 display_name : TEXT)
  (timestamp : INTEGER) : profile_row :=
  {| profile_pubkey := profile_pubkey r; profile_name := name;
     profile_about := about; profile_picture := picture;
     profile_banner := banner; profile_website := website;
     profile_lud06 := lud06; profile_lud16 := lud16;
     profile_display_name := display_name; profile_timestamp := timestamp |}.


Definition sample_profile : profile_row :=
  {| profile_pubkey := Some "2879af11e3ffc2e58efa6b1a57ad89bc2f1ea890ae9f968183fa610312d4a029";
     profile_name := Some "ahmed"; profile_about := Some "first version";
     profile_picture := None; profile_banner := None; profile_website := None;
     profile_lud06 := None; profile_lud16 := None;
     profile_display_name := Some "Ahmed";
     profile_timestamp := Some 1700000000 |}.

Definition sample_profile_store : store :=
  {| profiles := [sample_profile]; notes := []; comments := [];
     reactions := []; followers := []; direct_messages := []; rooms := [] |}.



End sqlite_facts.


(** ** A relay manager that replays a recorded pool

    For closed examples the relay manager is the queue of its message pool:
    subscribing and [run_sync] succeed and leave the queue as it is. *)
Module replay.

Definition RelayManager : Type := list EventMessage.
Definition Filters : Type := (list string * list Z)%type.

Definition add_subscription_on_relay (rm : RelayManager) (sub : string)
  (filters : list Filters) (relay : string) : outcome RelayManager := Return rm.
Definition run_sync (rm : RelayManager) : outcome RelayManager := Return rm.
Definition message_pool (rm : RelayManager) : list EventMessage := rm.
Definition authors_kinds (authors : list string) (kinds : list Z) : Filters :=
  (authors, kinds).

Definition fetch_existing_follows :=
  fetch_existing_follows RelayManager Filters add_subscription_on_relay
    run_sync message_pool authors_kinds.

Definition fetch_events_by_kind :=
  fetch_events_by_kind RelayManager Filters add_subscription_on_relay
    run_sync message_pool.

End replay.

(** Keys used in the examples. *)
Definition alice : string :=
  "2879af11e3ffc2e58efa6b1a57ad89bc2f1ea890ae9f968183fa610312d4a029".
Definition pkA : string :=
  "f728d9e6e7048358e70930f5ca64b097770d989ccd86854fe618eda9c8a38106".
Definition pkB : string :=
  "b7fcf3f30c1d9c6f8996331f1ef3351d3bc619c751c944a11af50b93180f8ab3".
Definition pkC : string :=
  "1c65940725bbf10bfbbf52b76c4160675444126d4f707d3d9cc1ceab86d73fd7".

(** ** The follow list read from the relays *)

(** The targets of the ["p"] tags of a tag list. *)
Fixpoint p_targets (tags : list (list string)) : list string :=
  match tags with
  | [] => []
  | tag :: rest =>
      match tag with
      | t0 :: t1 :: _ =>
          if String.eqb t0 "p" then t1 :: p_targets rest else p_targets rest
      | _ => p_targets rest
      end
  end.

(** A tag on which neither [tag[0]] nor [tag[1]] raises. *)
Definition well_formed_tag (tag : list string) : Prop :=
  match tag with
  | [] => False
  | [t0] => t0 <> "p"
  | _ => True
  end.

Lemma add_p_tags_union (tags : list (list string)) (s : gset string) :
  Forall well_formed_tag tags ->
  add_p_tags tags s = Return (list_to_set (p_targets tags) ∪ s).
Proof.
  intros Hwf. revert s. induction Hwf as [|tag rest Htag _ IH]; intros s.
  - cbn. f_equal. set_solver.
  - destruct tag as [|t0 [|t1 tl]]; [contradiction| |]; cbn [add_p_tags p_targets].
    + cbn in Htag. destruct (String.eqb_spec t0 "p") as [->|Hne]; [contradiction|].
      apply IH.
    + destruct (String.eqb t0 "p"); [|apply IH].
      rewrite IH. f_equal. set_solver.
Qed.

(** What [collect_follows] accumulates: the ["p"] targets of every kind-3
    event of the pool, earlier and later ones alike. *)
Lemma collect_follows_union (pool : list EventMessage) (s : gset string) :
  Forall (fun m => Forall well_formed_tag (tags (event m))) pool ->
  collect_follows pool s
  = Return (list_to_set
              (flat_map (fun m => if kind (event m) =? 3
                                  then p_targets (tags (event m)) else [])
                 pool) ∪ s).
Proof.
  intros Hwf. revert s. induction Hwf as [|m rest Hm _ IH]; intros s.
  - cbn. f_equal. set_solver.
  - cbn [collect_follows flat_map].
    destruct (kind (event m) =? 3).
    + rewrite add_p_tags_union by exact Hm. cbn [mbind outcome_bind]. rewrite IH.
      f_equal. rewrite list_to_set_app_L. set_solver.
    + rewrite IH. reflexivity.
Qed.

Definition contact_list (author : string) (stamp : Z) (follows : list string)
  : EventMessage :=
  {| event := {| id := str_of_Z stamp; pubkey := author; content := "";
                 kind := 3; tags := map (fun pk => ["p"; pk]) follows;
                 created_at := stamp; sig := None |};
     url := "wss://relay.damus.io" |}.

Lemma p_targets_p_tags (follows : list string) :
  p_targets (map (fun pk => ["p"; pk]) follows) = follows.
Proof. induction follows as [|x l IH]; [reflexivity|]. cbn. now rewrite IH. Qed.

Lemma p_tags_well_formed (follows : list string) :
  Forall well_formed_tag (map (fun pk => ["p"; pk]) follows).
Proof. induction follows; constructor; auto. exact I. Qed.

Lemma fetch_two_contact_lists (sub author : string) (t1 t2 : Z)
  (old new : list string) :
  exists followed,
    replay.fetch_existing_follows sub
      [contact_list author t1 old; contact_list author t2 new] author
    = FollowList followed
    /\ forall pk, pk ∈ followed <-> pk ∈ old \/ pk ∈ new.
Proof.
  unfold replay.fetch_existing_follows, fetch_existing_follows.
  unfold replay.add_subscription_on_relay, replay.run_sync, replay.message_pool.
  cbn [mbind outcome_bind].
  rewrite collect_follows_union.
  2:{ repeat constructor; cbn [tags event contact_list]; apply p_tags_well_formed. }
  cbn [mbind outcome_bind flat_map contact_list event kind tags].
  change (3 =? 3) with true. cbv iota.
  rewrite !p_targets_p_tags.
  eexists; split; [reflexivity|].
  intros pk. rewrite elem_of_elements. set_solver.
Qed.

(** C3 on the code.  The pool holds two contact lists of one author: the
    earlier one follows [pkA] and [pkB], the latest one [pkB] and [pkC].
    [fetch_existing_follows] returns the three keys: [pkA], which the
    latest list dropped, is still there. *)
Theorem fetch_existing_follows_keeps_dropped_key :
  exists followed,
    replay.fetch_existing_follows "2f1c"
      [contact_list alice 1700000000 [pkA; pkB];
       contact_list alice 1700003600 [pkB; pkC]] alice
    = FollowList followed
    /\ (forall pk, pk ∈ followed <-> pk = pkA \/ pk = pkB \/ pk = pkC)
    /\ pkA <> pkB /\ pkA <> pkC.
Proof.
  destruct (fetch_two_contact_lists "2f1c" alice 1700000000 1700003600
              [pkA; pkB] [pkB; pkC]) as (followed & Hret & Hin).
  exists followed. split; [exact Hret|]. split.
  - intros pk. rewrite Hin, !elem_of_cons, !elem_of_nil. tauto.
  - split; discriminate.
Qed.

(** When the pool holds a single contact list, the result is that list. *)
Lemma fetch_existing_follows_single (sub author : string) (stamp : Z)
  (follows : list string) :
  exists followed,
    replay.fetch_existing_follows sub [contact_list author stamp follows] author
    = FollowList followed
    /\ forall pk, pk ∈ followed <-> pk ∈ follows.
Proof.
  unfold replay.fetch_existing_follows, fetch_existing_follows.
  unfold replay.add_subscription_on_relay, replay.run_sync, replay.message_pool.
  cbn [mbind outcome_bind].
  rewrite collect_follows_union.
  2:{ repeat constructor; cbn [tags event contact_list]; apply p_tags_well_formed. }
  cbn [mbind outcome_bind flat_map contact_list event kind tags].
  change (3 =? 3) with true. cbv iota.
  rewrite !p_targets_p_tags.
  eexists; split; [reflexivity|].
  intros pk. rewrite elem_of_elements. set_solver.
Qed.

(** ** Toggling a follow *)

Lemma list_contains_elem_of (x : string) (l : list string) :
  list_contains x l = true <-> x ∈ l.
Proof.
  unfold list_contains. rewrite existsb_exists. split.
  - intros (y & Hin & Heq). apply String.eqb_eq in Heq. subst y.
    now apply list_elem_of_In.
  - intros Hin. exists x. split; [now apply list_elem_of_In|].
    apply String.eqb_refl.
Qed.

Lemma list_remove_elem_of (x : string) (l : list string) :
  NoDup l ->
  forall y, y ∈ list_remove x l <-> y ∈ l /\ y <> x.
Proof.
  induction 1 as [|a l Ha Hnd IH]; intros y; cbn.
  - rewrite elem_of_nil. tauto.
  - destruct (String.eqb_spec a x) as [->|Hne].
    + rewrite elem_of_cons. split.
      * intros Hy. split; [now right|]. intros ->. contradiction.
      * intros [[->|Hy] Hyx]; [contradiction|exact Hy].
    + rewrite !elem_of_cons, IH. split.
      * intros [->|[Hy Hyx]]; [split; [now left|exact Hne]|split; [now right|exact Hyx]].
      * intros [[->|Hy] Hyx]; [now left|right; now split].
Qed.

Lemma list_remove_NoDup (x : string) (l : list string) :
  NoDup l -> NoDup (list_remove x l).
Proof.
  induction 1 as [|a l Ha Hnd IH]; cbn; [constructor|].
  destruct (String.eqb a x); [exact Hnd|].
  constructor; [|exact IH].
  intros Hin. apply (list_remove_elem_of x l Hnd) in Hin. now destruct Hin.
Qed.

Section FollowFacts.

Variable RelayManager : Type.
Variable compute_id : string -> Z -> Z -> list (list string) -> string -> string.
Variable sign_event : Event -> outcome string.
Variable publish_event : RelayManager -> Event -> outcome unit * RelayManager.

Lemma publish_to_each_log (rm : RelayManager) (ev : Event) (urls : list string) :
  let log := (publish_to_each RelayManager publish_event rm ev urls).2 in
  map (fun entry => entry.1.1) log = urls
  /\ Forall (fun entry => entry.1.2 = ev) log.
Proof.
  revert rm. induction urls as [|u urls IH]; intros rm; cbn.
  - split; [reflexivity|constructor].
  - destruct (publish_event rm ev) as [r rm1].
    specialize (IH rm1).
    destruct (publish_to_each RelayManager publish_event rm1 ev urls)
      as [rm2 log]. cbn in *.
    destruct IH as [IH1 IH2]. split; [now rewrite IH1|now constructor].
Qed.

(** The contact event [update_follow_list] builds for a follow list, before
    it is signed and once it carries a signature. *)
Definition contact_event_of (public_key_hex : string) (now : Z)
  (follows : list string) : Event :=
  let p_tags := map (fun pk => ["p"; pk]) follows in
  {| id := compute_id public_key_hex now CONTACTS p_tags "";
     pubkey := public_key_hex; content := ""; kind := CONTACTS;
     tags := p_tags; created_at := now; sig := None |}.

Definition signed_with (signature : string) (ev : Event) : Event :=
  {| id := id ev; pubkey := pubkey ev; content := content ev; kind := kind ev;
     tags := tags ev; created_at := created_at ev; sig := Some signature |}.


End FollowFacts.

(** Relays that all time out: every call of [publish_event] raises. *)
Definition unreachable_publish (rm : unit) (ev : Event) : outcome unit * unit :=
  (Raise (OtherException "timed out"), rm).

Definition sample_compute_id (pk : string) (stamp k : Z)
  (tags : list (list string)) (body : string) : string :=
  hexlify [Z.of_nat (length tags); k].

Definition sample_sign_event (ev : Event) : outcome string :=
  Return ("sig:" +:+ id ev).

Definition sample_relays : list string :=
  ["wss://strfry.iris.to"; "wss://relay.damus.io"].



(** ** The view of one chat room *)

Section ChatViewFacts.

Variable PrivateKey : Type.
Variable decrypt_message : PrivateKey -> string -> string -> outcome string.

(** The text shown for a message: the plaintext, or the text of the
    exception the cipher raised. *)
Definition shown_text (private_key : PrivateKey) (raw_pubkey : string)
  (msg : chat_msg) : string :=
  match decrypt_message private_key (Content (data msg)) raw_pubkey with
  | Return plaintext => plaintext
  | Raise e => exn_str e
  end.

Lemma decrypt_msg_returns (private_key : PrivateKey) (c k : string) :
  decrypt_msg PrivateKey decrypt_message private_key c k
  = Return (match decrypt_message private_key c k with
            | Return plaintext => plaintext
            | Raise e => exn_str e
            end).
Proof. unfold decrypt_msg. now destruct (decrypt_message private_key c k). Qed.

Lemma room_messages_decrypt_msg (private_key : PrivateKey) (raw : string)
  (messages : list chat_msg) :
  room_messages PrivateKey (decrypt_msg PrivateKey decrypt_message)
    private_key raw messages
  = Return (map (fun msg => {| direction := direction_of msg;
                               timestamp := Created_at (data msg);
                               message_content :=
                                 shown_text private_key raw msg |})
              messages).
Proof.
  induction messages as [|msg rest IH]; [reflexivity|].
  cbn [room_messages]. rewrite decrypt_msg_returns, IH. reflexivity.
Qed.

(** C9. With [decrypt_msg] as the decryption function, the view of a room
    that exists is always assembled: it has one entry per message of the
    room, in the order of the room; the entry of a message whose decryption
    raises carries the text of the exception, the entry of any other
    message its plaintext. *)
Theorem get_chat_for_pubkey_decryption_failure (rooms : rooms_t)
  (target_pubkey raw_pubkey : string) (messages : list chat_msg)
  (convert_hex_to_npub_fn : string -> outcome string)
  (private_key : PrivateKey) :
  decode_npub target_pubkey = Return raw_pubkey ->
  rooms_lookup rooms raw_pubkey = Some messages ->
  exists view,
    get_chat_for_pubkey PrivateKey rooms target_pubkey convert_hex_to_npub_fn
      (decrypt_msg PrivateKey decrypt_message) private_key
    = RoomData target_pubkey view
    /\ length view = length messages
    /\ forall (i : nat) (msg : chat_msg), messages !! i = Some msg ->
         exists entry,
           view !! i = Some entry
           /\ timestamp entry = Created_at (data msg)
           /\ direction entry = direction_of msg
           /\ (forall e,
                 decrypt_message private_key (Content (data msg)) raw_pubkey
                 = Raise e ->
                 message_content entry = exn_str e)
           /\ (forall plaintext,
                 decrypt_message private_key (Content (data msg)) raw_pubkey
                 = Return plaintext ->
                 message_content entry = plaintext).
Proof.
  intros Hdecode Hroom. unfold get_chat_for_pubkey.
  rewrite Hdecode. cbn [mbind outcome_bind]. rewrite Hroom.
  rewrite room_messages_decrypt_msg. cbn [mbind outcome_bind].
  eexists. split; [reflexivity|]. split; [apply length_map|].
  intros i msg Hi. rewrite list_lookup_fmap, Hi. cbn.
  eexists. split; [reflexivity|]. cbn. unfold shown_text.
  repeat split; intros ? ->; reflexivity.
Qed.

End ChatViewFacts.

(** A cipher that fails on one ciphertext and answers on the others. *)
Definition sample_decrypt_message (private_key : unit) (encoded pk : string)
  : outcome string :=
  if String.eqb encoded "EXAMPLE/hash_data"
  then Raise (ValueError "Invalid padding bytes.")
  else Return "coucou".

Definition sample_dm (ty body stamp : string) : chat_msg :=
  {| type := ty;
     data := {| Event_ID := stamp; Pubkey := pkB; Content := body; Kind := 4;
                Tags := [["p"; pkB]]; Created_at := stamp |} |}.

Definition sample_room : list chat_msg :=
  [sample_dm "sent" "9fQ2?iv=Zm9v" "2023-11-14 22:13:20 UTC";
   sample_dm "received" "EXAMPLE/hash_data" "2023-11-14 22:15:00 UTC";
   sample_dm "received" "c2Vj?iv=YmFy" "2023-11-14 22:16:40 UTC"].

Lemma get_chat_for_pubkey_decryption_failure_witness :
  exists view,
    get_chat_for_pubkey unit [(pkB, sample_room)]
      "npub1kl708ucvrkwxlzvkxv03aue4r5auvxw828y5fgg6759exxq032esqmt7ul"
      convert_hex_to_npub (decrypt_msg unit sample_decrypt_message) tt
    = RoomData
        "npub1kl708ucvrkwxlzvkxv03aue4r5auvxw828y5fgg6759exxq032esqmt7ul" view
    /\ length view = 3%nat.
Proof.
  destruct (get_chat_for_pubkey_decryption_failure unit sample_decrypt_message
              [(pkB, sample_room)]
              "npub1kl708ucvrkwxlzvkxv03aue4r5auvxw828y5fgg6759exxq032esqmt7ul"
              pkB sample_room convert_hex_to_npub tt)
    as (view & Hview & Hlen & _).
  - vm_compute. reflexivity.
  - vm_compute. reflexivity.
  - exists view. split; [exact Hview | exact Hlen].
Defined.

(** ** Fetching without duplicates *)

Definition ids (msgs : list EventMessage) : list string :=
  map (fun m => id (event m)) msgs.

(** [m] is a message of the pool that brings its identifier for the first
    time: no message before it carries the same identifier. *)
Definition first_delivery (pool : list EventMessage) (m : EventMessage) : Prop :=
  exists l1 l2, pool = l1 ++ m :: l2 /\ id (event m) ∉ ids l1.

Lemma make_event_data_Return (e : Event) (s : string) :
  convert_timestamp (created_at e) = Return s ->
  make_event_data e
  = Return {| Event_ID := id e; Pubkey := pubkey e; Content := content e;
              Kind := kind e; Tags := tags e; Created_at := s |}.
Proof. intros H. unfold make_event_data. now rewrite H. Qed.

Lemma make_event_data_id (e : Event) (d : event_data) :
  make_event_data e = Return d -> Event_ID d = id e.
Proof.
  unfold make_event_data.
  destruct (convert_timestamp (created_at e)); cbn; [|discriminate].
  now intros [= <-].
Qed.

Lemma make_event_data_Raise (e : Event) (x : exn) :
  convert_timestamp (created_at e) = Raise x -> make_event_data e = Raise x.
Proof. intros H. unfold make_event_data. now rewrite H. Qed.

(** The loop invariant of [collect_events], for accumulators [events] and
    [seen]: the loop appends the data of the messages that bring an
    identifier neither seen before the loop nor earlier in the pool. *)
Lemma collect_events_spec (pool : list EventMessage) :
  forall (events : list event_data) (seen : gset string),
    (forall l1 m l2, pool = l1 ++ m :: l2 -> id (event m) ∉ seen ->
       id (event m) ∉ ids l1 ->
       exists s, convert_timestamp (created_at (event m)) = Return s) ->
    exists picked datas,
      collect_events pool events seen = Return (events ++ datas)
      /\ Forall2 (fun m d => make_event_data (event m) = Return d) picked datas
      /\ sublist picked pool
      /\ NoDup (ids picked)
      /\ (forall m, m ∈ picked <->
            exists l1 l2, pool = l1 ++ m :: l2 /\ (id (event m) ∉ seen)
                          /\ id (event m) ∉ ids l1).
Proof.
  induction pool as [|m0 pool IH]; intros events seen Hconv.
  - exists [], []. cbn. rewrite app_nil_r.
    split; [reflexivity|]. split; [constructor|]. split; [constructor|].
    split; [constructor|].
    intros m. rewrite elem_of_nil. split; [tauto|].
    intros (l1 & l2 & Hl & _). now destruct l1.
  - cbn [collect_events]. destruct (decide (id (event m0) ∈ seen)) as [Hin|Hnin].
    + destruct (IH events seen) as (picked & datas & Hret & Hdata & Hsub & Hnd & Hmem).
      { intros l1 m l2 -> Hs Hl1. apply (Hconv (m0 :: l1) m l2); [reflexivity|exact Hs|].
        cbn. rewrite not_elem_of_cons. split; [|exact Hl1]. congruence. }
      exists picked, datas. split; [exact Hret|]. split; [exact Hdata|].
      split; [now apply sublist_cons|]. split; [exact Hnd|].
      intros m. rewrite Hmem. split.
      * intros (l1 & l2 & -> & Hs & Hl1). exists (m0 :: l1), l2.
        split; [reflexivity|]. split; [exact Hs|].
        cbn. rewrite not_elem_of_cons. split; [congruence|exact Hl1].
      * intros (l1 & l2 & Hl & Hs & Hl1). destruct l1 as [|a l1].
        -- cbn in Hl. injection Hl as -> _. contradiction.
        -- cbn in Hl. injection Hl as -> ->. exists l1, l2.
           split; [reflexivity|]. split; [exact Hs|].
           cbn in Hl1. rewrite not_elem_of_cons in Hl1. tauto.
    + destruct (Hconv [] m0 pool eq_refl Hnin) as [s Hs]; [apply not_elem_of_nil|].
      rewrite (make_event_data_Return _ _ Hs). cbn [mbind outcome_bind].
      set (d := {| Event_ID := id (event m0); Pubkey := pubkey (event m0);
                   Content := content (event m0); Kind := kind (event m0);
                   Tags := tags (event m0); Created_at := s |}).
      destruct (IH (events ++ [d]) ({[id (event m0)]} ∪ seen))
        as (picked & datas & Hret & Hdata & Hsub & Hnd & Hmem).
      { intros l1 m l2 -> Hs' Hl1. apply (Hconv (m0 :: l1) m l2); [reflexivity| |].
        - set_solver.
        - cbn. rewrite not_elem_of_cons. split; [set_solver|exact Hl1]. }
      exists (m0 :: picked), (d :: datas).
      split; [rewrite Hret, <- app_assoc; reflexivity|].
      split; [constructor; [now apply make_event_data_Return|exact Hdata]|].
      split; [now apply sublist_skip|].
      split.
      * cbn. constructor; [|exact Hnd].
        intros Hin. apply list_elem_of_fmap in Hin as (m & Hid & Hm).
        apply Hmem in Hm as (_ & _ & _ & Hs' & _). set_solver.
      * intros m. rewrite elem_of_cons, Hmem. split.
        -- intros [->|(l1 & l2 & -> & Hs' & Hl1)].
           ++ exists [], pool. split; [reflexivity|]. split; [exact Hnin|].
              apply not_elem_of_nil.
           ++ exists (m0 :: l1), l2. split; [reflexivity|].
              split; [set_solver|].
              cbn. rewrite not_elem_of_cons. split; [set_solver|exact Hl1].
        -- intros (l1 & l2 & Hl & Hs' & Hl1). destruct l1 as [|a l1].
           ++ cbn in Hl. injection Hl as -> _. now left.
           ++ cbn in Hl. injection Hl as -> ->. right. exists l1, l2.
              cbn in Hl1. rewrite not_elem_of_cons in Hl1.
              split; [reflexivity|]. split; [set_solver|tauto].
Qed.

(** The loop raises as soon as a message that brings a new identifier has
    a timestamp [convert_timestamp] rejects. *)
Lemma collect_events_bad_timestamp (pool : list EventMessage) :
  forall (events : list event_data) (seen : gset string) l1 m l2 x,
    pool = l1 ++ m :: l2 -> id (event m) ∉ seen -> id (event m) ∉ ids l1 ->
    convert_timestamp (created_at (event m)) = Raise x ->
    exists x', collect_events pool events seen = Raise x'.
Proof.
  induction pool as [|m0 pool IH]; intros events seen l1 m l2 x Hl Hs Hl1 Hbad.
  - now destruct l1.
  - cbn [collect_events]. destruct (decide (id (event m0) ∈ seen)) as [Hin|Hnin].
    + destruct l1 as [|a l1]; cbn in Hl; injection Hl as -> ->; [contradiction|].
      cbn in Hl1. rewrite not_elem_of_cons in Hl1.
      now apply (IH events seen l1 m l2 x).
    + destruct l1 as [|a l1]; cbn in Hl; injection Hl as -> ->.
      * rewrite (make_event_data_Raise _ _ Hbad). now eexists.
      * destruct (make_event_data (event a)) as [d|x']; [|now eexists].
        cbn [mbind outcome_bind]. cbn in Hl1. rewrite not_elem_of_cons in Hl1.
        apply (IH _ _ l1 m l2 x); [reflexivity|set_solver|tauto|exact Hbad].
Qed.

(** Every identifier of the pool has a first delivery. *)
Lemma first_delivery_exists (pool : list EventMessage) (k : string) :
  k ∈ ids pool ->
  exists m, first_delivery pool m /\ id (event m) = k.
Proof.
  induction pool as [|m0 pool IH] using rev_ind; [now rewrite elem_of_nil|].
  unfold ids. rewrite map_app, elem_of_app. cbn. rewrite list_elem_of_singleton.
  intros Hin.
  destruct (decide (k ∈ ids pool)) as [Hold|Hnew].
  - destruct (IH Hold) as (m & (l1 & l2 & -> & Hl1) & Hid).
    exists m. split; [|exact Hid].
    exists l1, (l2 ++ [m0]). split; [now rewrite <- app_assoc|exact Hl1].
  - destruct Hin as [Hin| ->]; [contradiction|].
    exists m0. split; [|reflexivity]. exists pool, []. now split.
Qed.

Section FetchFacts.

Variable RelayManager : Type.
Variable Filters : Type.
Variable add_subscription_on_relay :
  RelayManager -> string -> list Filters -> string -> outcome RelayManager.
Variable run_sync : RelayManager -> outcome RelayManager.
Variable message_pool : RelayManager -> list EventMessage.

Let fetch := fetch_events_by_kind RelayManager Filters
               add_subscription_on_relay run_sync message_pool.
Let subscribe := subscribe_each RelayManager Filters add_subscription_on_relay.

(** C6, as the code has it.  Once the subscriptions are placed and
    [run_sync] has returned, and provided the timestamp of every message
    that brings a new identifier can be converted, the list returned is the
    data of the first delivery of each identifier, in the order of
    arrival: no identifier appears twice and every identifier of the pool
    appears. *)
Theorem fetch_events_by_kind_first_delivery (subscription_id : string)
  (relay_manager rm1 rm2 : RelayManager) (filters : Filters)
  (relay_urls : list string) :
  subscribe relay_manager subscription_id [filters] relay_urls = Return rm1 ->
  run_sync rm1 = Return rm2 ->
  (forall m, first_delivery (message_pool rm2) m ->
     exists s, convert_timestamp (created_at (event m)) = Return s) ->
  let events := fetch subscription_id relay_manager filters relay_urls in
  NoDup (map Event_ID events)
  /\ (forall m, m ∈ message_pool rm2 -> id (event m) ∈ map Event_ID events)
  /\ exists picked,
       Forall2 (fun m d => make_event_data (event m) = Return d) picked events
       /\ sublist picked (message_pool rm2)
       /\ forall m, m ∈ picked <-> first_delivery (message_pool rm2) m.
Proof.
  intros Hsub Hrun Hconv. subst fetch subscribe. unfold fetch_events_by_kind.
  rewrite Hsub. cbn [mbind outcome_bind]. rewrite Hrun. cbn [mbind outcome_bind].
  destruct (collect_events_spec (message_pool rm2) [] ∅)
    as (picked & datas & Hret & Hdata & Hsubl & Hnd & Hmem).
  { intros l1 m l2 Hl _ Hl1. apply Hconv. now exists l1, l2. }
  rewrite Hret. cbn [app].
  assert (Hids : map Event_ID datas = ids picked).
  { clear -Hdata. induction Hdata as [|m d picked datas Hd _ IH]; [reflexivity|].
    cbn. rewrite IH. f_equal. now apply make_event_data_id. }
  assert (Hfirst : forall m, m ∈ picked <-> first_delivery (message_pool rm2) m).
  { intros m. rewrite Hmem. unfold first_delivery. split.
    - intros (l1 & l2 & Hl & _ & Hl1). now exists l1, l2.
    - intros (l1 & l2 & Hl & Hl1). exists l1, l2.
      split; [exact Hl|]. split; [apply not_elem_of_empty|exact Hl1]. }
  split; [now rewrite Hids|]. split.
  - intros m Hm.
    destruct (first_delivery_exists (message_pool rm2) (id (event m)))
      as (m' & Hm' & Hid).
    { apply list_elem_of_fmap. now exists m. }
    rewrite Hids, <- Hid. apply list_elem_of_fmap. exists m'.
    split; [reflexivity|]. now apply Hfirst.
  - exists picked. split; [exact Hdata|]. split; [exact Hsubl|exact Hfirst].
Qed.

(** The other case: one first delivery whose timestamp cannot be converted
    empties the whole result. *)
Lemma fetch_events_by_kind_bad_timestamp (subscription_id : string)
  (relay_manager rm1 rm2 : RelayManager) (filters : Filters)
  (relay_urls : list string) (m : EventMessage) (x : exn) :
  subscribe relay_manager subscription_id [filters] relay_urls = Return rm1 ->
  run_sync rm1 = Return rm2 ->
  first_delivery (message_pool rm2) m ->
  convert_timestamp (created_at (event m)) = Raise x ->
  fetch subscription_id relay_manager filters relay_urls = [].
Proof.
  intros Hsub Hrun (l1 & l2 & Hl & Hl1) Hbad.
  subst fetch subscribe. unfold fetch_events_by_kind.
  rewrite Hsub. cbn [mbind outcome_bind]. rewrite Hrun. cbn [mbind outcome_bind].
  destruct (collect_events_bad_timestamp (message_pool rm2) [] ∅ l1 m l2 x Hl)
    as [x' Hx']; [apply not_elem_of_empty|exact Hl1|exact Hbad|].
  now rewrite Hx'.
Qed.

End FetchFacts.

Definition delivery (relay event_id : string) (stamp : Z) : EventMessage :=
  {| event := {| id := event_id; pubkey := alice; content := "gm"; kind := 1;
                 tags := []; created_at := stamp; sig := None |};
     url := relay |}.

(** Two relays deliver one note, a third message is a second note. *)
Definition sample_pool : list EventMessage :=
  [delivery "wss://relay.damus.io" "32cf229e" 1700000000;
   delivery "wss://strfry.iris.to" "32cf229e" 1700000000;
   delivery "wss://relay.damus.io" "35f828c6" 1700000060].

Lemma fetch_events_by_kind_first_delivery_witness :
  map Event_ID
    (replay.fetch_events_by_kind "2f1c" sample_pool ([alice], [1]) sample_relays)
  = ["32cf229e"; "35f828c6"]
  /\ NoDup (map Event_ID
              (replay.fetch_events_by_kind "2f1c" sample_pool ([alice], [1])
                 sample_relays)).
Proof.
  split; [vm_compute; reflexivity|].
  refine (proj1 (fetch_events_by_kind_first_delivery replay.RelayManager
                   replay.Filters replay.add_subscription_on_relay
                   replay.run_sync replay.message_pool "2f1c" sample_pool
                   sample_pool sample_pool ([alice], [1]) sample_relays
                   eq_refl eq_refl _)).
  intros m (l1 & l2 & Hl & _).
  assert (Hm : m ∈ sample_pool).
  { change (replay.message_pool sample_pool) with sample_pool in Hl.
    rewrite Hl. set_solver. }
  unfold sample_pool in Hm.
  rewrite !elem_of_cons, elem_of_nil in Hm.
  destruct Hm as [->|[->|[->|[]]]]; eexists; vm_compute; reflexivity.
Defined.

(** C6 as the specification words it fails: the second note carries its
    time in milliseconds, a year beyond 9999; the note both relays
    delivered is lost with it and the list returned is empty. *)
Lemma fetch_events_by_kind_loses_all :
  let pool := [delivery "wss://relay.damus.io" "32cf229e" 1700000000;
               delivery "wss://strfry.iris.to" "32cf229e" 1700000000;
               delivery "wss://relay.damus.io" "35f828c6" 1700000060000] in
  ids pool = ["32cf229e"; "32cf229e"; "35f828c6"]
  /\ replay.fetch_events_by_kind "2f1c" pool ([alice], [1]) sample_relays = [].
Proof.
  split; vm_compute; reflexivity.
Qed.

(** ** Chat rooms *)

(** *** The stable sort *)

Definition fst_le {A : Type} (a b : Z * A) : Prop := a.1 <= b.1.

Lemma insert_keyed_perm {A : Type} (x : Z * A) (l : list (Z * A)) :
  insert_keyed x l ≡ₚ x :: l.
Proof.
  induction l as [|y l IH]; [reflexivity|]. cbn.
  destruct (x.1 <=? y.1); [reflexivity|].
  rewrite IH. apply Permutation_swap.
Qed.

Lemma insert_keyed_sorted {A : Type} (x : Z * A) (l : list (Z * A)) :
  StronglySorted fst_le l -> StronglySorted fst_le (insert_keyed x l).
Proof.
  induction 1 as [|y l Hl IH Hy]; cbn.
  - repeat constructor.
  - destruct (Z.leb_spec x.1 y.1) as [Hle|Hlt].
    + constructor; [now constructor|].
      constructor; [exact Hle|].
      eapply Forall_impl; [exact Hy|]. unfold fst_le. cbn. intros; lia.
    + constructor; [exact IH|].
      rewrite insert_keyed_perm. constructor; [unfold fst_le; lia|exact Hy].
Qed.

Lemma sort_keyed_perm {A : Type} (l : list (Z * A)) : sort_keyed l ≡ₚ l.
Proof.
  induction l as [|x l IH]; [reflexivity|].
  cbn. rewrite insert_keyed_perm. now rewrite IH.
Qed.

Lemma sort_keyed_sorted {A : Type} (l : list (Z * A)) :
  StronglySorted fst_le (sort_keyed l).
Proof.
  induction l as [|x l IH]; [constructor|].
  cbn. now apply insert_keyed_sorted.
Qed.

Lemma with_keys_Return {A : Type} (key : A -> outcome Z) (l : list A) :
  Forall (fun x => exists t, key x = Return t) l ->
  exists ks, with_keys key l = Return ks
             /\ map snd ks = l
             /\ Forall (fun p => key p.2 = Return p.1) ks.
Proof.
  induction 1 as [|x l [t Ht] _ (ks & Hks & Hsnd & Hkey)].
  - exists []. repeat split; constructor.
  - exists ((t, x) :: ks). cbn. rewrite Ht. cbn. rewrite Hks. cbn.
    split; [reflexivity|]. split; [now rewrite Hsnd|now constructor].
Qed.

(** [a] does not come after [b] in time, for the instants [key] reads. *)
Definition key_le {A : Type} (key : A -> outcome Z) (a b : A) : Prop :=
  forall ta tb, key a = Return ta -> key b = Return tb -> ta <= tb.

Lemma sort_by_key_Return {A : Type} (key : A -> outcome Z) (l : list A) :
  Forall (fun x => exists t, key x = Return t) l ->
  exists sorted, sort_by_key key l = Return sorted
                 /\ sorted ≡ₚ l
                 /\ StronglySorted (key_le key) sorted.
Proof.
  intros Hl. destruct (with_keys_Return key l Hl) as (ks & Hks & Hsnd & Hkey).
  unfold sort_by_key. rewrite Hks. cbn [mbind outcome_bind].
  eexists. split; [reflexivity|]. split.
  - rewrite <- Hsnd. apply Permutation_map, sort_keyed_perm.
  - assert (Hkey' : Forall (fun p => key p.2 = Return p.1) (sort_keyed ks)).
    { now rewrite sort_keyed_perm. }
    pose proof (sort_keyed_sorted ks) as Hs.
    induction Hs as [|p s Hs IH Hp]; [constructor|].
    apply Forall_cons in Hkey' as [Hp' Hkey']. cbn.
    constructor; [now apply IH|].
    rewrite Forall_forall in Hp, Hkey'. apply Forall_forall. intros b Hb.
    apply list_elem_of_fmap in Hb as (q & -> & Hq).
    intros ta tb Ha Hb'. rewrite Hp' in Ha. rewrite (Hkey' q Hq) in Hb'.
    injection Ha as <-. injection Hb' as <-. now apply Hp.
Qed.

(** In a sorted list an element that is strictly earlier stands before. *)
Lemma sorted_before {A : Type} (R : A -> A -> Prop) (l : list A) (a b : A) :
  StronglySorted R l -> a ∈ l -> b ∈ l -> ~ R b a -> a <> b ->
  exists l1 l2 l3, l = l1 ++ a :: l2 ++ b :: l3.
Proof.
  induction 1 as [|x l Hl IH Hx]; intros Ha Hb Hnot Hne.
  - now apply elem_of_nil in Ha.
  - apply elem_of_cons in Hb as [-> | Hb].
    + apply elem_of_cons in Ha as [-> | Ha]; [contradiction|].
      rewrite Forall_forall in Hx. exfalso. now apply Hnot, Hx.
    + apply elem_of_cons in Ha as [-> | Ha].
      * apply list_elem_of_split in Hb as (l2 & l3 & ->).
        now exists [], l2, l3.
      * destruct (IH Ha Hb Hnot Hne) as (l1 & l2 & l3 & ->).
        now exists (x :: l1), l2, l3.
Qed.

(** *** Grouping *)

Definition room_keys (rooms : rooms_t) : list string := map fst rooms.

(** [other_is k m]: the counterparty of [m] is [k]. *)
Definition other_is (k : string) (m : chat_msg) : bool :=
  match get_other_pubkey m with
  | Return k' => String.eqb k' k
  | Raise _ => false
  end.

(** The rooms hold exactly the messages [done], each under its
    counterparty and in the order of [done]; no room is empty. *)
Definition grouped (rooms : rooms_t) (done : list chat_msg) : Prop :=
  NoDup (room_keys rooms)
  /\ forall k, rooms_lookup rooms k
               = match List.filter (other_is k) done with
                 | [] => None
                 | l => Some l
                 end.

Lemma room_keys_append (rooms : rooms_t) (k : string) (m : chat_msg) :
  room_keys (rooms_append rooms k m)
  = if bool_decide (k ∈ room_keys rooms) then room_keys rooms
    else room_keys rooms ++ [k].
Proof.
  unfold room_keys.
  induction rooms as [|[k' v] rooms IH]; [reflexivity|]. cbn.
  destruct (String.eqb_spec k' k) as [->|Hne]; cbn.
  - rewrite bool_decide_eq_true_2 by apply list_elem_of_here. reflexivity.
  - rewrite IH. destruct (bool_decide_reflect (k ∈ map fst rooms)) as [Hin|Hnin].
    + rewrite bool_decide_eq_true_2 by now apply list_elem_of_further.
      reflexivity.
    + rewrite bool_decide_eq_false_2; [reflexivity|].
      rewrite not_elem_of_cons. split; [congruence|exact Hnin].
Qed.

Lemma rooms_lookup_append (rooms : rooms_t) (k : string) (m : chat_msg)
  (k' : string) :
  rooms_lookup (rooms_append rooms k m) k'
  = if String.eqb k k'
    then Some (default [] (rooms_lookup rooms k) ++ [m])
    else rooms_lookup rooms k'.
Proof.
  induction rooms as [|[k0 v] rooms IH]; cbn.
  - destruct (String.eqb k k'); reflexivity.
  - destruct (String.eqb_spec k0 k) as [->|Hne]; cbn.
    + destruct (String.eqb k k'); reflexivity.
    + rewrite IH. destruct (String.eqb_spec k k') as [->|Hne'].
      * now rewrite (proj2 (String.eqb_neq k0 k')).
      * reflexivity.
Qed.

Lemma rooms_lookup_elem_of (rooms : rooms_t) (k : string) (l : list chat_msg) :
  NoDup (room_keys rooms) -> (k, l) ∈ rooms -> rooms_lookup rooms k = Some l.
Proof.
  induction rooms as [|[k0 v] rooms IH]; intros Hnd Hin.
  - now apply elem_of_nil in Hin.
  - cbn in Hnd. apply NoDup_cons in Hnd as [Hk0 Hnd].
    apply elem_of_cons in Hin as [[= <- <-] | Hin]; cbn.
    + now rewrite String.eqb_refl.
    + destruct (String.eqb_spec k0 k) as [->|Hne]; [|now apply IH].
      exfalso. apply Hk0. apply list_elem_of_fmap. now exists (k, l).
Qed.

Lemma grouped_append (rooms : rooms_t) (done : list chat_msg) (m : chat_msg)
  (k : string) :
  grouped rooms done -> get_other_pubkey m = Return k ->
  grouped (rooms_append rooms k m) (done ++ [m]).
Proof.
  intros [Hnd Hlook] Hk. split.
  - rewrite room_keys_append. case_bool_decide as Hin; [exact Hnd|].
    apply NoDup_app. split; [exact Hnd|]. split; [|apply NoDup_singleton].
    intros x Hx Hx'. apply list_elem_of_singleton in Hx'. now subst x.
  - intros k'. rewrite rooms_lookup_append, List.filter_app. cbn.
    unfold other_is at 2. rewrite Hk.
    destruct (String.eqb_spec k k') as [->|Hne].
    + rewrite Hlook. destruct (List.filter (other_is k') done); reflexivity.
    + rewrite app_nil_r. apply Hlook.
Qed.

Lemma group_rooms_grouped (msgs : list chat_msg) :
  forall (rooms : rooms_t) (done : list chat_msg),
    grouped rooms done ->
    Forall (fun m => exists k, get_other_pubkey m = Return k) msgs ->
    exists rooms', group_rooms msgs rooms = Return rooms'
                   /\ grouped rooms' (done ++ msgs).
Proof.
  induction msgs as [|m msgs IH]; intros rooms done Hg Hall.
  - exists rooms. rewrite app_nil_r. now split.
  - apply Forall_cons in Hall as [[k Hk] Hall]. cbn [group_rooms].
    rewrite Hk. cbn [mbind outcome_bind].
    destruct (IH _ _ (grouped_append _ _ _ _ Hg Hk) Hall) as (rooms' & Hret & Hg').
    exists rooms'. split; [exact Hret|]. now rewrite <- app_assoc in Hg'.
Qed.

Lemma filter_other_is_elem_of (k : string) (m : chat_msg) (l : list chat_msg) :
  m ∈ List.filter (other_is k) l <-> m ∈ l /\ get_other_pubkey m = Return k.
Proof.
  rewrite !list_elem_of_In, filter_In. unfold other_is.
  destruct (get_other_pubkey m) as [k'|e].
  - destruct (String.eqb_spec k' k) as [->|Hne]; split; intros [? ?];
      split; congruence.
  - split; intros [? ?]; split; congruence.
Qed.

(** *** Sorting and printing the rooms *)

Section ChatRoomFacts.

Variable PrivateKey : Type.
Variable strptime : string -> outcome Z.

(** The instant of a message, as the sort reads it. *)
Definition sent_at (msg : chat_msg) : outcome Z :=
  strptime (Created_at (data msg)).

Lemma sort_rooms_Return (rooms : rooms_t) :
  Forall (fun r => Forall (fun m => exists t, sent_at m = Return t) r.2) rooms ->
  exists rooms',
    sort_rooms strptime rooms = Return rooms'
    /\ Forall2 (fun r r' => r'.1 = r.1 /\ r'.2 ≡ₚ r.2
                            /\ StronglySorted (key_le sent_at) r'.2)
         rooms rooms'.
Proof.
  induction 1 as [|[k l] rooms Hl _ (rooms' & Hret & Hall)].
  - exists []. split; [reflexivity|constructor].
  - cbn [sort_rooms].
    destruct (sort_by_key_Return sent_at l Hl) as (sorted & Hs & Hperm & Hsorted).
    unfold sent_at in Hs at 1. rewrite Hs. cbn [mbind outcome_bind].
    rewrite Hret. cbn [mbind outcome_bind].
    eexists. split; [reflexivity|]. constructor; [|exact Hall].
    cbn. now repeat split.
Qed.

Lemma sorted_rooms_lookup (rooms rooms' : rooms_t) (k : string) :
  Forall2 (fun r r' => r'.1 = r.1 /\ r'.2 ≡ₚ r.2
                       /\ StronglySorted (key_le sent_at) r'.2) rooms rooms' ->
  match rooms_lookup rooms' k with
  | Some l' => exists l, rooms_lookup rooms k = Some l /\ l' ≡ₚ l
                         /\ StronglySorted (key_le sent_at) l'
  | None => rooms_lookup rooms k = None
  end.
Proof.
  induction 1 as [|[k0 l] [k0' l'] rooms rooms' (Hk & Hperm & Hs) _ IH];
    [reflexivity|].
  cbn in Hk, Hperm, Hs. subst k0'. cbn.
  destruct (String.eqb k0 k); [|exact IH].
  exists l. now repeat split.
Qed.

Lemma print_messages_Return
  (decrypt_msg_fn : PrivateKey -> string -> string -> outcome string)
  (private_key : PrivateKey) (room : string) (messages : list chat_msg) :
  Forall (fun m => exists p,
            decrypt_msg_fn private_key (Content (data m)) room = Return p)
    messages ->
  exists lines,
    print_messages PrivateKey decrypt_msg_fn private_key room messages
    = Return lines.
Proof.
  induction 1 as [|m l [p Hp] _ [lines Hlines]]; [now eexists|].
  cbn [print_messages]. rewrite Hp. cbn [mbind outcome_bind].
  rewrite Hlines. now eexists.
Qed.

Lemma print_rooms_Return (convert_hex_to_npub_fn : string -> outcome string)
  (decrypt_msg_fn : PrivateKey -> string -> string -> outcome string)
  (private_key : PrivateKey) (rooms : rooms_t) :
  Forall (fun r =>
            (exists npub, convert_hex_to_npub_fn r.1 = Return npub)
            /\ Forall (fun m => exists p,
                         decrypt_msg_fn private_key (Content (data m)) r.1
                         = Return p) r.2) rooms ->
  exists lines,
    print_rooms PrivateKey convert_hex_to_npub_fn decrypt_msg_fn private_key
      rooms = Return lines.
Proof.
  induction 1 as [|[k l] rooms [[npub Hnpub] Hl] _ [more Hmore]]; [now eexists|].
  cbn [print_rooms]. cbn in Hnpub, Hl. rewrite Hnpub. cbn [mbind outcome_bind].
  destruct (print_messages_Return _ _ _ _ Hl) as [lines Hlines].
  rewrite Hlines. cbn [mbind outcome_bind]. rewrite Hmore. now eexists.
Qed.

Lemma grouped_rooms_elem_of (rooms : rooms_t) (done : list chat_msg)
  (k : string) (l : list chat_msg) :
  grouped rooms done -> (k, l) ∈ rooms ->
  l = List.filter (other_is k) done /\ l <> [].
Proof.
  intros [Hnd Hlook] Hin.
  pose proof (rooms_lookup_elem_of _ _ _ Hnd Hin) as Hl.
  rewrite Hlook in Hl.
  destruct (List.filter (other_is k) done); [discriminate|].
  injection Hl as <-. now split.
Qed.

(** The messages [organize_chat_messages] works on. *)
Definition all_msgs (sent_msgs received_msgs : list event_data) : list chat_msg :=
  map (fun msg => {| type := "sent"; data := msg |}) sent_msgs
  ++ map (fun msg => {| type := "received"; data := msg |}) received_msgs.

(** C7, as the code has it.  The order of a sent and a received message
    needs a condition on every message supplied, not on the pair alone:
    each one has a counterparty that converts (a sent one has a ["p"]
    tag), each timestamp can be parsed, and the decryption passed in
    returns.  Then the room of a counterparty holds exactly the messages
    exchanged with it (a sent message is filed under its ["p"] tag, a
    received one under its sender), sorted by ascending time; and a message
    sent at [t1] stands before a message received from the same
    counterparty at [t2] whenever [t1 < t2], wherever the two are in the
    lists supplied. *)
Theorem organize_chat_messages_rooms (sent_msgs received_msgs : list event_data)
  (private_key : PrivateKey)
  (convert_hex_to_npub_fn : string -> outcome string)
  (decrypt_msg_fn : PrivateKey -> string -> string -> outcome string) :
  let msgs := all_msgs sent_msgs received_msgs in
  (forall m, m ∈ msgs ->
     exists k npub, get_other_pubkey m = Return k
                    /\ convert_hex_to_npub_fn k = Return npub) ->
  (forall m, m ∈ msgs -> exists t, sent_at m = Return t) ->
  (forall m k, m ∈ msgs ->
     exists p, decrypt_msg_fn private_key (Content (data m)) k = Return p) ->
  let rooms := organize_chat_messages PrivateKey strptime sent_msgs
                 received_msgs private_key convert_hex_to_npub_fn
                 decrypt_msg_fn in
  (forall k room, rooms_lookup rooms k = Some room ->
     (forall m, m ∈ room <-> m ∈ msgs /\ get_other_pubkey m = Return k)
     /\ length room = length (List.filter (other_is k) msgs)
     /\ StronglySorted (key_le sent_at) room)
  /\ (forall m k, m ∈ msgs -> get_other_pubkey m = Return k ->
        exists room, rooms_lookup rooms k = Some room /\ m ∈ room)
  /\ (forall s r k t1 t2,
        s ∈ sent_msgs -> r ∈ received_msgs ->
        first_p_tag (Tags s) = Return k -> Pubkey r = k ->
        strptime (Created_at s) = Return t1 ->
        strptime (Created_at r) = Return t2 -> t1 < t2 ->
        exists room l1 l2 l3,
          rooms_lookup rooms k = Some room
          /\ room = l1 ++ {| type := "sent"; data := s |} :: l2
                    ++ {| type := "received"; data := r |} :: l3).
Proof.
  intros msgs Hother Htime Hdec rooms.
  (* grouping *)
  destruct (group_rooms_grouped msgs [] []) as (g & Hg & Hgrouped).
  { split; [constructor|]. intros k. reflexivity. }
  { apply Forall_forall. intros m Hm.
    destruct (Hother m Hm) as (k & _ & Hk & _). now exists k. }
  cbn [app] in Hgrouped.
  (* sorting *)
  destruct (sort_rooms_Return g) as (sorted & Hsort & Hrel).
  { apply Forall_forall. intros [k l] Hkl. cbn.
    destruct (grouped_rooms_elem_of _ _ _ _ Hgrouped Hkl) as [-> _].
    apply Forall_forall. intros m Hm.
    apply filter_other_is_elem_of in Hm as [Hm _]. now apply Htime. }
  (* printing *)
  assert (Hg_ok : Forall (fun r =>
            (exists npub, convert_hex_to_npub_fn r.1 = Return npub)
            /\ Forall (fun m => m ∈ msgs) r.2) g).
  { apply Forall_forall. intros [k l] Hkl. cbn.
    destruct (grouped_rooms_elem_of _ _ _ _ Hgrouped Hkl) as [-> Hne]. split.
    - destruct (List.filter (other_is k) msgs) as [|m l] eqn:Hf; [contradiction|].
      assert (Hm : m ∈ List.filter (other_is k) msgs).
      { rewrite Hf. apply list_elem_of_here. }
      apply filter_other_is_elem_of in Hm as [Hm Hk].
      destruct (Hother m Hm) as (k' & npub & Hk' & Hnpub).
      exists npub. congruence.
    - apply Forall_forall. intros m Hm.
      now apply filter_other_is_elem_of in Hm as [Hm _]. }
  destruct (print_rooms_Return convert_hex_to_npub_fn decrypt_msg_fn
              private_key sorted) as [lines Hlines].
  { clear Hsort Hgrouped Hg.
    induction Hrel as [|[k l] [k' l'] g0 s0 (Hk & Hperm & _) _ IH];
      [constructor|].
    apply Forall_cons in Hg_ok as [[Hnpub Hl] Hg_ok].
    cbn in Hk, Hperm, Hnpub, Hl. subst k'. constructor; [|now apply IH].
    cbn. split; [exact Hnpub|].
    apply Forall_forall. intros m Hm. apply Hdec.
    rewrite Forall_forall in Hl. apply Hl. now rewrite <- Hperm. }
  assert (Hrooms : rooms = sorted).
  { subst rooms. unfold organize_chat_messages. fold (all_msgs sent_msgs received_msgs).
    fold msgs. rewrite Hg. cbn [mbind outcome_bind]. rewrite Hsort.
    cbn [mbind outcome_bind]. rewrite Hlines. reflexivity. }
  rewrite Hrooms. clear Hrooms rooms Hlines lines Hg Hsort Hg_ok.
  destruct Hgrouped as [_ Hlook].
  assert (Hroom : forall k room, rooms_lookup sorted k = Some room ->
            room ≡ₚ List.filter (other_is k) msgs
            /\ StronglySorted (key_le sent_at) room).
  { intros k room Hk. pose proof (sorted_rooms_lookup g sorted k Hrel) as H.
    rewrite Hk in H. destruct H as (l & Hl & Hperm & Hs).
    rewrite Hlook in Hl.
    destruct (List.filter (other_is k) msgs) as [|m0 l0]; [discriminate|].
    injection Hl as <-. now split. }
  assert (Hfind : forall m k, m ∈ msgs -> get_other_pubkey m = Return k ->
            exists room, rooms_lookup sorted k = Some room /\ m ∈ room).
  { intros m k Hm Hk.
    assert (Hin : m ∈ List.filter (other_is k) msgs).
    { now apply filter_other_is_elem_of. }
    pose proof (sorted_rooms_lookup g sorted k Hrel) as H.
    destruct (rooms_lookup sorted k) as [room|] eqn:Hroom'.
    - exists room. split; [reflexivity|].
      destruct (Hroom k room Hroom') as [Hperm _]. now rewrite Hperm.
    - rewrite Hlook in H.
      destruct (List.filter (other_is k) msgs); [|discriminate].
      now apply elem_of_nil in Hin. }
  split; [|split; [exact Hfind|]].
  - intros k room Hk. destruct (Hroom k room Hk) as [Hperm Hs].
    split; [|split; [now apply Permutation_length|exact Hs]].
    intros m. rewrite Hperm. apply filter_other_is_elem_of.
  - intros s r k t1 t2 Hs Hr Hp Hfrom Ht1 Ht2 Hlt.
    set (m1 := {| type := "sent"; data := s |}).
    set (m2 := {| type := "received"; data := r |}).
    assert (Hm1 : m1 ∈ msgs).
    { subst msgs. unfold all_msgs. apply elem_of_app. left.
      apply list_elem_of_fmap. now exists s. }
    assert (Hm2 : m2 ∈ msgs).
    { subst msgs. unfold all_msgs. apply elem_of_app. right.
      apply list_elem_of_fmap. now exists r. }
    assert (Hk1 : get_other_pubkey m1 = Return k) by exact Hp.
    assert (Hk2 : get_other_pubkey m2 = Return k).
    { unfold get_other_pubkey. cbn. now rewrite Hfrom. }
    destruct (Hfind m1 k Hm1 Hk1) as (room & Hroom' & Hin1).
    destruct (Hroom k room Hroom') as [Hperm Hsorted].
    assert (Hin2 : m2 ∈ room).
    { rewrite Hperm. now apply filter_other_is_elem_of. }
    destruct (sorted_before (key_le sent_at) room m1 m2 Hsorted Hin1 Hin2)
      as (l1 & l2 & l3 & Hsplit).
    + intros Hle. specialize (Hle t2 t1 Ht2 Ht1). lia.
    + discriminate.
    + now exists room, l1, l2, l3.
Qed.

End ChatRoomFacts.

(** A reading of ['%Y-%m-%d %H:%M:%S UTC'] for the examples: the digits of
    the fields, most significant first, which are ordered as the instants
    are. *)
Definition sample_strptime (s : string) : outcome Z :=
  if (length (chars s) =? 23)%nat
  then Return (fold_left
                 (fun acc c => if (48 <=? ord c) && (ord c <=? 57)
                               then 10 * acc + (ord c - 48) else acc)
                 (chars s) 0)
  else Raise (ValueError "time data does not match format").

Definition sample_sent : event_data :=
  {| Event_ID := "5c83da77"; Pubkey := alice; Content := "9fQ2?iv=Zm9v";
     Kind := 4; Tags := [["p"; pkB]]; Created_at := "2023-11-14 22:13:20 UTC" |}.

Definition sample_received (stamp : string) : event_data :=
  {| Event_ID := stamp; Pubkey := pkB; Content := "c2Vj?iv=YmFy"; Kind := 4;
     Tags := [["p"; alice]]; Created_at := stamp |}.

Lemma organize_chat_messages_rooms_witness :
  exists room l1 l2 l3,
    rooms_lookup
      (organize_chat_messages unit sample_strptime [sample_sent]
         [sample_received "2023-11-14 22:16:40 UTC";
          sample_received "2023-11-14 22:15:00 UTC"]
         tt convert_hex_to_npub (decrypt_msg unit sample_decrypt_message))
      pkB = Some room
    /\ room = l1 ++ {| type := "sent"; data := sample_sent |} :: l2
              ++ {| type := "received";
                    data := sample_received "2023-11-14 22:15:00 UTC" |} :: l3.
Proof.
  refine (proj2 (proj2
    (organize_chat_messages_rooms unit sample_strptime [sample_sent]
       [sample_received "2023-11-14 22:16:40 UTC";
        sample_received "2023-11-14 22:15:00 UTC"]
       tt convert_hex_to_npub (decrypt_msg unit sample_decrypt_message)
       _ _ _))
    sample_sent (sample_received "2023-11-14 22:15:00 UTC") pkB
    20231114221320 20231114221500 _ _ _ _ _ _ _).
  - intros m Hm. cbn in Hm. rewrite !elem_of_cons, elem_of_nil in Hm.
    destruct Hm as [->|[->|[->|[]]]]; exists pkB; eexists;
      (split; [reflexivity | vm_compute; reflexivity]).
  - intros m Hm. cbn in Hm. rewrite !elem_of_cons, elem_of_nil in Hm.
    destruct Hm as [->|[->|[->|[]]]]; eexists; vm_compute; reflexivity.
  - intros m k _. rewrite decrypt_msg_returns. now eexists.
  - apply list_elem_of_here.
  - apply list_elem_of_further, list_elem_of_here.
  - reflexivity.
  - reflexivity.
  - vm_compute. reflexivity.
  - vm_compute. reflexivity.
  - lia.
Defined.

(** Outside these conditions the rooms are dropped: a sent message whose
    ["p"] tag is not a hexadecimal key makes [convert_hex_to_npub] raise
    while the room is printed, and the result is the empty dictionary. *)
Lemma organize_chat_messages_unprintable_room :
  organize_chat_messages unit sample_strptime
    [{| Event_ID := "5c83da77"; Pubkey := alice; Content := "9fQ2?iv=Zm9v";
        Kind := 4; Tags := [["p"; "not a key"]];
        Created_at := "2023-11-14 22:13:20 UTC" |}]
    [sample_received "2023-11-14 22:15:00 UTC"]
    tt convert_hex_to_npub (decrypt_msg unit sample_decrypt_message)
  = [].
Proof. vm_compute. reflexivity. Qed.

(** C7 as the specification words it fails.  A message sent to [pkB] and a
    later message received from [pkB] are supplied together with a message
    from another key, [pkC], whose time is not in the format of the sort.
    The sort of the room of [pkC] raises, the handler of the function
    returns the empty dictionary, and no room lists the pair. *)
Lemma organize_chat_messages_unrelated_message :
  let received := sample_received "2023-11-14 22:15:00 UTC" in
  let stray := {| Event_ID := "35f828c6"; Pubkey := pkC;
                  Content := "c2Vj?iv=YmFy"; Kind := 4;
                  Tags := [["p"; alice]]; Created_at := "1700000060" |} in
  let rooms := organize_chat_messages unit sample_strptime [sample_sent]
                 [received; stray] tt convert_hex_to_npub
                 (decrypt_msg unit sample_decrypt_message) in
  first_p_tag (Tags sample_sent) = Return pkB
  /\ Pubkey received = pkB
  /\ sample_strptime (Created_at sample_sent) = Return 20231114221320
  /\ sample_strptime (Created_at received) = Return 20231114221500
  /\ 20231114221320 < 20231114221500
  /\ Pubkey stray <> pkB
  /\ rooms = []
  /\ rooms_lookup rooms pkB = None.
Proof.
  cbv zeta. split; [reflexivity|]. split; [reflexivity|].
  split; [vm_compute; reflexivity|]. split; [vm_compute; reflexivity|].
  split; [lia|]. split; [discriminate|].
  assert (H : organize_chat_messages unit sample_strptime [sample_sent]
                [sample_received "2023-11-14 22:15:00 UTC";
                 {| Event_ID := "35f828c6"; Pubkey := pkC;
                    Content := "c2Vj?iv=YmFy"; Kind := 4;
                    Tags := [["p"; alice]]; Created_at := "1700000060" |}]
                tt convert_hex_to_npub
                (decrypt_msg unit sample_decrypt_message) = [])
    by (vm_compute; reflexivity).
  rewrite H. split; reflexivity.
Qed.

(** ** Hexadecimal text *)

Lemma chars_str_of_chars (l : list ascii) : chars (str_of_chars l) = l.
Proof. apply list_ascii_of_string_of_list_ascii. Qed.

Lemma str_of_chars_chars (s : string) : str_of_chars (chars s) = s.
Proof. apply string_of_list_ascii_of_string. Qed.

Lemma hex_value_hex_char (v : Z) :
  0 <= v < 16 -> hex_value (hex_char v) = Some v.
Proof.
  intros Hv.
  assert (H : v = 0 \/ v = 1 \/ v = 2 \/ v = 3 \/ v = 4 \/ v = 5 \/ v = 6
              \/ v = 7 \/ v = 8 \/ v = 9 \/ v = 10 \/ v = 11 \/ v = 12
              \/ v = 13 \/ v = 14 \/ v = 15) by lia.
  repeat (destruct H as [->|H]; [reflexivity|]). subst v. reflexivity.
Qed.

Definition is_byte (b : Z) : Prop := 0 <= b < 256.

(** The integer a byte string denotes, most significant byte first. *)
Definition be_value (bs : list Z) : Z := fold_left (fun a b => 256 * a + b) bs 0.

Definition hex_pair (b : Z) : list ascii := [hex_char (b / 16); hex_char (b mod 16)].

Lemma hexlify_chars (bs : list Z) : chars (hexlify bs) = flat_map hex_pair bs.
Proof. unfold hexlify. apply chars_str_of_chars. Qed.

Definition int_of_hex_step (acc : outcome Z) (c : ascii) : outcome Z :=
  n ← acc;
  match hex_value c with
  | Some v => Return (16 * n + v)
  | None => Raise (ValueError "invalid literal for int() with base 16")
  end.

Lemma int_of_hex_step_Return (n v : Z) (c : ascii) :
  hex_value c = Some v -> int_of_hex_step (Return n) c = Return (16 * n + v).
Proof. intros H. unfold int_of_hex_step. cbn [mbind outcome_bind]. now rewrite H. Qed.

Lemma int_of_hex_digits (bs : list Z) (a : Z) :
  Forall is_byte bs ->
  fold_left int_of_hex_step (flat_map hex_pair bs) (Return a)
  = Return (fold_left (fun a b => 256 * a + b) bs a).
Proof.
  intros Hbs. revert a. induction Hbs as [|b bs Hb _ IH]; intros a; [reflexivity|].
  unfold is_byte in Hb. cbn [flat_map hex_pair app fold_left].
  assert (Hhi : 0 <= b / 16 < 16).
  { split; [apply Z.div_pos; lia|apply Z.div_lt_upper_bound; lia]. }
  assert (Hlo : 0 <= b mod 16 < 16) by (apply Z.mod_pos_bound; lia).
  rewrite (int_of_hex_step_Return a (b / 16)) by now apply hex_value_hex_char.
  rewrite (int_of_hex_step_Return _ (b mod 16)) by now apply hex_value_hex_char.
  rewrite IH. do 2 f_equal.
  pose proof (Z.div_mod b 16). lia.
Qed.

Lemma int_of_hex_hexlify (bs : list Z) :
  Forall is_byte bs -> bs <> [] ->
  int_of_hex (hexlify bs) = Return (be_value bs).
Proof.
  intros Hbs Hne. unfold int_of_hex. rewrite hexlify_chars.
  destruct bs as [|b bs]; [contradiction|].
  change (flat_map hex_pair (b :: bs))
    with (hex_char (b / 16) :: hex_char (b mod 16) :: flat_map hex_pair bs).
  change (hex_char (b / 16) :: hex_char (b mod 16) :: flat_map hex_pair bs)
    with (flat_map hex_pair (b :: bs)).
  exact (int_of_hex_digits (b :: bs) 0 Hbs).
Qed.

Lemma be_value_bound_from (bs : list Z) (a : Z) :
  Forall is_byte bs -> 0 <= a ->
  0 <= fold_left (fun a b => 256 * a + b) bs a
  < (a + 1) * 256 ^ Z.of_nat (length bs).
Proof.
  intros Hbs. revert a. induction Hbs as [|b bs Hb _ IH]; intros a Ha.
  - cbn. lia.
  - unfold is_byte in Hb. cbn [fold_left length].
    specialize (IH (256 * a + b) ltac:(lia)).
    rewrite Nat2Z.inj_succ, Z.pow_succ_r by lia.
    assert (0 < 256 ^ Z.of_nat (length bs)) by (apply Z.pow_pos_nonneg; lia).
    nia.
Qed.

Lemma be_value_bound (bs : list Z) :
  Forall is_byte bs -> 0 <= be_value bs < 256 ^ Z.of_nat (length bs).
Proof.
  intros Hbs. pose proof (be_value_bound_from bs 0 Hbs ltac:(lia)) as H.
  unfold be_value. lia.
Qed.

(** ** Leading zero bits *)

Lemma pos_bin_length (p : positive) : length (pos_bin p) = Pos.size_nat p.
Proof.
  induction p as [p IH|p IH|]; cbn; [| |reflexivity];
    rewrite length_app, IH; cbn; lia.
Qed.

Lemma lstrip_zeros_pos_bin (p : positive) (l : list ascii) :
  lstrip_zeros (pos_bin p ++ l) = pos_bin p ++ l.
Proof.
  revert l. induction p as [p IH|p IH|]; intros l; cbn [pos_bin];
    [rewrite <- app_assoc; apply IH|rewrite <- app_assoc; apply IH|reflexivity].
Qed.

Lemma lstrip_zeros_replicate (n : nat) (l : list ascii) :
  lstrip_zeros (replicate n "0"%char ++ l) = lstrip_zeros l.
Proof. induction n as [|n IH]; [reflexivity|exact IH]. Qed.

Lemma pos_bin_head (p : positive) :
  exists rest, pos_bin p = "1"%char :: rest.
Proof.
  induction p as [p [rest IH]|p [rest IH]|]; cbn [pos_bin];
    [rewrite IH|rewrite IH|]; eexists; reflexivity.
Qed.

Lemma size_nat_log2 (p : positive) :
  Z.of_nat (Pos.size_nat p) = Z.log2 (Z.pos p) + 1.
Proof.
  assert (H : forall q, Z.pos (Pos.size q) = Z.of_nat (Pos.size_nat q)).
  { induction q as [q IH|q IH|]; cbn [Pos.size Pos.size_nat]; [| |reflexivity];
      rewrite Nat2Z.inj_succ, <- IH; lia. }
  destruct p as [p|p|]; cbn [Z.log2 Pos.size_nat]; [| |reflexivity];
    rewrite Nat2Z.inj_succ, H; lia.
Qed.

Lemma leading_zero_bits_zero (w : nat) : leading_zero_bits w 0 = w.
Proof.
  induction w as [|w IH]; [reflexivity|].
  cbn [leading_zero_bits]. rewrite Z.bits_0. now rewrite IH.
Qed.

Lemma leading_zero_bits_pos (w : nat) (p : positive) :
  (Pos.size_nat p <= w)%nat ->
  leading_zero_bits w (Z.pos p) = (w - Pos.size_nat p)%nat.
Proof.
  pose proof (size_nat_log2 p) as Hlog.
  pose proof (Z.log2_nonneg (Z.pos p)) as Hnn.
  induction w as [|w IH]; intros Hw.
  - cbn. lia.
  - cbn [leading_zero_bits].
    destruct (Nat.eq_dec (Pos.size_nat p) (S w)) as [Heq|Hne].
    + replace (Z.of_nat w) with (Z.log2 (Z.pos p)) by lia.
      rewrite Z.bit_log2 by lia. lia.
    + rewrite Z.bits_above_log2 by lia.
      rewrite IH by lia. lia.
Qed.

(** [count_leading_zero_bits] on the hexadecimal text of a number below
    [2 ^ 256] counts the leading zero bits of its 256-bit form. *)
Lemma count_leading_zero_bits_spec (hex_string : string) (n : Z) :
  int_of_hex hex_string = Return n -> 0 <= n < 2 ^ 256 ->
  count_leading_zero_bits hex_string
  = Return (Z.of_nat (leading_zero_bits 256 n)).
Proof.
  intros Hint Hn. unfold count_leading_zero_bits. rewrite Hint.
  cbn [mbind outcome_bind]. f_equal.
  destruct n as [|p|p]; [| |lia].
  - rewrite leading_zero_bits_zero. reflexivity.
  - assert (Hsize : (Pos.size_nat p <= 256)%nat).
    { pose proof (size_nat_log2 p).
      assert (Z.log2 (Z.pos p) < 256) by (apply Z.log2_lt_pow2; lia). lia. }
    rewrite leading_zero_bits_pos by exact Hsize.
    change (drop 2 (bin (Z.pos p))) with (pos_bin p).
    destruct (pos_bin_head p) as [rest Hrest].
    unfold zfill. rewrite Hrest. cbn [Ascii.eqb Bool.eqb orb andb].
    rewrite <- Hrest. rewrite lstrip_zeros_replicate.
    rewrite <- (app_nil_r (pos_bin p)) at 3. rewrite lstrip_zeros_pos_bin, app_nil_r.
    rewrite length_app, length_replicate, pos_bin_length. lia.
Qed.

(** ** Proof of work *)

Section ProofOfWorkFacts.

Variable sha256 : string -> list Z.
Variable json_dumps : gmap string pyval -> string.
Variable time_time : nat -> Z.

(** A SHA-256 digest is 32 bytes. *)
Hypothesis sha256_digest : forall data,
  length (sha256 data) = 32%nat /\ Forall is_byte (sha256 data).

Local Abbreviation stamped := (stamp time_time).
Local Abbreviation mine := (mine_note sha256 json_dumps time_time).
Local Abbreviation mine_from := (mine_note_from sha256 json_dumps time_time).

(** The identifier of the note hashed at attempt [nonce], as text and as a
    256-bit big-endian integer, and the note returned at that attempt. *)
Definition attempt_id (note : gmap string pyval) (difficulty : Z)
  (nonce : nat) : string :=
  hexdigest sha256 (json_dumps (stamped note nonce difficulty)).

Definition attempt_int (note : gmap string pyval) (difficulty : Z)
  (nonce : nat) : Z :=
  be_value (sha256 (json_dumps (stamped note nonce difficulty))).

Definition attempt_zeros (note : gmap string pyval) (difficulty : Z)
  (nonce : nat) : Z :=
  Z.of_nat (leading_zero_bits 256 (attempt_int note difficulty nonce)).

Definition mined_at (note : gmap string pyval) (difficulty : Z) (nonce : nat)
  : gmap string pyval :=
  <["id" := PStr (attempt_id note difficulty nonce)]>
    (stamped note nonce difficulty).

Lemma attempt_id_int (note : gmap string pyval) (difficulty : Z) (nonce : nat) :
  int_of_hex (attempt_id note difficulty nonce)
  = Return (attempt_int note difficulty nonce)
  /\ 0 <= attempt_int note difficulty nonce < 2 ^ 256.
Proof.
  unfold attempt_id, attempt_int, hexdigest.
  destruct (sha256_digest (json_dumps (stamped note nonce difficulty)))
    as [Hlen Hbytes].
  split.
  - apply int_of_hex_hexlify; [exact Hbytes|].
    intros Hnil. rewrite Hnil in Hlen. discriminate Hlen.
  - pose proof (be_value_bound _ Hbytes) as Hb. rewrite Hlen in Hb.
    change (256 ^ Z.of_nat 32) with (2 ^ 256) in Hb. exact Hb.
Qed.

Lemma attempt_count (note : gmap string pyval) (difficulty : Z) (nonce : nat) :
  count_leading_zero_bits (attempt_id note difficulty nonce)
  = Return (attempt_zeros note difficulty nonce).
Proof.
  destruct (attempt_id_int note difficulty nonce) as [Hint Hrange].
  now apply count_leading_zero_bits_spec.
Qed.

(** The loop overwrites ["tags"] and ["created_at"] at every attempt:
    stamping a stamped note forgets the earlier stamp. *)
Lemma stamp_stamp (note : gmap string pyval) (d : Z) (j k : nat) :
  stamped (stamped note j d) k d = stamped note k d.
Proof.
  unfold stamp. apply map_eq. intros i.
  rewrite !lookup_insert. repeat case_decide; reflexivity.
Qed.

(** The loop started at [nonce] with [fuel] iterations: either every
    attempt it can make falls short and the fuel runs out, or it returns
    at the first attempt that meets the difficulty. *)
Lemma mine_from_spec (note : gmap string pyval) (d : Z) (fuel : nat) :
  forall (start : nat) (current : gmap string pyval),
    (forall k, stamped current k d = stamped note k d) ->
    (mine_from fuel current d start = None
     /\ forall k, (start <= k < start + fuel)%nat -> attempt_zeros note d k < d)
    \/ exists nonce,
         (start <= nonce < start + fuel)%nat
         /\ d <= attempt_zeros note d nonce
         /\ (forall k, (start <= k < nonce)%nat -> attempt_zeros note d k < d)
         /\ mine_from fuel current d start = Some (Return (mined_at note d nonce)).
Proof.
  induction fuel as [|fuel IH]; intros start current Hcur.
  - left. split; [reflexivity|]. intros k Hk. lia.
  - cbn [mine_note_from]. rewrite Hcur.
    pose proof (attempt_count note d start) as Hcount.
    unfold attempt_id, hexdigest in Hcount. unfold hexdigest.
    rewrite Hcount.
    destruct (Z.leb_spec d (attempt_zeros note d start)) as [Hle|Hlt].
    + right. exists start. split; [lia|]. split; [exact Hle|].
      split; [intros k Hk; lia|reflexivity].
    + destruct (IH (S start) (stamped note start d)) as [[Hnone Hall]|Hsome].
      { intros k. apply stamp_stamp. }
      * left. split; [exact Hnone|]. intros k Hk.
        destruct (Nat.eq_dec k start) as [->|Hne]; [exact Hlt|].
        apply Hall. lia.
      * right. destruct Hsome as (nonce & Hrange & Hmeets & Hmin & Hret).
        exists nonce. split; [lia|]. split; [exact Hmeets|].
        split; [|exact Hret]. intros k Hk.
        destruct (Nat.eq_dec k start) as [->|Hne]; [exact Hlt|].
        apply Hmin. lia.
Qed.

(** The digest hashed at attempt [nonce]: 32 bytes. *)
Definition digest_at (note : gmap string pyval) (difficulty : Z) (nonce : nat)
  : list Z :=
  sha256 (json_dumps (stamped note nonce difficulty)).

(** C1. Whenever [mine_note] returns, it returns the note of some attempt
    [nonce], carrying as ["id"] the hexadecimal text of the SHA-256 digest
    of that note's JSON.  The 32 bytes of the digest, read as a 256-bit
    big-endian integer, have at least [difficulty] leading zero bits, and
    the digest of no earlier attempt had; the integer the code reads from
    the text of the identifier is that integer.  With difficulty 0 the
    first attempt, nonce 0, returns.  The loop never raises, and it does
    return once it is allowed as many iterations as the first attempt that
    meets the difficulty needs. *)
Theorem mine_note_leading_zero_bits (note : gmap string pyval) (difficulty : Z) :
  0 <= difficulty ->
  (forall fuel mined,
     mine fuel note difficulty = Some (Return mined) ->
     exists nonce,
       mined = mined_at note difficulty nonce
       /\ mined !! "id" = Some (PStr (hexlify (digest_at note difficulty nonce)))
       /\ length (digest_at note difficulty nonce) = 32%nat
       /\ 0 <= be_value (digest_at note difficulty nonce) < 2 ^ 256
       /\ difficulty
          <= Z.of_nat (leading_zero_bits 256
                         (be_value (digest_at note difficulty nonce)))
       /\ int_of_hex (hexlify (digest_at note difficulty nonce))
          = Return (be_value (digest_at note difficulty nonce))
       /\ forall k, (k < nonce)%nat ->
            Z.of_nat (leading_zero_bits 256
                        (be_value (digest_at note difficulty k)))
            < difficulty)
  /\ (difficulty = 0 ->
      forall fuel, mine (S fuel) note difficulty
                   = Some (Return (mined_at note difficulty 0)))
  /\ (forall fuel e, mine fuel note difficulty <> Some (Raise e))
  /\ (forall nonce,
        difficulty
        <= Z.of_nat (leading_zero_bits 256
                       (be_value (digest_at note difficulty nonce))) ->
      exists first, (first <= nonce)%nat
                    /\ forall fuel, (first < fuel)%nat ->
                         mine fuel note difficulty
                         = Some (Return (mined_at note difficulty first))).
Proof.
  intros Hd. split; [|split; [|split]].
  - intros fuel mined Hret. unfold mine_note in Hret.
    destruct (mine_from_spec note difficulty fuel 0%nat note)
      as [[Hnone _]|(nonce & _ & Hmeets & Hmin & Hsome)]; [reflexivity| |].
    + rewrite Hnone in Hret. discriminate Hret.
    + rewrite Hsome in Hret. injection Hret as <-.
      destruct (attempt_id_int note difficulty nonce) as [Hint Hrange].
      destruct (sha256_digest (json_dumps (stamped note nonce difficulty)))
        as [Hlen _].
      exists nonce.
      split; [reflexivity|]. split; [apply lookup_insert_eq|].
      split; [exact Hlen|]. split; [exact Hrange|]. split; [exact Hmeets|].
      split; [exact Hint|].
      intros k Hk. apply Hmin. lia.
  - intros -> fuel. unfold mine_note.
    destruct (mine_from_spec note 0 (S fuel) 0%nat note)
      as [[_ Hall]|(nonce & _ & _ & Hmin & Hsome)]; [reflexivity| |].
    + specialize (Hall 0%nat ltac:(lia)). unfold attempt_zeros in Hall. lia.
    + destruct nonce as [|nonce]; [exact Hsome|].
      specialize (Hmin 0%nat ltac:(lia)). unfold attempt_zeros in Hmin. lia.
  - intros fuel e. unfold mine_note.
    destruct (mine_from_spec note difficulty fuel 0%nat note)
      as [[Hnone _]|(nonce & _ & _ & _ & Hsome)]; [reflexivity| |];
      congruence.
  - intros nonce Hmeets.
    change (difficulty <= attempt_zeros note difficulty nonce) in Hmeets.
    destruct (mine_from_spec note difficulty (S nonce) 0%nat note)
      as [[_ Hall]|(first & Hrange & Hfirst & Hmin & _)]; [reflexivity| |].
    + specialize (Hall nonce ltac:(lia)). lia.
    + exists first. split; [lia|]. intros fuel Hfuel. unfold mine_note.
      destruct (mine_from_spec note difficulty fuel 0%nat note)
        as [[_ Hall]|(nonce' & Hrange' & Hmeets' & Hmin' & Hsome)]; [reflexivity| |].
      * specialize (Hall first ltac:(lia)). lia.
      * destruct (Nat.lt_trichotomy nonce' first) as [Hlt|[->|Hgt]].
        -- specialize (Hmin nonce' ltac:(lia)). lia.
        -- exact Hsome.
        -- specialize (Hmin' first ltac:(lia)). lia.
Qed.

End ProofOfWorkFacts.

(** A stand-in digest for the examples: 32 bytes, the first one read off
    the length of the data. *)
Definition sample_sha256 (data : string) : list Z :=
  Z.of_nat (length (chars data)) mod 256 :: replicate 31 0.

Definition sample_json_dumps (note : gmap string pyval) : string :=
  match note !! "tags" with
  | Some (PList [PList [PStr _; PStr nonce; PStr _]]) => "{nonce:" +:+ nonce +:+ "}"
  | _ => "{}"
  end.

Definition sample_clock (n : nat) : Z := 1700000000 + Z.of_nat n.

Definition sample_template : gmap string pyval :=
  {[ "kind" := PInt 1;
     "content" := PStr "It's just me mining my own business" ]}.

(** A second stand-in digest, whose first byte is read off the first digit
    of the nonce in [sample_json_dumps]: the digest of nonce 0 starts with
    the byte 128, that of nonce 1 with 64, of nonce 2 with 32, and so on. *)
Definition ramp_sha256 (data : string) : list Z :=
  match drop 7 (chars data) with
  | c :: _ => (128 / 2 ^ (ord c - 48)) mod 256
  | [] => 0
  end :: replicate 31 0.

Lemma ramp_sha256_digest (data : string) :
  length (ramp_sha256 data) = 32%nat /\ Forall is_byte (ramp_sha256 data).
Proof.
  split; [reflexivity|]. constructor.
  - unfold is_byte. destruct (drop 7 (chars data)); [lia|].
    apply Z.mod_pos_bound. lia.
  - apply Forall_replicate. unfold is_byte. lia.
Qed.

(** With difficulty 3 the attempts of nonce 0, 1 and 2 fall short, and the
    note of nonce 3 is returned; its digest starts with the byte 16. *)
Lemma mine_note_leading_zero_bits_witness :
  0 <= 3
  /\ mine_note ramp_sha256 sample_json_dumps sample_clock 10 sample_template 3
     = Some (Return (mined_at ramp_sha256 sample_json_dumps sample_clock
                       sample_template 3 3))
  /\ mined_at ramp_sha256 sample_json_dumps sample_clock sample_template 3 3
       !! "id"
     = Some (PStr "1000000000000000000000000000000000000000000000000000000000000000")
  /\ exists nonce,
       mined_at ramp_sha256 sample_json_dumps sample_clock sample_template 3 3
       = mined_at ramp_sha256 sample_json_dumps sample_clock sample_template
           3 nonce
       /\ 3 <= Z.of_nat (leading_zero_bits 256
                           (be_value (digest_at ramp_sha256 sample_json_dumps
                                        sample_clock sample_template 3 nonce)))
       /\ forall k, (k < nonce)%nat ->
            Z.of_nat (leading_zero_bits 256
                        (be_value (digest_at ramp_sha256 sample_json_dumps
                                     sample_clock sample_template 3 k)))
            < 3.
Proof.
  assert (Hrun : mine_note ramp_sha256 sample_json_dumps sample_clock 10
                   sample_template 3
                 = Some (Return (mined_at ramp_sha256 sample_json_dumps
                                   sample_clock sample_template 3 3)))
    by (vm_compute; reflexivity).
  split; [lia|]. split; [exact Hrun|]. split; [vm_compute; reflexivity|].
  destruct (proj1 (mine_note_leading_zero_bits ramp_sha256 sample_json_dumps
                     sample_clock ramp_sha256_digest sample_template 3
                     ltac:(lia)) 10%nat _ Hrun)
    as (nonce & Hmined & _ & _ & _ & Hzeros & _ & Hmin).
  exists nonce. split; [exact Hmined|]. split; [exact Hzeros|exact Hmin].
Defined.

(** ** Hexadecimal round trip *)

Definition is_hex_digit (c : ascii) : Prop := hex_value c <> None.

(** [h.lower()] *)
Definition lower (h : string) : string :=
  str_of_chars (map bech32.lower_char (chars h)).

Lemma hex_value_range (c : ascii) (v : Z) :
  hex_value c = Some v ->
  0 <= v < 16 /\ hex_char v = bech32.lower_char c /\ ord c < 128.
Proof.
  destruct c as [[] [] [] [] [] [] [] []]; intros H; vm_compute in H;
    try discriminate H; injection H as <-; vm_compute; repeat split; congruence.
Qed.

Lemma unhex_pairs_spec (n : nat) :
  forall l : list ascii,
    length l = (2 * n)%nat -> Forall is_hex_digit l ->
    exists bs, unhex_pairs l = Some bs
               /\ length bs = n
               /\ Forall is_byte bs
               /\ flat_map hex_pair bs = map bech32.lower_char l.
Proof.
  induction n as [|n IH]; intros l Hlen Hhex.
  - destruct l; [|cbn in Hlen; lia]. exists []. repeat split; constructor.
  - destruct l as [|a [|b l]]; [cbn in Hlen; lia|cbn in Hlen; lia|].
    apply Forall_cons in Hhex as [Ha Hhex].
    apply Forall_cons in Hhex as [Hb Hhex].
    destruct (IH l) as (bs & Hbs & Hn & Hbytes & Hflat); [cbn in Hlen; lia|exact Hhex|].
    unfold is_hex_digit in Ha, Hb.
    destruct (hex_value a) as [x|] eqn:Hx; [|contradiction].
    destruct (hex_value b) as [y|] eqn:Hy; [|contradiction].
    destruct (hex_value_range a x Hx) as (Hxr & Hxc & _).
    destruct (hex_value_range b y Hy) as (Hyr & Hyc & _).
    exists (16 * x + y :: bs). cbn [unhex_pairs]. rewrite Hx, Hy, Hbs.
    split; [reflexivity|]. split; [cbn; now rewrite Hn|].
    split; [constructor; [unfold is_byte; lia|exact Hbytes]|].
    cbn [flat_map map app hex_pair]. rewrite Hflat.
    replace ((16 * x + y) / 16) with x by (apply Z.div_unique with y; lia).
    replace ((16 * x + y) mod 16) with y by (apply Z.mod_unique with x; lia).
    now rewrite Hxc, Hyc.
Qed.

Lemma unhexlify_hex (h : string) (n : nat) :
  length (chars h) = (2 * n)%nat -> Forall is_hex_digit (chars h) ->
  exists bs, unhexlify h = Return bs
             /\ length bs = n
             /\ Forall is_byte bs
             /\ hexlify bs = lower h.
Proof.
  intros Hlen Hhex.
  destruct (unhex_pairs_spec n (chars h) Hlen Hhex) as (bs & Hbs & Hn & Hbytes & Hflat).
  exists bs. unfold unhexlify.
  assert (Hascii : existsb (fun c => 128 <=? ord c) (chars h) = false).
  { apply not_true_is_false. intros Hex. apply existsb_exists in Hex as (c & Hc & Hord).
    rewrite Forall_forall in Hhex. apply list_elem_of_In in Hc.
    specialize (Hhex c Hc). unfold is_hex_digit in Hhex.
    destruct (hex_value c) as [v|] eqn:Hv; [|contradiction].
    destruct (hex_value_range c v Hv) as (_ & _ & Hlt). lia. }
  rewrite Hascii, Hlen.
  replace (Nat.odd (2 * n)) with false
    by (symmetry; rewrite <- Nat.negb_even, Nat.even_mul; reflexivity).
  rewrite Hbs. split; [reflexivity|]. split; [exact Hn|]. split; [exact Hbytes|].
  unfold hexlify, lower. fold hex_pair.
  change (fun b => [hex_char (b / 16); hex_char (b mod 16)]) with hex_pair.
  now rewrite Hflat.
Qed.

(** A string of lowercase digits is its own lowercase form. *)
Definition is_lower_hex_digit (c : ascii) : Prop :=
  is_hex_digit c /\ bech32.lower_char c = c.

Lemma lower_lower_hex (h : string) :
  Forall is_lower_hex_digit (chars h) -> lower h = h.
Proof.
  intros H. unfold lower. rewrite <- (str_of_chars_chars h) at 2. f_equal.
  induction H as [|c l [_ Hc] _ IH]; [reflexivity|]. cbn. now rewrite Hc, IH.
Qed.

(** ** Regrouping bits: [convertbits] *)

(** The integer a list of [w]-bit groups denotes, first group first. *)
Definition be (w : Z) (l : list Z) : Z := fold_left (fun a v => a * 2 ^ w + v) l 0.

Definition in_range (w v : Z) : Prop := 0 <= v < 2 ^ w.

Lemma mask_land (a n : Z) : 0 <= n -> Z.land a (Z.shiftl 1 n - 1) = a mod 2 ^ n.
Proof.
  intros Hn. rewrite <- Z.land_ones by exact Hn. reflexivity.
Qed.

Lemma lor_shiftl (a v n : Z) :
  0 <= n -> in_range n v -> Z.lor (Z.shiftl a n) v = a * 2 ^ n + v.
Proof.
  intros Hn [Hv0 Hv1].
  assert (Hland : Z.land (Z.shiftl a n) v = 0).
  { apply Z.bits_inj'. intros i Hi. rewrite Z.land_spec, Z.bits_0.
    destruct (Z.lt_ge_cases i n) as [Hlt|Hge].
    - rewrite Z.shiftl_spec_low by exact Hlt. reflexivity.
    - rewrite <- (Z.mod_small v (2 ^ n)) by lia.
      rewrite Z.mod_pow2_bits_high by lia. apply andb_false_r. }
  rewrite <- Z.lxor_lor, <- Z.add_nocarry_lxor by exact Hland.
  now rewrite Z.shiftl_mul_pow2.
Qed.

Lemma be_snoc (w : Z) (l : list Z) (x : Z) : be w (l ++ [x]) = be w l * 2 ^ w + x.
Proof. unfold be. now rewrite fold_left_app. Qed.

(** Bits below [m] of two numbers that agree modulo [2 ^ m]. *)
Lemma window_congr (a b m k t : Z) :
  a mod 2 ^ m = b mod 2 ^ m -> 0 <= k -> 0 <= t -> k + t <= m ->
  (a / 2 ^ k) mod 2 ^ t = (b / 2 ^ k) mod 2 ^ t.
Proof.
  intros Hab Hk Ht Hkt. apply Z.bits_inj'. intros i Hi.
  rewrite !Z.testbit_mod_pow2 by exact Ht.
  destruct (Z.ltb_spec i t) as [Hlt|Hge]; [|reflexivity]. cbn.
  rewrite <- !Z.shiftr_div_pow2, !Z.shiftr_spec by lia.
  rewrite <- (Z.mod_pow2_bits_low a m) by lia.
  rewrite <- (Z.mod_pow2_bits_low b m) by lia.
  now rewrite Hab.
Qed.

Lemma low_congr (a b m k : Z) :
  a mod 2 ^ m = b mod 2 ^ m -> 0 <= k <= m -> a mod 2 ^ k = b mod 2 ^ k.
Proof.
  intros Hab Hk. pose proof (window_congr a b m 0 k Hab) as H.
  rewrite !Z.pow_0_r, !Z.div_1_r in H. apply H; lia.
Qed.

Section ConvertBits.

Variables frombits tobits : Z.
Hypothesis frombits_pos : 0 < frombits.
Hypothesis tobits_pos : 0 < tobits.

Local Abbreviation width := (frombits + tobits - 1).

(** The state of the loop after the groups read so far denote [stream]:
    [acc] holds the low bits of the stream, [ret] the groups written, and
    [bits] bits of the stream are still to be written. *)
Definition regrouped (stream acc bits : Z) (ret : list Z) : Prop :=
  0 <= stream
  /\ acc mod 2 ^ width = stream mod 2 ^ width
  /\ be tobits ret = stream / 2 ^ bits
  /\ Forall (in_range tobits) ret.

Lemma convertbits_emit_spec (stream acc : Z) (fuel : nat) :
  forall (bits : Z) (ret : list Z),
    0 <= bits <= width -> bits <= Z.of_nat fuel ->
    regrouped stream acc bits ret ->
    exists bits' ret',
      bech32.convertbits_emit fuel tobits acc bits ret = (bits', ret')
      /\ 0 <= bits' < tobits
      /\ regrouped stream acc bits' ret'
      /\ Z.of_nat (length ret') * tobits + bits'
         = Z.of_nat (length ret) * tobits + bits.
Proof.
  induction fuel as [|fuel IH]; intros bits ret Hbits Hfuel Hinv.
  - exists bits, ret. cbn. split; [reflexivity|]. split; [lia|].
    split; [exact Hinv|lia].
  - cbn [bech32.convertbits_emit].
    destruct (Z.leb_spec tobits bits) as [Hle|Hlt].
    + destruct Hinv as (Hs & Hacc & Hbe & Hrange).
      set (bits1 := bits - tobits).
      rewrite Z.shiftr_div_pow2, mask_land by lia.
      destruct (IH bits1 (ret ++ [(acc / 2 ^ bits1) mod 2 ^ tobits]))
        as (bits' & ret' & Hret & Hb' & Hinv' & Hlen); [lia|lia| |].
      { split; [exact Hs|]. split; [exact Hacc|]. split.
        - rewrite be_snoc, Hbe.
          rewrite (window_congr acc stream width bits1 tobits Hacc) by lia.
          replace bits with (bits1 + tobits) by lia.
          rewrite Z.pow_add_r, <- Z.div_div by lia.
          pose proof (Z.div_mod (stream / 2 ^ bits1) (2 ^ tobits)
                        ltac:(apply Z.pow_nonzero; lia)). lia.
        - apply Forall_app. split; [exact Hrange|]. constructor; [|constructor].
          apply Z.mod_pos_bound. apply Z.pow_pos_nonneg; lia. }
      exists bits', ret'. split; [exact Hret|]. split; [exact Hb'|].
      split; [exact Hinv'|]. rewrite Hlen, length_app. cbn. lia.
    + exists bits, ret. split; [reflexivity|]. split; [lia|].
      split; [exact Hinv|lia].
Qed.

Lemma convertbits_loop_spec (data : list Z) :
  forall (stream acc bits : Z) (ret : list Z),
    0 <= bits < tobits ->
    regrouped stream acc bits ret ->
    Forall (in_range frombits) data ->
    exists acc' bits' ret',
      bech32.convertbits_loop data frombits tobits acc bits ret
      = Some (acc', bits', ret')
      /\ 0 <= bits' < tobits
      /\ regrouped (fold_left (fun a v => a * 2 ^ frombits + v) data stream)
           acc' bits' ret'
      /\ Z.of_nat (length ret') * tobits + bits'
         = Z.of_nat (length ret) * tobits + bits
           + Z.of_nat (length data) * frombits.
Proof.
  induction data as [|v data IH]; intros stream acc bits ret Hbits Hinv Hdata.
  - exists acc, bits, ret. cbn. split; [reflexivity|]. split; [lia|].
    split; [exact Hinv|lia].
  - apply Forall_cons in Hdata as [[Hv0 Hv1] Hdata].
    cbn [bech32.convertbits_loop fold_left].
    rewrite Z.shiftr_div_pow2, Z.div_small by lia.
    replace (v <? 0) with false by (symmetry; apply Z.ltb_ge; lia).
    cbn [orb negb Z.eqb].
    rewrite lor_shiftl, mask_land by (try split; lia).
    set (acc1 := (acc * 2 ^ frombits + v) mod 2 ^ width).
    set (stream1 := stream * 2 ^ frombits + v).
    destruct Hinv as (Hs & Hacc & Hbe & Hrange).
    assert (Hp : 0 < 2 ^ frombits) by (apply Z.pow_pos_nonneg; lia).
    assert (Hinv1 : regrouped stream1 acc1 (bits + frombits) ret).
    { split; [subst stream1; nia|]. split; [|split; [|exact Hrange]].
      - subst acc1 stream1. rewrite Z.mod_mod by (apply Z.pow_nonzero; lia).
        rewrite (Z.add_mod (acc * _)), (Z.add_mod (stream * _))
          by (apply Z.pow_nonzero; lia).
        rewrite (Z.mul_mod acc), (Z.mul_mod stream) by (apply Z.pow_nonzero; lia).
        now rewrite Hacc.
      - rewrite Hbe. subst stream1.
        rewrite Z.add_comm with (n := bits), Z.pow_add_r, <- Z.div_div by lia.
        f_equal. rewrite Z.div_add_l, Z.div_small by lia. lia. }
    destruct (convertbits_emit_spec stream1 acc1 (Z.to_nat (bits + frombits))
                (bits + frombits) ret) as (bits2 & ret2 & Hemit & Hb2 & Hinv2 & Hlen2);
      [lia|lia|exact Hinv1|].
    rewrite Hemit.
    destruct (IH stream1 acc1 bits2 ret2 Hb2 Hinv2 Hdata)
      as (acc' & bits' & ret' & Hret & Hb' & Hinv' & Hlen').
    exists acc', bits', ret'. split; [exact Hret|]. split; [exact Hb'|].
    split; [exact Hinv'|]. rewrite Hlen'. cbn [length].
    rewrite Nat2Z.inj_succ. lia.
Qed.

End ConvertBits.

Lemma fold_be_shift (w : Z) (l : list Z) (a : Z) :
  0 <= w ->
  fold_left (fun a v => a * 2 ^ w + v) l a
  = a * 2 ^ (w * Z.of_nat (length l)) + be w l.
Proof.
  intros Hw. revert a. induction l as [|v l IH]; intros a.
  - cbn. rewrite Z.mul_0_r. unfold be. cbn. lia.
  - unfold be. cbn [fold_left length]. rewrite IH, (IH (0 * 2 ^ w + v)).
    rewrite Nat2Z.inj_succ, Z.mul_succ_r, Z.pow_add_r by lia. ring.
Qed.

Lemma be_cons (w : Z) (v : Z) (l : list Z) :
  0 <= w -> be w (v :: l) = v * 2 ^ (w * Z.of_nat (length l)) + be w l.
Proof.
  intros Hw. unfold be at 1. cbn [fold_left]. rewrite fold_be_shift by exact Hw.
  f_equal; lia.
Qed.

Lemma be_bound (w : Z) (l : list Z) :
  0 <= w -> Forall (in_range w) l ->
  0 <= be w l < 2 ^ (w * Z.of_nat (length l)).
Proof.
  intros Hw. induction 1 as [|v l [Hv0 Hv1] _ IH].
  - cbn. lia.
  - rewrite be_cons by exact Hw. cbn [length].
    rewrite Nat2Z.inj_succ, Z.mul_succ_r, Z.pow_add_r by lia.
    assert (0 < 2 ^ (w * Z.of_nat (length l))) by (apply Z.pow_pos_nonneg; lia).
    nia.
Qed.

Lemma be_inj (w : Z) (l1 : list Z) :
  0 <= w ->
  forall l2, length l1 = length l2 ->
    Forall (in_range w) l1 -> Forall (in_range w) l2 ->
    be w l1 = be w l2 -> l1 = l2.
Proof.
  intros Hw. induction l1 as [|x l1 IH]; intros [|y l2] Hlen H1 H2 Hbe;
    try discriminate Hlen; [reflexivity|].
  injection Hlen as Hlen.
  apply Forall_cons in H1 as [Hx H1]. apply Forall_cons in H2 as [Hy H2].
  rewrite !be_cons in Hbe by exact Hw. rewrite <- Hlen in Hbe.
  pose proof (be_bound w l1 Hw H1) as B1.
  pose proof (be_bound w l2 Hw H2) as B2. rewrite <- Hlen in B2.
  assert (Hxy : x = y) by nia. subst y.
  f_equal. apply IH; [exact Hlen|exact H1|exact H2|lia].
Qed.

Lemma regrouped_start (frombits tobits : Z) : regrouped frombits tobits 0 0 0 [].
Proof.
  split; [lia|]. split; [reflexivity|]. split; [|constructor].
  cbn. rewrite Z.div_0_l; [reflexivity|]. cbn. lia.
Qed.

(** With padding the groups written denote the stream followed by fewer
    than [tobits] zero bits. *)
Lemma convertbits_pad (frombits tobits : Z) (data : list Z) :
  0 < frombits -> 0 < tobits ->
  Forall (in_range frombits) data ->
  exists out padbits,
    bech32.convertbits data frombits tobits true = Some out
    /\ 0 <= padbits < tobits
    /\ be tobits out = be frombits data * 2 ^ padbits
    /\ Forall (in_range tobits) out
    /\ Z.of_nat (length out) * tobits
       = Z.of_nat (length data) * frombits + padbits.
Proof.
  intros HF HT Hdata. unfold bech32.convertbits.
  destruct (convertbits_loop_spec frombits tobits HF HT data 0 0 0 [])
    as (acc & bits & ret & Hloop & Hbits & Hinv & Hlen);
    [lia|apply regrouped_start|exact Hdata|].
  rewrite Hloop. fold (be frombits data) in Hinv.
  destruct Hinv as (Hs & Hacc & Hbe & Hrange). cbn [length] in Hlen.
  destruct (Z.eqb_spec bits 0) as [->|Hne]; cbn [negb].
  - exists ret, 0. split; [reflexivity|]. split; [lia|].
    rewrite Z.pow_0_r, Z.div_1_r in Hbe. rewrite Z.pow_0_r, Z.mul_1_r.
    split; [exact Hbe|]. split; [exact Hrange|lia].
  - exists (ret ++ [Z.land (Z.shiftl acc (tobits - bits)) (Z.shiftl 1 tobits - 1)]),
      (tobits - bits).
    split; [reflexivity|]. split; [lia|].
    rewrite Z.shiftl_mul_pow2, mask_land by lia.
    assert (Hb : 0 < 2 ^ bits) by (apply Z.pow_pos_nonneg; lia).
    assert (Hp : 0 < 2 ^ (tobits - bits)) by (apply Z.pow_pos_nonneg; lia).
    assert (Hx : (acc * 2 ^ (tobits - bits)) mod 2 ^ tobits
                 = (be frombits data mod 2 ^ bits) * 2 ^ (tobits - bits)).
    { replace (2 ^ tobits) with (2 ^ bits * 2 ^ (tobits - bits))
        by (rewrite <- Z.pow_add_r by lia; f_equal; lia).
      rewrite Z.mul_mod_distr_r by lia. f_equal.
      apply (low_congr _ _ (frombits + tobits - 1)); [exact Hacc|lia]. }
    rewrite Hx. split; [|split].
    + rewrite be_snoc, Hbe.
      replace (2 ^ tobits) with (2 ^ bits * 2 ^ (tobits - bits))
        by (rewrite <- Z.pow_add_r by lia; f_equal; lia).
      pose proof (Z.div_mod (be frombits data) (2 ^ bits) ltac:(lia)) as Hdm.
      rewrite Hdm at 3. ring.
    + apply Forall_app. split; [exact Hrange|]. constructor; [|constructor].
      rewrite <- Hx. apply Z.mod_pos_bound. apply Z.pow_pos_nonneg; lia.
    + rewrite length_app. cbn [length]. lia.
Qed.

(** Regrouping back without padding gives the data again. *)
Lemma convertbits_round_trip (frombits tobits : Z) (data : list Z) :
  0 < tobits <= frombits ->
  Forall (in_range frombits) data ->
  exists out,
    bech32.convertbits data frombits tobits true = Some out
    /\ Forall (in_range tobits) out
    /\ Z.of_nat (length data) * frombits
       <= Z.of_nat (length out) * tobits
       < Z.of_nat (length data) * frombits + tobits
    /\ bech32.convertbits out tobits frombits false = Some data.
Proof.
  intros HT Hdata.
  destruct (convertbits_pad frombits tobits data) as
    (out & padbits & Hout & Hpad & Hbe & Hrange & Hlen); [lia|lia|exact Hdata|].
  exists out. split; [exact Hout|]. split; [exact Hrange|]. split; [lia|].
  unfold bech32.convertbits.
  destruct (convertbits_loop_spec tobits frombits ltac:(lia) ltac:(lia) out 0 0 0 [])
    as (acc & bits & ret & Hloop & Hbits & Hinv & Hlen');
    [lia|apply regrouped_start|exact Hrange|].
  rewrite Hloop. fold (be tobits out) in Hinv.
  destruct Hinv as (Hs & Hacc & Hbe' & Hrange'). cbn [length] in Hlen'.
  assert (Hsame : Z.of_nat (length ret) = Z.of_nat (length data)) by nia.
  assert (Hbits' : bits = padbits) by nia. subst bits.
  assert (Hp : 0 < 2 ^ padbits) by (apply Z.pow_pos_nonneg; lia).
  rewrite Hbe, Z.div_mul in Hbe' by lia.
  assert (Hret : ret = data).
  { apply (be_inj frombits); [lia|lia|exact Hrange'|exact Hdata|exact Hbe']. }
  replace (tobits <=? padbits) with false by (symmetry; apply Z.leb_gt; lia).
  rewrite Z.shiftl_mul_pow2, mask_land by lia.
  assert (Hzero : (acc * 2 ^ (frombits - padbits)) mod 2 ^ frombits = 0).
  { replace (2 ^ frombits) with (2 ^ padbits * 2 ^ (frombits - padbits))
      by (rewrite <- Z.pow_add_r by lia; f_equal; lia).
    assert (0 < 2 ^ (frombits - padbits)) by (apply Z.pow_pos_nonneg; lia).
    rewrite Z.mul_mod_distr_r by lia.
    rewrite (low_congr acc (be tobits out) (tobits + frombits - 1) padbits Hacc)
      by lia.
    rewrite Hbe, Z.mod_mul by lia. reflexivity. }
  rewrite Hzero. cbn. now rewrite Hret.
Qed.

(** ** The checksum of [bech32] *)

Ltac bitwise :=
  apply Z.bits_inj'; intros ?i ?Hi;
  repeat (rewrite Z.lxor_spec || rewrite Z.land_spec);
  repeat match goal with
         | |- context [Z.testbit ?a ?n] => destruct (Z.testbit a n)
         end;
  reflexivity.

Lemma lxor_swap4 (a b c d : Z) :
  Z.lxor (Z.lxor a b) (Z.lxor c d) = Z.lxor (Z.lxor a c) (Z.lxor b d).
Proof. bitwise. Qed.

Lemma land_lxor (a b m : Z) :
  Z.land (Z.lxor a b) m = Z.lxor (Z.land a m) (Z.land b m).
Proof. bitwise. Qed.

Lemma lxor_shiftl (a v n : Z) :
  0 <= n -> in_range n v -> Z.lxor (Z.shiftl a n) v = a * 2 ^ n + v.
Proof.
  intros Hn Hv. rewrite <- (lor_shiftl a v n Hn Hv). apply Z.lxor_lor.
  destruct Hv as [Hv0 Hv1].
  apply Z.bits_inj'. intros i Hi. rewrite Z.land_spec, Z.bits_0.
  destruct (Z.lt_ge_cases i n) as [Hlt|Hge].
  - rewrite Z.shiftl_spec_low by exact Hlt. reflexivity.
  - rewrite <- (Z.mod_small v (2 ^ n)) by lia.
    rewrite Z.mod_pow2_bits_high by lia. apply andb_false_r.
Qed.

Lemma lxor_in_range (w a b : Z) :
  0 <= w -> in_range w a -> in_range w b -> in_range w (Z.lxor a b).
Proof.
  intros Hw [Ha0 Ha1] [Hb0 Hb1]. split; [now apply Z.lxor_nonneg|].
  destruct (Z.eq_dec (Z.lxor a b) 0) as [->|Hne];
    [apply Z.pow_pos_nonneg; lia|].
  assert (Hpos : 0 < Z.lxor a b).
  { assert (0 <= Z.lxor a b) by now apply Z.lxor_nonneg. lia. }
  assert (Hw' : 0 < w).
  { destruct (Z.eq_dec w 0) as [->|]; [|lia]. change (2 ^ 0) with 1 in *.
    assert (a = 0) by lia. assert (b = 0) by lia. subst.
    now rewrite Z.lxor_0_l in Hne. }
  apply Z.log2_lt_pow2; [exact Hpos|].
  pose proof (Z.log2_lxor a b Ha0 Hb0) as Hlog.
  assert (Z.log2 a < w).
  { destruct (Z.eq_dec a 0) as [->|]; [cbn; lia|apply Z.log2_lt_pow2; lia]. }
  assert (Z.log2 b < w).
  { destruct (Z.eq_dec b 0) as [->|]; [cbn; lia|apply Z.log2_lt_pow2; lia]. }
  lia.
Qed.

(** The generator selected by bit [i] of [top], as [bech32_polymod] writes
    it and as a bit test. *)
Definition pick (top : Z) (ig : Z * Z) : Z :=
  if Z.land (Z.shiftr top ig.1) 1 =? 0 then 0 else ig.2.

Lemma pick_testbit (top : Z) (ig : Z * Z) :
  0 <= ig.1 -> pick top ig = if Z.testbit top ig.1 then ig.2 else 0.
Proof.
  intros Hi. unfold pick. change 1 with (Z.ones 1).
  rewrite Z.land_ones, Z.shiftr_div_pow2 by lia.
  change (2 ^ 1) with 2. rewrite <- Z.testbit_spec' by exact Hi.
  now destruct (Z.testbit top ig.1).
Qed.

Lemma pick_lxor (s t : Z) (ig : Z * Z) :
  0 <= ig.1 -> pick (Z.lxor s t) ig = Z.lxor (pick s ig) (pick t ig).
Proof.
  intros Hi. rewrite !pick_testbit by exact Hi. rewrite Z.lxor_spec.
  destruct (Z.testbit s ig.1), (Z.testbit t ig.1); cbn [xorb];
    now rewrite ?Z.lxor_0_l, ?Z.lxor_0_r, ?Z.lxor_nilpotent.
Qed.

Definition generators : list (Z * Z) := combine [0; 1; 2; 3; 4] bech32.generator.

Definition mix (top : Z) (l : list (Z * Z)) (chk : Z) : Z :=
  fold_left (fun chk ig => Z.lxor chk (pick top ig)) l chk.

Lemma polymod_step_mix (chk value : Z) :
  bech32.polymod_step chk value
  = mix (Z.shiftr chk 25) generators
      (Z.lxor (Z.shiftl (Z.land chk 0x1ffffff) 5) value).
Proof. reflexivity. Qed.

Lemma mix_lxor (l : list (Z * Z)) :
  Forall (fun ig => 0 <= ig.1) l ->
  forall s t a b,
    mix (Z.lxor s t) l (Z.lxor a b) = Z.lxor (mix s l a) (mix t l b).
Proof.
  induction 1 as [|ig l Hig _ IH]; intros s t a b; [reflexivity|].
  unfold mix in *. cbn [fold_left].
  rewrite pick_lxor by exact Hig. rewrite lxor_swap4. apply IH.
Qed.

Lemma generators_indices : Forall (fun ig => 0 <= ig.1) generators.
Proof. repeat constructor; cbn; lia. Qed.

(** One round of the checksum is linear for exclusive or. *)
Lemma polymod_step_lxor (c d v w : Z) :
  bech32.polymod_step (Z.lxor c d) (Z.lxor v w)
  = Z.lxor (bech32.polymod_step c v) (bech32.polymod_step d w).
Proof.
  rewrite !polymod_step_mix.
  rewrite Z.shiftr_lxor, land_lxor, Z.shiftl_lxor, lxor_swap4.
  apply mix_lxor, generators_indices.
Qed.

Lemma polymod_fold_lxor (vs : list Z) :
  forall ws c d, length vs = length ws ->
    fold_left bech32.polymod_step (zip_with Z.lxor vs ws) (Z.lxor c d)
    = Z.lxor (fold_left bech32.polymod_step vs c)
        (fold_left bech32.polymod_step ws d).
Proof.
  induction vs as [|v vs IH]; intros [|w ws] c d Hlen; try discriminate Hlen;
    [reflexivity|].
  cbn [zip_with fold_left]. rewrite polymod_step_lxor. apply IH.
  now injection Hlen.
Qed.

Lemma mix_in_range (top : Z) (l : list (Z * Z)) (chk : Z) :
  Forall (fun ig => in_range 30 ig.2) l -> in_range 30 chk ->
  in_range 30 (mix top l chk).
Proof.
  intros Hl. revert chk. induction Hl as [|ig l Hig _ IH]; intros chk Hchk;
    [exact Hchk|].
  unfold mix in *. cbn [fold_left]. apply IH.
  apply lxor_in_range; [lia|exact Hchk|].
  unfold pick. destruct (_ =? 0); [split; cbn; lia|exact Hig].
Qed.

Lemma generators_in_range : Forall (fun ig => in_range 30 ig.2) generators.
Proof. repeat constructor; cbn; lia. Qed.

Lemma polymod_step_in_range (chk value : Z) :
  in_range 30 value -> in_range 30 (bech32.polymod_step chk value).
Proof.
  intros Hv. rewrite polymod_step_mix.
  apply mix_in_range; [apply generators_in_range|].
  apply lxor_in_range; [lia| |exact Hv].
  change 0x1ffffff with (Z.shiftl 1 25 - 1).
  rewrite mask_land, Z.shiftl_mul_pow2 by lia.
  pose proof (Z.mod_pos_bound chk (2 ^ 25) ltac:(lia)).
  change (2 ^ 25) with 33554432 in *. change (2 ^ 5) with 32.
  change (2 ^ 30) with 1073741824. split; lia.
Qed.

Lemma polymod_fold_in_range (values : list Z) (chk : Z) :
  Forall (in_range 30) values -> in_range 30 chk ->
  in_range 30 (fold_left bech32.polymod_step values chk).
Proof.
  intros Hv. revert chk. induction Hv as [|v l Hv _ IH]; intros chk Hchk;
    [exact Hchk|].
  cbn [fold_left]. apply IH. now apply polymod_step_in_range.
Qed.

(** While the state fits in 25 bits a round only shifts the value in. *)
Lemma polymod_step_low (chk value : Z) :
  0 <= chk < 2 ^ 25 -> in_range 5 value ->
  bech32.polymod_step chk value = 32 * chk + value.
Proof.
  intros Hc Hv. rewrite polymod_step_mix.
  rewrite Z.shiftr_div_pow2, Z.div_small by lia.
  change 0x1ffffff with (Z.shiftl 1 25 - 1).
  rewrite mask_land, Z.mod_small by lia.
  rewrite lxor_shiftl by (try exact Hv; lia).
  cbn -[Z.mul Z.add Z.pow]. rewrite !Z.lxor_0_r. change (2 ^ 5) with 32. lia.
Qed.

(** The six 5-bit groups of a 30-bit number, most significant first. *)
Definition groups30 (p : Z) : list Z :=
  map (fun i => Z.land (Z.shiftr p (5 * (5 - i))) 31) [0; 1; 2; 3; 4; 5].

Lemma groups30_in_range (p : Z) : Forall (in_range 5) (groups30 p).
Proof.
  unfold groups30. apply Forall_forall. intros x Hx.
  apply list_elem_of_fmap in Hx as (i & -> & _).
  change 31 with (Z.ones 5). rewrite Z.land_ones by lia.
  apply Z.mod_pos_bound. lia.
Qed.

Lemma polymod_groups30 (p : Z) :
  in_range 30 p -> fold_left bech32.polymod_step (groups30 p) 0 = p.
Proof.
  intros [Hp0 Hp1]. change (2 ^ 30) with 1073741824 in Hp1.
  unfold groups30. cbn [map fold_left].
  change 31 with (Z.ones 5). rewrite !Z.land_ones, !Z.shiftr_div_pow2 by lia.
  change (5 * (5 - 0)) with 25. change (5 * (5 - 1)) with 20.
  change (5 * (5 - 2)) with 15. change (5 * (5 - 3)) with 10.
  change (5 * (5 - 4)) with 5. change (5 * (5 - 5)) with 0.
  change (2 ^ 25) with 33554432. change (2 ^ 20) with 1048576.
  change (2 ^ 15) with 32768. change (2 ^ 10) with 1024.
  change (2 ^ 5) with 32. change (2 ^ 0) with 1.
  assert (R : forall x, in_range 5 (x mod 32)).
  { intros x. apply Z.mod_pos_bound. lia. }
  rewrite (polymod_step_low 0) by (try apply R; cbn; lia).
  do 5 match goal with
       | |- context [bech32.polymod_step (32 * ?c + ?v) ?w] =>
           rewrite (polymod_step_low (32 * c + v) w)
             by (try apply R; change (2 ^ 25) with 33554432;
                 Z.div_mod_to_equations; lia)
       end.
  Z.div_mod_to_equations. lia.
Qed.

Lemma ord_range (c : ascii) : 0 <= ord c < 256.
Proof. unfold ord. pose proof (N_ascii_bounded c). lia. Qed.

Lemma hrp_expand_in_range (hrp : string) :
  Forall (in_range 30) (bech32.bech32_hrp_expand hrp).
Proof.
  unfold bech32.bech32_hrp_expand.
  apply Forall_app. split; [|apply Forall_app; split].
  - apply Forall_forall. intros v Hv. apply list_elem_of_fmap in Hv as (c & -> & _).
    pose proof (ord_range c). rewrite Z.shiftr_div_pow2 by lia.
    change (2 ^ 5) with 32. unfold in_range. change (2 ^ 30) with 1073741824.
    split; [apply Z.div_pos; lia|].
    assert (ord c / 32 < 8) by (apply Z.div_lt_upper_bound; lia). lia.
  - repeat constructor; cbn; lia.
  - apply Forall_forall. intros v Hv. apply list_elem_of_fmap in Hv as (c & -> & _).
    change 31 with (Z.ones 5). rewrite Z.land_ones by lia.
    pose proof (Z.mod_pos_bound (ord c) (2 ^ 5) ltac:(lia)).
    unfold in_range. change (2 ^ 5) with 32 in *.
    change (2 ^ 30) with 1073741824. lia.
Qed.

Lemma in_range_5_30 (v : Z) : in_range 5 v -> in_range 30 v.
Proof.
  unfold in_range. change (2 ^ 5) with 32. change (2 ^ 30) with 1073741824. lia.
Qed.

(** The data followed by the checksum computed for it passes the check. *)
Lemma checksum_verifies (hrp : string) (data : list Z) :
  Forall (in_range 5) data ->
  bech32.bech32_verify_checksum hrp
    (data ++ bech32.bech32_create_checksum hrp data) = true.
Proof.
  intros Hdata. unfold bech32.bech32_verify_checksum, bech32.bech32_create_checksum.
  set (values := bech32.bech32_hrp_expand hrp ++ data).
  unfold bech32.bech32_polymod. rewrite app_assoc. fold values.
  rewrite !fold_left_app.
  set (c := fold_left bech32.polymod_step values 1).
  set (r := fold_left bech32.polymod_step [0; 0; 0; 0; 0; 0] c).
  fold (groups30 (Z.lxor r 1)).
  assert (Hr : in_range 30 r).
  { apply polymod_fold_in_range; [repeat constructor; cbn; lia|].
    apply polymod_fold_in_range; [|split; cbn; lia].
    apply Forall_app. split; [apply hrp_expand_in_range|].
    eapply Forall_impl; [exact Hdata|]. apply in_range_5_30. }
  assert (Hp : in_range 30 (Z.lxor r 1)).
  { apply lxor_in_range; [lia|exact Hr|split; cbn; lia]. }
  assert (Hzip : groups30 (Z.lxor r 1)
                 = zip_with Z.lxor [0; 0; 0; 0; 0; 0] (groups30 (Z.lxor r 1))).
  { unfold groups30. cbn [map zip_with]. now rewrite !Z.lxor_0_l. }
  rewrite Hzip, <- (Z.lxor_0_r c).
  rewrite polymod_fold_lxor by reflexivity.
  fold r. rewrite polymod_groups30 by exact Hp.
  rewrite <- Z.lxor_assoc, Z.lxor_nilpotent. reflexivity.
Qed.

(** ** Encoding and decoding [npub] keys *)

Definition charset_char (d : Z) : ascii :=
  nth (Z.to_nat d) (chars bech32.CHARSET) "000"%char.

(** What [bech32_decode] needs of a character of the data part: it is
    printable, it is its own lowercase form, it is not the separator, and
    it belongs to the alphabet. *)
Definition data_char (c : ascii) : Prop :=
  ((ord c <? 33) || (126 <? ord c) = false)
  /\ bech32.lower_char c = c
  /\ Ascii.eqb c "1" = false
  /\ 0 <= bech32.find c (chars bech32.CHARSET).

Lemma charset_char_facts (d : Z) :
  in_range 5 d ->
  data_char (charset_char d)
  /\ bech32.find (charset_char d) (chars bech32.CHARSET) = d.
Proof.
  intros [Hd0 Hd1]. change (2 ^ 5) with 32 in Hd1.
  assert (H : exists k, (k < 32)%nat /\ d = Z.of_nat k).
  { exists (Z.to_nat d). lia. }
  destruct H as (k & Hk & ->). clear Hd0 Hd1.
  do 32 (destruct k as [|k];
         [vm_compute; repeat split; intros Hc; discriminate Hc|]).
  lia.
Qed.

Lemma charset_all_in_range (ds : list Z) :
  Forall (in_range 5) ds ->
  bech32.charset_all ds = Return (map charset_char ds).
Proof.
  induction 1 as [|d ds Hd _ IH]; [reflexivity|].
  cbn [bech32.charset_all map]. rewrite IH.
  unfold bech32.charset_at. destruct Hd as [Hd0 Hd1]. change (2 ^ 5) with 32 in Hd1.
  replace (d <? 0) with false by (symmetry; apply Z.ltb_ge; lia).
  change (Z.of_nat (length (chars bech32.CHARSET))) with 32.
  replace (0 <=? d) with true by (symmetry; apply Z.leb_le; lia).
  replace (d <? 32) with true by (symmetry; apply Z.ltb_lt; lia).
  reflexivity.
Qed.

Lemma rfind_absent (c : ascii) (l : list ascii) :
  Forall (fun x => Ascii.eqb x c = false) l -> bech32.rfind c l = -1.
Proof.
  induction 1 as [|x l Hx _ IH]; [reflexivity|].
  cbn [bech32.rfind]. rewrite IH, Hx. reflexivity.
Qed.

Lemma npub_text_chars (cs : list ascii) :
  chars ("npub" +:+ "1" +:+ str_of_chars cs) = chars "npub1" ++ cs.
Proof.
  change ("npub" +:+ "1" +:+ str_of_chars cs)
    with (String "n" (String "p" (String "u" (String "b" (String "1"
            (str_of_chars cs)))))).
  cbn [chars list_ascii_of_string app].
  fold (chars (str_of_chars cs)). now rewrite chars_str_of_chars.
Qed.

(** [bech32_decode] on the prefix [npub], the separator and a data part
    made of characters of the alphabet: what is left to decide is the
    checksum. *)
Lemma bech32_decode_npub_text (cs : list ascii) :
  Forall data_char cs -> (6 <= length cs)%nat ->
  bech32.bech32_decode ("npub" +:+ "1" +:+ str_of_chars cs)
  = let data := map (fun x => bech32.find x (chars bech32.CHARSET)) cs in
    if negb (bech32.bech32_verify_checksum "npub" data) then None
    else Some ("npub", take (length data - 6) data).
Proof.
  intros Hfacts Hlen. unfold bech32.bech32_decode.
  rewrite npub_text_chars.
  assert (Hprint : existsb (fun x => (ord x <? 33) || (126 <? ord x))
                     (chars "npub1" ++ cs) = false).
  { rewrite existsb_app.
    replace (existsb _ (chars "npub1")) with false by (vm_compute; reflexivity).
    cbn [orb]. apply not_true_is_false. intros Hex.
    apply existsb_exists in Hex as (c & Hc & Hbad).
    rewrite Forall_forall in Hfacts. apply list_elem_of_In in Hc.
    destruct (Hfacts c Hc) as (H1 & _). congruence. }
  assert (Hlower : map bech32.lower_char (chars "npub1" ++ cs)
                   = chars "npub1" ++ cs).
  { rewrite map_app. f_equal.
    clear -Hfacts. induction Hfacts as [|c l (_ & H2 & _) _ IH]; [reflexivity|].
    cbn [map]. now rewrite H2, IH. }
  rewrite Hprint, Hlower. unfold bech32.list_ascii_eqb at 1.
  rewrite String.eqb_refl. cbn [orb negb andb].
  assert (Hrfind : bech32.rfind "1" (chars "npub1" ++ cs) = 4).
  { change (chars "npub1" ++ cs)
      with ("n"%char :: "p"%char :: "u"%char :: "b"%char :: "1"%char :: cs).
    cbn [bech32.rfind].
    rewrite rfind_absent; [reflexivity|].
    eapply Forall_impl; [exact Hfacts|]. intros c (_ & _ & H3 & _). exact H3. }
  rewrite Hrfind.
  assert (Hlength : Z.of_nat (length (chars "npub1" ++ cs))
                    = Z.of_nat (length cs) + 5).
  { rewrite length_app. change (length (chars "npub1")) with 5%nat. lia. }
  rewrite Hlength.
  replace (4 <? 1) with false by reflexivity.
  replace (Z.of_nat (length cs) + 5 <? 4 + 7) with false
    by (symmetry; apply Z.ltb_ge; lia).
  cbn [orb].
  change (drop (Z.to_nat (4 + 1)) (chars "npub1" ++ cs)) with cs.
  change (take (Z.to_nat 4) (chars "npub1" ++ cs)) with (chars "npub").
  assert (Hall : forallb (fun x => 0 <=? bech32.find x (chars bech32.CHARSET)) cs
                 = true).
  { apply forallb_forall. intros c Hc. apply list_elem_of_In in Hc.
    rewrite Forall_forall in Hfacts. destruct (Hfacts c Hc) as (_ & _ & _ & H4).
    now apply Z.leb_le. }
  rewrite Hall. cbn [negb].
  change (str_of_chars (chars "npub")) with "npub". reflexivity.
Qed.

Lemma checksum_in_range (hrp : string) (data : list Z) :
  Forall (in_range 5) (bech32.bech32_create_checksum hrp data).
Proof. unfold bech32.bech32_create_checksum. apply groups30_in_range. Qed.

Lemma checksum_length (hrp : string) (data : list Z) :
  length (bech32.bech32_create_checksum hrp data) = 6%nat.
Proof. reflexivity. Qed.

(** Decoding what [bech32_encode] wrote for the prefix [npub] gives the
    prefix and the data back. *)
Lemma bech32_round_trip (data : list Z) :
  Forall (in_range 5) data ->
  exists s, bech32.bech32_encode "npub" data = Return s
            /\ bech32.bech32_decode s = Some ("npub", data).
Proof.
  intros Hdata.
  pose proof (checksum_verifies "npub" data Hdata) as Hverify.
  pose proof (checksum_in_range "npub" data) as Hck.
  pose proof (checksum_length "npub" data) as Hcklen.
  unfold bech32.bech32_encode.
  remember (bech32.bech32_create_checksum "npub" data) as checksum eqn:Heq.
  clear Heq.
  assert (Hds : Forall (in_range 5) (data ++ checksum)).
  { apply Forall_app. now split. }
  rewrite charset_all_in_range by exact Hds.
  eexists. split; [reflexivity|].
  rewrite bech32_decode_npub_text.
  - assert (Hfind : map (fun x => bech32.find x (chars bech32.CHARSET))
                      (map charset_char (data ++ checksum)) = data ++ checksum).
    { rewrite map_map. rewrite <- (map_id (data ++ checksum)) at 2.
      apply map_ext_in. intros d Hd. rewrite Forall_forall in Hds.
      apply list_elem_of_In in Hd.
      now destruct (charset_char_facts d (Hds d Hd)) as [_ H]. }
    cbv zeta. rewrite Hfind, Hverify. cbn [negb].
    rewrite length_app, Hcklen.
    replace (length data + 6 - 6)%nat with (length data) by lia.
    now rewrite take_app_length.
  - apply Forall_fmap. eapply Forall_impl; [exact Hds|].
    intros d Hd. now destruct (charset_char_facts d Hd) as [H _].
  - rewrite length_map, length_app, Hcklen. lia.
Qed.

(** C10, as the code has it.  For every string of 64 hexadecimal digits,
    of either case, [convert_hex_to_npub] returns an [npub] text and
    [decode_npub] returns from it the same digits in lowercase: the key
    itself when it is written in lowercase. *)
Theorem decode_npub_convert_hex_to_npub (h : string) :
  length (chars h) = 64%nat -> Forall is_hex_digit (chars h) ->
  exists npub,
    convert_hex_to_npub h = Return npub
    /\ decode_npub npub = Return (lower h)
    /\ (Forall is_lower_hex_digit (chars h) -> decode_npub npub = Return h).
Proof.
  intros Hlen Hhex.
  destruct (unhexlify_hex h 32 Hlen Hhex) as (bs & Hbs & Hn & Hbytes & Hlow).
  assert (Hbytes8 : Forall (in_range 8) bs).
  { eapply Forall_impl; [exact Hbytes|]. intros b Hb. exact Hb. }
  destruct (convertbits_round_trip 8 5 bs ltac:(lia) Hbytes8)
    as (five & Hfive & Hrange & Hsize & Hback).
  rewrite Hn in Hsize.
  destruct (bech32_round_trip five Hrange) as (npub & Henc & Hdec).
  exists npub.
  assert (Hdecode : decode_npub npub = Return (lower h)).
  { unfold decode_npub. rewrite Hdec. cbn [String.eqb Ascii.eqb Bool.eqb negb].
    rewrite Hback, Hlow. reflexivity. }
  split; [|split; [exact Hdecode|]].
  - unfold convert_hex_to_npub. rewrite Hbs. cbn [mbind outcome_bind].
    rewrite Hfive, Henc. reflexivity.
  - intros Hlc. rewrite Hdecode. f_equal. now apply lower_lower_hex.
Qed.

Lemma decode_npub_convert_hex_to_npub_witness :
  convert_hex_to_npub
    "b7fcf3f30c1d9c6f8996331f1ef3351d3bc619c751c944a11af50b93180f8ab3"
  = Return "npub1kl708ucvrkwxlzvkxv03aue4r5auvxw828y5fgg6759exxq032esqmt7ul"
  /\ exists npub,
       convert_hex_to_npub
         "b7fcf3f30c1d9c6f8996331f1ef3351d3bc619c751c944a11af50b93180f8ab3"
       = Return npub
       /\ decode_npub npub
          = Return "b7fcf3f30c1d9c6f8996331f1ef3351d3bc619c751c944a11af50b93180f8ab3".
Proof.
  split; [vm_compute; reflexivity|].
  assert (Hhex : Forall is_lower_hex_digit
                   (chars "b7fcf3f30c1d9c6f8996331f1ef3351d3bc619c751c944a11af50b93180f8ab3")).
  { apply Forall_forall. intros c Hc.
    apply list_elem_of_In in Hc. cbn in Hc.
    repeat (destruct Hc as [<-|Hc]; [split; [discriminate|reflexivity]|]).
    contradiction. }
  destruct (decode_npub_convert_hex_to_npub
              "b7fcf3f30c1d9c6f8996331f1ef3351d3bc619c751c944a11af50b93180f8ab3"
              eq_refl) as (npub & Hconv & _ & Hsame).
  - eapply Forall_impl; [exact Hhex|]. intros c [Hc _]. exact Hc.
  - exists npub. split; [exact Hconv|]. now apply Hsame.
Defined.

(** C10 as the specification words it fails: a key written with capital
    digits comes back in lowercase, not as it was given. *)
Lemma decode_npub_lowercases :
  let h := "B7FCF3F30C1D9C6F8996331F1EF3351D3BC619C751C944A11AF50B93180F8AB3" in
  length (chars h) = 64%nat
  /\ forallb (fun c => match hex_value c with Some _ => true | None => false end)
       (chars h) = true
  /\ exists npub,
       convert_hex_to_npub h = Return npub
       /\ decode_npub npub
          = Return "b7fcf3f30c1d9c6f8996331f1ef3351d3bc619c751c944a11af50b93180f8ab3"
       /\ decode_npub npub <> Return h.
Proof.
  cbv zeta. split; [reflexivity|]. split; [vm_compute; reflexivity|].
  exists "npub1kl708ucvrkwxlzvkxv03aue4r5auvxw828y5fgg6759exxq032esqmt7ul".
  split; [vm_compute; reflexivity|].
  assert (Hd : decode_npub
                 "npub1kl708ucvrkwxlzvkxv03aue4r5auvxw828y5fgg6759exxq032esqmt7ul"
               = Return "b7fcf3f30c1d9c6f8996331f1ef3351d3bc619c751c944a11af50b93180f8ab3")
    by (vm_compute; reflexivity).
  split; [exact Hd|]. rewrite Hd. discriminate.
Qed.

(** * More of the code *)

(** ** The rest of [sqlite_local_database.py] *)

Module sqlite_ops.
Import sqlite.

(** [DELETE FROM t WHERE key = ?]: the rows whose key equals the argument
    go; a [NULL] argument equals no key. *)
Definition delete_from {R : Type} (key_of : R -> TEXT) (k : TEXT)
  (rows : list R) : list R :=
  List.filter (fun r => negb (sql_eq (key_of r) k)) rows.

Definition delete_profile (pubkey : TEXT) : statement := fun db =>
  (Return tt,
   {| profiles := delete_from profile_pubkey pubkey (profiles db);
      notes := notes db; comments := comments db; reactions := reactions db;
      followers := followers db; direct_messages := direct_messages db;
      rooms := rooms db |}).

Definition delete_note (id : TEXT) : statement := fun db =>
  (Return tt,
   {| profiles := profiles db; notes := delete_from note_id id (notes db);
      comments := comments db; reactions := reactions db;
      followers := followers db; direct_messages := direct_messages db;
      rooms := rooms db |}).

Definition delete_comment (id : TEXT) : statement := fun db =>
  (Return tt,
   {| profiles := profiles db; notes := notes db;
      comments := delete_from comment_id id (comments db);
      reactions := reactions db; followers := followers db;
      direct_messages := direct_messages db; rooms := rooms db |}).

Definition delete_reaction (id : TEXT) : statement := fun db =>
  (Return tt,
   {| profiles := profiles db; notes := notes db; comments := comments db;
      reactions := delete_from rx_id id (reactions db);
      followers := followers db; direct_messages := direct_messages db;
      rooms := rooms db |}).

Definition delete_follower (id : TEXT) : statement := fun db =>
  (Return tt,
   {| profiles := profiles db; notes := notes db; comments := comments db;
      reactions := reactions db;
      followers := delete_from fol_id id (followers db);
      direct_messages := direct_messages db; rooms := rooms db |}).

Definition delete_direct_message (id : TEXT) : statement := fun db =>
  (Return tt,
   {| profiles := profiles db; notes := notes db; comments := comments db;
      reactions := reactions db; followers := followers db;
      direct_messages := delete_from dm_id id (direct_messages db);
      rooms := rooms db |}).

Definition delete_room (id : TEXT) : statement := fun db =>
  (Return tt,
   {| profiles := profiles db; notes := notes db; comments := comments db;
      reactions := reactions db; followers := followers db;
      direct_messages := direct_messages db;
      rooms := delete_from room_id id (rooms db) |}).

(** [UPDATE rooms SET owner_pubkey = ?, direct_message_ids = ?,
    timestamp = ? WHERE id = ?] *)
Definition update_room (id owner_pubkey direct_message_ids : TEXT)
  (timestamp : INTEGER) : statement := fun db =>
  if negb (bindable timestamp) then (Raise too_large, db) else
  let set (r : room_row) : room_row :=
    if sql_eq (room_id r) id
    then {| room_id := room_id r; room_owner_pubkey := owner_pubkey;
            room_direct_message_ids := direct_message_ids;
            room_timestamp := timestamp |}
    else r in
  (Return tt,
   {| profiles := profiles db; notes := notes db; comments := comments db;
      reactions := reactions db; followers := followers db;
      direct_messages := direct_messages db; rooms := map set (rooms db) |}).

(** The delete function of each entity kind, by the key of the entity. *)
Definition delete (e : entity) : statement :=
  match e with
  | Profile r => delete_profile (profile_pubkey r)
  | Note r => delete_note (note_id r)
  | Comment r => delete_comment (comment_id r)
  | Reaction r => delete_reaction (rx_id r)
  | Follower r => delete_follower (fol_id r)
  | DirectMessage r => delete_direct_message (dm_id r)
  | Room r => delete_room (room_id r)
  end.

(** [cursor.execute("SELECT * FROM t WHERE key = ?", (k,))] followed by
    [cursor.fetchone()]: the first row whose key equals the argument, or
    [None]. *)
Definition select_one {R : Type} (key_of : R -> TEXT) (k : TEXT)
  (rows : list R) : option R :=
  List.find (fun r => sql_eq (key_of r) k) rows.

(** The keys stored in each table. *)
Definition table_keys (db : store) : list (list TEXT) :=
  [map profile_pubkey (profiles db); map note_id (notes db);
   map comment_id (comments db); map rx_id (reactions db);
   map fol_id (followers db); map dm_id (direct_messages db);
   map room_id (rooms db)].

(** No two rows of a table carry the same key, [NULL] apart: what the
    [PRIMARY KEY] constraints promise. *)
Fixpoint distinct_keys (keys : list TEXT) : Prop :=
  match keys with
  | [] => True
  | k :: rest => (forall k', In k' rest -> sql_eq k k' = false)
                 /\ distinct_keys rest
  end.

Definition well_keyed (db : store) : Prop :=
  Forall distinct_keys (table_keys db).

End sqlite_ops.

Module sqlite_ops_facts.
Import sqlite sqlite_ops.

Lemma sql_eq_sym (a b : TEXT) : sql_eq a b = sql_eq b a.
Proof. destruct a, b; cbn; try reflexivity. apply String.eqb_sym. Qed.

Lemma sql_eq_null_r (a : TEXT) : sql_eq a None = false.
Proof. now destruct a. Qed.

(** *** Rows and keys *)

Lemma select_one_none {R : Type} (key_of : R -> TEXT) (k : TEXT) (rows : list R) :
  select_one key_of k rows = None <->
  forall r, In r rows -> sql_eq (key_of r) k = false.
Proof.
  unfold select_one. split.
  - intros H r Hr. now apply (find_none _ _ H).
  - intros H. induction rows as [|r rows IH]; [reflexivity|].
    cbn. rewrite (H r) by now left. apply IH. intros r' Hr'. apply H. now right.
Qed.

Lemma delete_from_fresh {R : Type} (key_of : R -> TEXT) (k : TEXT) (rows : list R) :
  select_one key_of k rows = None -> delete_from key_of k rows = rows.
Proof.
  rewrite select_one_none. intros H. unfold delete_from.
  induction rows as [|r rows IH]; [reflexivity|].
  cbn. rewrite (H r) by now left. cbn. f_equal. apply IH.
  intros r' Hr'. apply H. now right.
Qed.

Lemma select_one_delete_from {R : Type} (key_of : R -> TEXT) (k : TEXT)
  (rows : list R) :
  select_one key_of k (delete_from key_of k rows) = None.
Proof.
  apply select_one_none. intros r Hr. unfold delete_from in Hr.
  apply filter_In in Hr as [_ Hr]. now apply negb_true_iff in Hr.
Qed.

Lemma select_one_app_fresh {R : Type} (key_of : R -> TEXT) (k : string)
  (rows : list R) (row : R) :
  select_one key_of (Some k) rows = None -> key_of row = Some k ->
  select_one key_of (Some k) (rows ++ [row]) = Some row.
Proof.
  intros Hnone Hrow. unfold select_one in *.
  induction rows as [|r rows IH]; cbn in *.
  - rewrite Hrow. cbn. now rewrite String.eqb_refl.
  - destruct (sql_eq (key_of r) (Some k)); [discriminate|]. now apply IH.
Qed.

Lemma delete_from_app_fresh {R : Type} (key_of : R -> TEXT) (k : string)
  (rows : list R) (row : R) :
  select_one key_of (Some k) rows = None -> key_of row = Some k ->
  delete_from key_of (Some k) (rows ++ [row]) = rows.
Proof.
  intros Hnone Hrow. unfold delete_from. rewrite List.filter_app.
  fold (delete_from key_of (Some k) rows).
  rewrite (delete_from_fresh _ _ _ Hnone). cbn. rewrite Hrow. cbn.
  rewrite String.eqb_refl. cbn. apply app_nil_r.
Qed.

Lemma insert_into_cases {R : Type} (clash : R -> R -> bool) (table : string)
  (row : R) (rows : list R) :
  (insert_into clash table row rows = Return (rows ++ [row])
   /\ forall r, In r rows -> clash row r = false)
  \/ (insert_into clash table row rows
      = Raise (IntegrityError ("UNIQUE constraint failed: " +:+ table))
      /\ exists r, In r rows /\ clash row r = true).
Proof.
  unfold insert_into. destruct (existsb (clash row) rows) eqn:Hex.
  - right. split; [reflexivity|]. now apply existsb_exists in Hex.
  - left. split; [reflexivity|]. intros r Hr.
    apply not_true_is_false. intros Hc.
    assert (existsb (clash row) rows = true) by (apply existsb_exists; eauto).
    congruence.
Qed.

(** The row of an entity as [SELECT ... WHERE key = ?] finds it. *)
Definition select (e : entity) (db : store) : option entity :=
  match e with
  | Profile r => Profile <$> select_one profile_pubkey (profile_pubkey r) (profiles db)
  | Note r => Note <$> select_one note_id (note_id r) (notes db)
  | Comment r => Comment <$> select_one comment_id (comment_id r) (comments db)
  | Reaction r => Reaction <$> select_one rx_id (rx_id r) (reactions db)
  | Follower r => Follower <$> select_one fol_id (fol_id r) (followers db)
  | DirectMessage r =>
      DirectMessage <$> select_one dm_id (dm_id r) (direct_messages db)
  | Room r => Room <$> select_one room_id (room_id r) (rooms db)
  end.

Ltac save_cases :=
  match goal with
  | |- context [insert_into ?c ?t ?row ?rows] =>
      let H := fresh "Hins" in
      let Hc := fresh "Hclash" in
      destruct (insert_into_cases c t row rows) as [[H Hc] | [H Hc]];
      rewrite H; cbn [fst snd profiles notes comments reactions followers
                        direct_messages rooms]
  end.

(** X1. Insert and look up.  When [save] returns for an entity whose key
    is not [NULL], the row read back by that key is the entity saved. *)
Theorem save_then_select (e : entity) (db : store) (k : string) :
  key e = Some k -> (save e db).1 = Return tt ->
  select e (save e db).2 = Some e.
Proof.
  intros Hk.
  destruct e as [r|r|r|r|r|r|r]; cbn in Hk;
    cbn -[insert_into select_one bindable];
    unfold save_profile, save_note, save_comment, save_reaction,
      save_follower, save_direct_message, save_room;
    match goal with
    | |- context [negb ?b] => destruct b; cbn [negb]
    end; try (intros Hret; discriminate Hret);
    save_cases; intros Hret; try discriminate Hret;
    rewrite Hk;
    (erewrite select_one_app_fresh;
     [ destruct r; cbn in *; now subst
     | apply select_one_none; intros r' Hr';
       specialize (Hclash r' Hr'); cbn in Hclash; rewrite Hk in Hclash;
       rewrite sql_eq_sym;
       first [ exact Hclash | now apply orb_false_iff in Hclash as [Hclash _] ]
     | reflexivity ]).
Qed.

Lemma save_then_select_witness :
  select (Note sqlite_facts.sample_note)
    (save (Note sqlite_facts.sample_note) empty_store).2
  = Some (Note sqlite_facts.sample_note).
Proof.
  apply (save_then_select (Note sqlite_facts.sample_note) empty_store
           "32cf229e5e46e47a1d3b4eb90b7058c6bef8f8ae6ac32c1ccdb741a815d37c40");
    reflexivity.
Defined.


(** X3. Save and delete.  For an entity whose key is not [NULL] and is not
    in the store, deleting after saving gives the store back as it was,
    whether the save returned or raised. *)
Theorem save_then_delete (e : entity) (db : store) (k : string) :
  key e = Some k -> select e db = None ->
  (delete e (save e db).2).2 = db.
Proof.
  intros Hk Hfresh.
  assert (Hnone : forall {R} (key_of : R -> TEXT) kk rows (f : R -> entity),
             f <$> select_one key_of kk rows = None ->
             select_one key_of kk rows = None).
  { intros R key_of kk rows f H. now destruct (select_one key_of kk rows). }
  destruct e as [r|r|r|r|r|r|r]; cbn in Hk; cbn -[select_one] in Hfresh;
    apply Hnone in Hfresh; rewrite Hk in Hfresh;
    cbn -[insert_into delete_from bindable];
    unfold save_profile, save_note, save_comment, save_reaction,
      save_follower, save_direct_message, save_room;
    match goal with
    | |- context [negb ?b] => destruct b; cbn [negb]
    end;
    try save_cases; rewrite Hk; destruct db;
    cbn [fst snd profiles notes comments reactions followers
           direct_messages rooms] in *;
    f_equal;
    first [ now apply delete_from_app_fresh | now apply delete_from_fresh ].
Qed.

Lemma save_then_delete_witness :
  (delete (Note sqlite_facts.sample_note)
     (save (Note sqlite_facts.sample_note) sqlite_facts.sample_profile_store).2).2
  = sqlite_facts.sample_profile_store.
Proof.
  apply (save_then_delete (Note sqlite_facts.sample_note)
           sqlite_facts.sample_profile_store
           "32cf229e5e46e47a1d3b4eb90b7058c6bef8f8ae6ac32c1ccdb741a815d37c40");
    reflexivity.
Defined.



End sqlite_ops_facts.

Module sqlite_invariant.
Import sqlite sqlite_ops sqlite_ops_facts.

Lemma distinct_keys_snoc (keys : list TEXT) (k : TEXT) :
  distinct_keys keys -> (forall k', In k' keys -> sql_eq k k' = false) ->
  distinct_keys (keys ++ [k]).
Proof.
  induction keys as [|a keys IH]; intros Hd Hk; cbn.
  - split; [intros k' []|exact I].
  - destruct Hd as [Ha Hd]. split.
    + intros k' Hk'. apply in_app_or in Hk' as [Hk'|[<-|[]]]; [now apply Ha|].
      rewrite sql_eq_sym. apply Hk. now left.
    + apply IH; [exact Hd|]. intros k' Hk'. apply Hk. now right.
Qed.

Lemma distinct_keys_filter {R : Type} (key_of : R -> TEXT) (f : R -> bool)
  (rows : list R) :
  distinct_keys (map key_of rows) -> distinct_keys (map key_of (List.filter f rows)).
Proof.
  induction rows as [|r rows IH]; cbn; [tauto|].
  intros [Hr Hd]. destruct (f r); [|now apply IH].
  cbn. split; [|now apply IH].
  intros k' Hk'. apply Hr. apply in_map_iff in Hk' as (r' & <- & Hr').
  apply in_map. now apply filter_In in Hr' as [Hr' _].
Qed.

Lemma insert_into_keys {R : Type} (key_of : R -> TEXT) (clash : R -> R -> bool)
  (table : string) (row : R) (rows rows' : list R) :
  (forall a b, clash a b = false -> sql_eq (key_of a) (key_of b) = false) ->
  distinct_keys (map key_of rows) ->
  insert_into clash table row rows = Return rows' ->
  distinct_keys (map key_of rows').
Proof.
  intros Hclash Hd Hins.
  destruct (insert_into_cases clash table row rows) as [[H Hc]|[H _]];
    rewrite H in Hins; [|discriminate Hins].
  injection Hins as <-. rewrite map_app. apply distinct_keys_snoc; [exact Hd|].
  intros k' Hk'. apply in_map_iff in Hk' as (r & <- & Hr).
  apply Hclash, Hc, Hr.
Qed.

Ltac open_well_keyed H :=
  unfold well_keyed, table_keys in H;
  repeat (apply Forall_cons in H as [? H]).

Ltac close_well_keyed :=
  unfold well_keyed, table_keys;
  cbn [profiles notes comments reactions followers direct_messages rooms];
  repeat first [assumption | apply List.Forall_cons | apply List.Forall_nil].

(** X5. The keys stay distinct.  In a store where no two rows of a table
    share a key, every operation of the module, one that returns as well as
    one that raises, leaves a store with the same property. *)
Theorem well_keyed_preserved (db : store) :
  well_keyed db ->
  (forall e, well_keyed (save e db).2)
  /\ (forall e, well_keyed (delete e db).2)
  /\ (forall pubkey name about picture banner website lud06 lud16
        display_name timestamp,
        well_keyed (update_profile pubkey name about picture banner website
                      lud06 lud16 display_name timestamp db).2)
  /\ (forall id owner_pubkey direct_message_ids timestamp,
        well_keyed (update_room id owner_pubkey direct_message_ids
                      timestamp db).2).
Proof.
  intros Hwk. pose proof Hwk as Hwk'. open_well_keyed Hwk.
  split; [|split; [|split]].
  - intros e.
    destruct e as [r|r|r|r|r|r|r]; cbn -[insert_into bindable];
      unfold save_profile, save_note, save_comment, save_reaction,
        save_follower, save_direct_message, save_room;
      match goal with
      | |- context [negb ?b] => destruct b; cbn [negb]
      end; try exact Hwk';
      match goal with
      | |- context [insert_into ?c ?t ?row ?rows] =>
          destruct (insert_into c t row rows) as [rows'|x] eqn:Hins;
          cbn [snd]; [|exact Hwk']
      end;
      close_well_keyed;
      (eapply insert_into_keys; [|eassumption|exact Hins]);
      cbn; intros a b Hab; try exact Hab;
      now apply orb_false_iff in Hab as [Hab _].
  - intros e.
    destruct e as [r|r|r|r|r|r|r]; cbn -[delete_from];
      close_well_keyed; now apply distinct_keys_filter.
  - intros pk nm ab pic ban web l06 l16 dn ts. unfold update_profile.
    destruct (bindable ts); cbn [negb snd]; [|exact Hwk'].
    close_well_keyed.
    rewrite map_map. erewrite map_ext; [eassumption|].
    intros r. cbn. now destruct (sql_eq (profile_pubkey r) pk).
  - intros rid own dms ts. unfold update_room.
    destruct (bindable ts); cbn [negb snd]; [|exact Hwk'].
    close_well_keyed. rewrite map_map.
    erewrite map_ext; [eassumption|].
    intros r. cbn. now destruct (sql_eq (room_id r) rid).
Qed.

Lemma well_keyed_preserved_witness :
  well_keyed empty_store
  /\ well_keyed (save (Note sqlite_facts.sample_note) empty_store).2.
Proof.
  assert (H : well_keyed empty_store) by (repeat constructor).
  split; [exact H|].
  exact (proj1 (well_keyed_preserved empty_store H) (Note sqlite_facts.sample_note)).
Defined.

End sqlite_invariant.

(** ** The tests of the cache ([nostr_testing_database.py]) *)

Module db_tests.
Import sqlite sqlite_ops sqlite_ops_facts.

(** A test runs statements on the cursor and may raise between them. *)
Definition script (S A : Type) : Type := S -> outcome A * S.

#[global] Instance script_ret {S : Type} : MRet (script S) :=
  fun A a db => (Return a, db).
#[global] Instance script_bind {S : Type} : MBind (script S) :=
  fun A B k m db =>
    match m db with
    | (Return a, db') => k a db'
    | (Raise e, db') => (Raise e, db')
    end.

(** [cursor.execute("SELECT ...")] followed by [cursor.fetchone()] *)
Definition fetchone {S A : Type} (q : S -> option A) : script S (option A) :=
  fun db => (Return (q db), db).

(** [assert cond, msg]; [AssertionError] is a class of its own, none of the
    handlers of the module names it. *)
Definition assert {S : Type} (cond : bool) (msg : string) : script S unit :=
  fun db => (if cond then Return tt else Raise (OtherException msg), db).

Definition text_eqb (a b : TEXT) : bool := bool_decide (a = b).

(** [test_profiles]: the arguments are the values the test draws from
    [Faker] and the clock. *)
Definition test_profiles
  (pubkey name about picture banner website lud06 lud16 display_name : string)
  (timestamp : Z) (new_name new_about : string) (new_timestamp : Z)
  : script store unit :=
  _ ← save_profile (Some pubkey) (Some name) (Some about) (Some picture)
        (Some banner) (Some website) (Some lud06) (Some lud16)
        (Some display_name) (Some timestamp);
  profile ← fetchone (fun db =>
               select_one profile_pubkey (Some pubkey) (profiles db));
  _ ← assert (bool_decide (is_Some profile)) "Profile not found after creation";
  _ ← assert (text_eqb (profile ≫= profile_pubkey) (Some pubkey))
        "Profile pubkey doesn't match";
  _ ← assert (text_eqb (profile ≫= profile_name) (Some name))
        "Profile name doesn't match";
  _ ← update_profile (Some pubkey) (Some new_name) (Some new_about)
        (Some picture) (Some banner) (Some website) (Some lud06) (Some lud16)
        (Some display_name) (Some new_timestamp);
  updated_profile ← fetchone (fun db =>
                       select_one profile_pubkey (Some pubkey) (profiles db));
  _ ← match updated_profile with
      | None => fun db =>
          (Raise (TypeError "'NoneType' object is not subscriptable"), db)
      | Some _ => mret tt
      end;
  _ ← assert (text_eqb (updated_profile ≫= profile_name) (Some new_name))
        "Profile name wasn't updated";
  _ ← assert (text_eqb (updated_profile ≫= profile_about) (Some new_about))
        "Profile about wasn't updated";
  _ ← delete_profile (Some pubkey);
  deleted_profile ← fetchone (fun db =>
                       select_one profile_pubkey (Some pubkey) (profiles db));
  assert (negb (bool_decide (is_Some deleted_profile))) "Profile wasn't deleted".

(** [test_notes]: a profile is saved first, for the foreign key. *)
Definition test_notes
  (profile_pubkey name about picture banner website lud06 lud16
     display_name : string) (profile_timestamp : Z)
  (note_id content tags : string) (timestamp : Z) : script store unit :=
  _ ← save_profile (Some profile_pubkey) (Some name) (Some about)
        (Some picture) (Some banner) (Some website) (Some lud06) (Some lud16)
        (Some display_name) (Some profile_timestamp);
  let kind := 1 in
  _ ← save_note (Some note_id) (Some profile_pubkey) (Some content)
        (Some tags) (Some kind) (Some timestamp);
  note ← fetchone (fun db => select_one sqlite.note_id (Some note_id) (notes db));
  _ ← assert (bool_decide (is_Some note)) "Note not found after creation";
  _ ← assert (text_eqb (note ≫= sqlite.note_id) (Some note_id))
        "Note ID doesn't match";
  _ ← assert (text_eqb (note ≫= note_pubkey) (Some profile_pubkey))
        "Note pubkey doesn't match";
  _ ← assert (text_eqb (note ≫= note_content) (Some content))
        "Note content doesn't match";
  _ ← delete_note (Some note_id);
  deleted_note ← fetchone (fun db =>
                    select_one sqlite.note_id (Some note_id) (notes db));
  assert (negb (bool_decide (is_Some deleted_note))) "Note wasn't deleted".

End db_tests.

Module db_tests_facts.
Import sqlite sqlite_ops sqlite_ops_facts db_tests.

Lemma bind_Return {S A B : Type} (m : script S A) (k : A -> script S B)
  (db db' : S) (a : A) :
  m db = (Return a, db') -> (m ≫= k) db = k a db'.
Proof. intros H. unfold mbind, script_bind. now rewrite H. Qed.

Lemma bind_Raise {S A B : Type} (m : script S A) (k : A -> script S B)
  (db db' : S) (e : exn) :
  m db = (Raise e, db') -> (m ≫= k) db = (Raise e, db').
Proof. intros H. unfold mbind, script_bind. now rewrite H. Qed.

Lemma assert_pass {S B : Type} (cond : bool) (msg : string)
  (k : unit -> script S B) (db : S) :
  cond = true -> (assert cond msg ≫= k) db = k tt db.
Proof. now intros ->. Qed.

Ltac passes :=
  rewrite assert_pass
    by (unfold text_eqb; apply bool_decide_eq_true_2; cbn; eauto).

Lemma insert_into_fresh {R : Type} (key_of : R -> TEXT) (table : string)
  (row : R) (rows : list R) :
  select_one key_of (key_of row) rows = None ->
  insert_into (fun n o => sql_eq (key_of n) (key_of o)) table row rows
  = Return (rows ++ [row]).
Proof.
  intros H. pose proof (proj1 (select_one_none _ _ _) H) as Hnone.
  unfold insert_into.
  destruct (existsb _ rows) eqn:Hex; [|reflexivity].
  apply existsb_exists in Hex as (r & Hr & Hc).
  rewrite sql_eq_sym, (Hnone r Hr) in Hc. discriminate Hc.
Qed.

Lemma insert_into_present {R : Type} (key_of : R -> TEXT) (table : string)
  (row r : R) (rows : list R) :
  select_one key_of (key_of row) rows = Some r ->
  insert_into (fun n o => sql_eq (key_of n) (key_of o)) table row rows
  = Raise (IntegrityError ("UNIQUE constraint failed: " +:+ table)).
Proof.
  intros H. unfold select_one in H. apply find_some in H as [Hr Hc].
  unfold insert_into.
  assert (Hex : existsb (fun o => sql_eq (key_of row) (key_of o)) rows = true).
  { apply existsb_exists. exists r. split; [exact Hr|]. now rewrite sql_eq_sym. }
  now rewrite Hex.
Qed.

Lemma update_app_fresh {R : Type} (key_of : R -> TEXT) (k : string)
  (g : R -> R) (rows : list R) (row : R) :
  select_one key_of (Some k) rows = None -> key_of row = Some k ->
  map (fun r => if sql_eq (key_of r) (Some k) then g r else r) (rows ++ [row])
  = rows ++ [g row].
Proof.
  intros H Hrow. pose proof (proj1 (select_one_none _ _ _) H) as Hnone.
  rewrite map_app. cbn. rewrite Hrow. cbn. rewrite String.eqb_refl. f_equal.
  rewrite <- (map_id rows) at 2. apply map_ext_in. intros r Hr.
  now rewrite (Hnone r Hr).
Qed.

(** The store once [row] is in [profiles]. *)
Definition with_profile (row : profile_row) (db : store) : store :=
  {| profiles := profiles db ++ [row]; notes := notes db;
     comments := comments db; reactions := reactions db;
     followers := followers db; direct_messages := direct_messages db;
     rooms := rooms db |}.

(** [save_profile] with a key and a timestamp that are not [NULL]. *)
Lemma save_profile_run (pk : string)
  (name about picture banner website lud06 lud16 display_name : TEXT)
  (timestamp : Z) (db : store) :
  save_profile (Some pk) name about picture banner website lud06 lud16
    display_name (Some timestamp) db
  = if fits_signed 64 timestamp
    then match select_one profile_pubkey (Some pk) (profiles db) with
         | Some _ =>
             (Raise (IntegrityError
                       "UNIQUE constraint failed: profiles.pubkey"), db)
         | None =>
             (Return tt,
              with_profile
                {| profile_pubkey := Some pk; profile_name := name;
                   profile_about := about; profile_picture := picture;
                   profile_banner := banner; profile_website := website;
                   profile_lud06 := lud06; profile_lud16 := lud16;
                   profile_display_name := display_name;
                   profile_timestamp := Some timestamp |} db)
         end
    else (Raise too_large, db).
Proof.
  unfold save_profile. cbn [bindable].
  destruct (fits_signed 64 timestamp); cbn [negb]; [|reflexivity].
  destruct (select_one profile_pubkey (Some pk) (profiles db)) as [r|] eqn:Hsel.
  - now rewrite (insert_into_present profile_pubkey _ _ r).
  - now rewrite (insert_into_fresh profile_pubkey) by exact Hsel.
Qed.

(** X6. The profile test cleans up after itself.  Run on any store with
    clock readings that fit in 64 bits, [test_profiles] passes exactly when
    the key it drew is not yet stored, and then leaves the store as it
    found it; when the key is stored it stops at the first statement with
    the [IntegrityError] of the insert, the store untouched.  (A time that
    does not fit in 64 bits stops the test with [OverflowError]: at the
    insert, the store untouched, or at the update, the profile left in the
    store.) *)
Theorem test_profiles_outcome
  (pk name about picture banner website lud06 lud16 display_name : string)
  (timestamp : Z) (new_name new_about : string) (new_timestamp : Z)
  (db : store) :
  test_profiles pk name about picture banner website lud06 lud16
    display_name timestamp new_name new_about new_timestamp db
  = if fits_signed 64 timestamp
    then
      match select_one profile_pubkey (Some pk) (profiles db) with
      | None =>
          if fits_signed 64 new_timestamp
          then (Return tt, db)
          else (Raise too_large,
                with_profile
                  {| profile_pubkey := Some pk; profile_name := Some name;
                     profile_about := Some about;
                     profile_picture := Some picture;
                     profile_banner := Some banner;
                     profile_website := Some website;
                     profile_lud06 := Some lud06;
                     profile_lud16 := Some lud16;
                     profile_display_name := Some display_name;
                     profile_timestamp := Some timestamp |} db)
      | Some _ =>
          (Raise (IntegrityError "UNIQUE constraint failed: profiles.pubkey"),
           db)
      end
    else (Raise too_large, db).
Proof.
  unfold test_profiles.
  pose proof (save_profile_run pk (Some name) (Some about) (Some picture)
                (Some banner) (Some website) (Some lud06) (Some lud16)
                (Some display_name) timestamp db) as Hsave.
  destruct (fits_signed 64 timestamp); [|now apply bind_Raise].
  destruct (select_one profile_pubkey (Some pk) (profiles db)) as [r|] eqn:Hsel;
    [now apply bind_Raise|].
  rewrite (bind_Return _ _ _ _ _ Hsave). clear Hsave.
  destruct db as [ps ns cs rs fs ds rms]. unfold with_profile.
  cbn [profiles notes comments reactions followers direct_messages rooms] in *.
  erewrite bind_Return;
    [|unfold fetchone; cbn [profiles];
      rewrite (select_one_app_fresh profile_pubkey pk ps);
      [reflexivity|exact Hsel|reflexivity]].
  do 3 passes.
  destruct (fits_signed 64 new_timestamp) eqn:Hnew.
  - erewrite bind_Return;
      [|unfold update_profile; cbn [bindable]; rewrite Hnew; cbn [negb];
        cbn [profiles notes comments reactions followers direct_messages
               rooms];
        rewrite (update_app_fresh profile_pubkey pk _ ps);
        [reflexivity|exact Hsel|reflexivity]].
    cbn [profile_pubkey].
    erewrite bind_Return;
      [|unfold fetchone; cbn [profiles];
        rewrite (select_one_app_fresh profile_pubkey pk ps);
        [reflexivity|exact Hsel|reflexivity]].
    erewrite bind_Return; [|reflexivity].
    do 2 passes.
    erewrite bind_Return;
      [|unfold delete_profile; cbn [profiles notes comments reactions followers
                                     direct_messages rooms];
        rewrite (delete_from_app_fresh profile_pubkey pk ps);
        [reflexivity|exact Hsel|reflexivity]].
    erewrite bind_Return;
      [|unfold fetchone; cbn [profiles]; rewrite Hsel; reflexivity].
    unfold assert. rewrite bool_decide_eq_false_2; [reflexivity|].
    intros [x Hx]. discriminate Hx.
  - apply bind_Raise. unfold update_profile. cbn [bindable].
    rewrite Hnew. reflexivity.
Qed.

(** [save_note] with a key, a kind and a timestamp that are not [NULL]. *)
Lemma save_note_run (nid : string) (pubkey content tags : TEXT)
  (kind timestamp : Z) (db : store) :
  save_note (Some nid) pubkey content tags (Some kind) (Some timestamp) db
  = if fits_signed 64 kind && fits_signed 64 timestamp
    then match select_one note_id (Some nid) (notes db) with
         | Some _ =>
             (Raise (IntegrityError "UNIQUE constraint failed: notes.id"), db)
         | None =>
             (Return tt,
              {| profiles := profiles db;
                 notes := notes db
                          ++ [{| note_id := Some nid; note_pubkey := pubkey;
                                 note_content := content; note_tags := tags;
                                 note_kind := Some kind;
                                 note_timestamp := Some timestamp |}];
                 comments := comments db; reactions := reactions db;
                 followers := followers db;
                 direct_messages := direct_messages db; rooms := rooms db |})
         end
    else (Raise too_large, db).
Proof.
  unfold save_note. cbn [bindable].
  destruct (fits_signed 64 kind && fits_signed 64 timestamp); cbn [negb];
    [|reflexivity].
  destruct (select_one note_id (Some nid) (notes db)) as [r|] eqn:Hsel.
  - now rewrite (insert_into_present note_id _ _ r).
  - now rewrite (insert_into_fresh note_id) by exact Hsel.
Qed.

(** X7. The note test leaves its profile behind.  With clock readings that
    fit in 64 bits, [test_notes] passes exactly when neither the profile
    key nor the note id it drew is stored; the note is deleted again, but
    the profile it saved "for the foreign key" stays in the store, also
    when the test fails at the note.  (A time that does not fit in 64 bits
    stops the test with [OverflowError] at the insert that binds it.) *)
Theorem test_notes_outcome
  (pk name about picture banner website lud06 lud16 display_name : string)
  (profile_timestamp : Z) (nid content tags : string) (timestamp : Z)
  (db : store) :
  let row := {| profile_pubkey := Some pk; profile_name := Some name;
                profile_about := Some about; profile_picture := Some picture;
                profile_banner := Some banner; profile_website := Some website;
                profile_lud06 := Some lud06; profile_lud16 := Some lud16;
                profile_display_name := Some display_name;
                profile_timestamp := Some profile_timestamp |} in
  test_notes pk name about picture banner website lud06 lud16 display_name
    profile_timestamp nid content tags timestamp db
  = if fits_signed 64 profile_timestamp
    then
      match select_one profile_pubkey (Some pk) (profiles db) with
      | Some _ =>
          (Raise (IntegrityError "UNIQUE constraint failed: profiles.pubkey"),
           db)
      | None =>
          if fits_signed 64 timestamp
          then
            match select_one note_id (Some nid) (notes db) with
            | Some _ =>
                (Raise (IntegrityError "UNIQUE constraint failed: notes.id"),
                 with_profile row db)
            | None => (Return tt, with_profile row db)
            end
          else (Raise too_large, with_profile row db)
      end
    else (Raise too_large, db).
Proof.
  intros row. unfold test_notes.
  pose proof (save_profile_run pk (Some name) (Some about) (Some picture)
                (Some banner) (Some website) (Some lud06) (Some lud16)
                (Some display_name) profile_timestamp db) as Hsave.
  destruct (fits_signed 64 profile_timestamp); [|now apply bind_Raise].
  destruct (select_one profile_pubkey (Some pk) (profiles db)) as [r|] eqn:Hsel;
    [now apply bind_Raise|].
  rewrite (bind_Return _ _ _ _ _ Hsave). clear Hsave. fold row.
  pose proof (save_note_run nid (Some pk) (Some content) (Some tags) 1
                timestamp (with_profile row db)) as Hnote.
  change (fits_signed 64 1) with true in Hnote. cbn [andb] in Hnote.
  destruct (fits_signed 64 timestamp); [|now apply bind_Raise].
  destruct db as [ps ns cs rs fs ds rms]. unfold with_profile in *.
  cbn [profiles notes comments reactions followers direct_messages rooms] in *.
  destruct (select_one note_id (Some nid) ns) as [n|] eqn:Hn;
    [now apply bind_Raise|].
  rewrite (bind_Return _ _ _ _ _ Hnote). clear Hnote.
  erewrite bind_Return;
    [|unfold fetchone; cbn [notes];
      rewrite (select_one_app_fresh note_id nid ns);
      [reflexivity|exact Hn|reflexivity]].
  do 4 passes.
  erewrite bind_Return;
    [|unfold delete_note; cbn [profiles notes comments reactions followers
                                direct_messages rooms];
      rewrite (delete_from_app_fresh note_id nid ns);
      [reflexivity|exact Hn|reflexivity]].
  erewrite bind_Return;
    [|unfold fetchone; cbn [notes]; rewrite Hn; reflexivity].
  unfold assert. rewrite bool_decide_eq_false_2; [reflexivity|].
  intros [x Hx]. discriminate Hx.
Qed.

End db_tests_facts.

(** ** The [relays] table *)

Module relays_table.
Import sqlite sqlite_ops sqlite_ops_facts db_tests db_tests_facts.

(** A row of [relays], columns in the order of [CREATE TABLE]. *)
Record relay_row : Type := {
  rl_id : TEXT;
  rl_name : TEXT;
  rl_url : TEXT;
  rl_status : INTEGER;
  rl_description : TEXT;
  rl_timestamp : INTEGER;
  rl_owner_pubkey : TEXT
}.

(** The store with the [relays] table beside the tables of the entities. *)
Record relay_store : Type := {
  entities : store;
  relays : list relay_row
}.

(** A statement of the entity tables, run on the larger store. *)
Definition on_entities (st : statement) : script relay_store unit := fun db =>
  let '(r, s) := st (entities db) in
  (r, {| entities := s; relays := relays db |}).

(** [relays] has [id TEXT PRIMARY KEY] and [relay_url TEXT UNIQUE].  (The
    message of SQLite names the column of the constraint that failed; the
    message here names the table only.) *)
Definition relay_clash (n o : relay_row) : bool :=
  sql_eq (rl_id n) (rl_id o) || sql_eq (rl_url n) (rl_url o).

Definition save_relay (id relay_url : TEXT) (status : INTEGER)
  (relay_name description : TEXT) (timestamp : INTEGER) (owner_pubkey : TEXT)
  : script relay_store unit := fun db =>
  if negb (bindable status && bindable timestamp)
  then (Raise too_large, db) else
  let row := {| rl_id := id; rl_name := relay_name; rl_url := relay_url;
                rl_status := status; rl_description := description;
                rl_timestamp := timestamp;
                rl_owner_pubkey := owner_pubkey |} in
  match insert_into relay_clash "relays" row (relays db) with
  | Raise e => (Raise e, db)
  | Return t => (Return tt, {| entities := entities db; relays := t |})
  end.

(** [UPDATE relays SET relay_url = ?, ... WHERE id = ?].  Once the
    parameters are bound, the rows whose key equals the argument get the
    new fields.  The statement fails, and
    changes nothing, when a row that is updated would share its new URL
    with another row: one that is not updated, or a second updated one. *)
Definition update_relay (id relay_url : TEXT) (status : INTEGER)
  (relay_name description : TEXT) (timestamp : INTEGER) (owner_pubkey : TEXT)
  : script relay_store unit := fun db =>
  if negb (bindable status && bindable timestamp)
  then (Raise too_large, db) else
  let hit (r : relay_row) : bool := sql_eq (rl_id r) id in
  let set (r : relay_row) : relay_row :=
    if hit r
    then {| rl_id := rl_id r; rl_name := relay_name; rl_url := relay_url;
            rl_status := status; rl_description := description;
            rl_timestamp := timestamp; rl_owner_pubkey := owner_pubkey |}
    else r in
  let hits := List.filter hit (relays db) in
  let others := List.filter (fun r => negb (hit r)) (relays db) in
  if match hits with
     | [] => false
     | [_] => existsb (fun r => sql_eq (rl_url r) relay_url) others
     | _ :: _ :: _ =>
         existsb (fun r => sql_eq (rl_url r) relay_url) others
         || sql_eq relay_url relay_url
     end
  then (Raise (IntegrityError "UNIQUE constraint failed: relays.relay_url"), db)
  else (Return tt, {| entities := entities db; relays := map set (relays db) |}).

Definition delete_relay (id : TEXT) : script relay_store unit := fun db =>
  (Return tt,
   {| entities := entities db;
      relays := delete_from rl_id id (relays db) |}).

(** [test_relays]: the arguments are the values the test draws. *)
Definition test_relays
  (profile_pubkey name about picture banner website lud06 lud16
     display_name : string) (profile_timestamp : Z)
  (relay_id relay_url relay_name description : string) (timestamp : Z)
  (new_relay_name new_description : string) (new_timestamp : Z)
  : script relay_store unit :=
  _ ← on_entities
        (save_profile (Some profile_pubkey) (Some name) (Some about)
           (Some picture) (Some banner) (Some website) (Some lud06)
           (Some lud16) (Some display_name) (Some profile_timestamp));
  let status := 1 in
  _ ← save_relay (Some relay_id) (Some relay_url) (Some status)
        (Some relay_name) (Some description) (Some timestamp)
        (Some profile_pubkey);
  relay ← fetchone (fun db =>
             select_one rl_id (Some relay_id) (relays db));
  _ ← assert (bool_decide (is_Some relay)) "Relay not found after creation";
  _ ← assert (text_eqb (relay ≫= rl_id) (Some relay_id))
        "Relay ID doesn't match";
  _ ← assert (text_eqb (relay ≫= rl_name) (Some relay_name))
        "Relay name doesn't match";
  _ ← assert (text_eqb (relay ≫= rl_url) (Some relay_url))
        "Relay URL doesn't match";
  _ ← update_relay (Some relay_id) (Some relay_url) (Some status)
        (Some new_relay_name) (Some new_description) (Some new_timestamp)
        (Some profile_pubkey);
  updated_relay ← fetchone (fun db =>
                     select_one rl_id (Some relay_id) (relays db));
  _ ← match updated_relay with
      | None => fun db =>
          (Raise (TypeError "'NoneType' object is not subscriptable"), db)
      | Some _ => mret tt
      end;
  _ ← assert (text_eqb (updated_relay ≫= rl_name)
                (Some new_relay_name)) "Relay name wasn't updated";
  _ ← assert (text_eqb (updated_relay ≫= rl_description)
                (Some new_description)) "Relay description wasn't updated";
  _ ← delete_relay (Some relay_id);
  deleted_relay ← fetchone (fun db =>
                     select_one rl_id (Some relay_id) (relays db));
  assert (negb (bool_decide (is_Some deleted_relay))) "Relay wasn't deleted".

(** *** Facts *)

Lemma filter_hit_fresh {R : Type} (key_of : R -> TEXT) (k : string)
  (rows : list R) (row : R) :
  select_one key_of (Some k) rows = None -> key_of row = Some k ->
  List.filter (fun r => sql_eq (key_of r) (Some k)) (rows ++ [row]) = [row]
  /\ List.filter (fun r => negb (sql_eq (key_of r) (Some k))) (rows ++ [row])
     = rows.
Proof.
  intros Hnone Hrow. rewrite !List.filter_app. cbn. rewrite Hrow. cbn.
  rewrite String.eqb_refl. cbn. rewrite app_nil_r.
  fold (delete_from key_of (Some k) rows).
  rewrite (delete_from_fresh _ _ _ Hnone). split; [|reflexivity].
  pose proof (proj1 (select_one_none _ _ _) Hnone) as H.
  induction rows as [|r rows IH]; [reflexivity|].
  cbn. rewrite (H r) by now left. apply IH.
  - apply select_one_none. intros r' Hr'. apply H. now right.
  - intros r' Hr'. apply H. now right.
Qed.

(** X8. The relay test, and a relay that keeps its URL.  With clock
    readings that fit in 64 bits, [test_relays] passes exactly when the
    profile key it drew is new and neither the relay id nor the relay URL
    is stored.  The update in the middle of the test writes the URL the
    relay already has, and is accepted: a row does not clash with itself.
    The relay is deleted again; the profile saved for the foreign key stays
    in the store.  (A time that does not fit in 64 bits stops the test with
    [OverflowError] at the statement that binds it.) *)
Theorem test_relays_outcome
  (pk name about picture banner website lud06 lud16 display_name : string)
  (profile_timestamp : Z) (rid url rname description : string)
  (timestamp : Z) (new_rname new_description : string) (new_timestamp : Z)
  (db : relay_store) :
  let profile := {| profile_pubkey := Some pk; profile_name := Some name;
                    profile_about := Some about;
                    profile_picture := Some picture;
                    profile_banner := Some banner;
                    profile_website := Some website;
                    profile_lud06 := Some lud06; profile_lud16 := Some lud16;
                    profile_display_name := Some display_name;
                    profile_timestamp := Some profile_timestamp |} in
  let relay := {| rl_id := Some rid; rl_name := Some rname;
                  rl_url := Some url; rl_status := Some 1;
                  rl_description := Some description;
                  rl_timestamp := Some timestamp;
                  rl_owner_pubkey := Some pk |} in
  let db' := {| entities := with_profile profile (entities db);
                relays := relays db |} in
  let outcome_of_test :=
    test_relays pk name about picture banner website lud06 lud16 display_name
      profile_timestamp rid url rname description timestamp new_rname
      new_description new_timestamp db in
  if fits_signed 64 profile_timestamp
  then
    match select_one profile_pubkey (Some pk) (profiles (entities db)) with
    | Some _ =>
        outcome_of_test
        = (Raise (IntegrityError "UNIQUE constraint failed: profiles.pubkey"),
           db)
    | None =>
        if fits_signed 64 timestamp
        then
          if existsb (fun r => sql_eq (Some rid) (rl_id r)
                               || sql_eq (Some url) (rl_url r)) (relays db)
          then exists msg, outcome_of_test = (Raise (IntegrityError msg), db')
          else if fits_signed 64 new_timestamp
          then outcome_of_test = (Return tt, db')
          else outcome_of_test
               = (Raise too_large,
                  {| entities := entities db';
                     relays := relays db ++ [relay] |})
        else outcome_of_test = (Raise too_large, db')
    end
  else outcome_of_test = (Raise too_large, db).
Proof.
  intros profile relay db' outcome_of_test. subst outcome_of_test.
  unfold test_relays.
  pose proof (save_profile_run pk (Some name) (Some about) (Some picture)
                (Some banner) (Some website) (Some lud06) (Some lud16)
                (Some display_name) profile_timestamp (entities db)) as Hsave.
  fold profile in Hsave.
  destruct (fits_signed 64 profile_timestamp).
  2:{ apply bind_Raise. unfold on_entities. rewrite Hsave. now destruct db. }
  destruct db as [[ps ns cs rs fs ds rms] rls].
  cbn [entities profiles relays] in *.
  destruct (select_one profile_pubkey (Some pk) ps) as [r|] eqn:Hsel.
  { apply bind_Raise. unfold on_entities. cbn [entities]. now rewrite Hsave. }
  erewrite bind_Return;
    [|unfold on_entities; cbn [entities relays]; rewrite Hsave; reflexivity].
  clear Hsave. fold db'.
  destruct (fits_signed 64 timestamp) eqn:Hts.
  2:{ apply bind_Raise. unfold save_relay. cbn [bindable]. rewrite Hts.
      now rewrite andb_false_r. }
  destruct (existsb _ rls) eqn:Hclash.
  - eexists. apply bind_Raise. unfold save_relay, insert_into, relay_clash.
    cbn [bindable]. rewrite Hts. change (fits_signed 64 1) with true.
    cbn [andb negb]. subst db'. cbn [relays rl_id rl_url]. now rewrite Hclash.
  - assert (Hfresh : forall r, In r rls ->
              sql_eq (rl_id r) (Some rid) = false
              /\ sql_eq (rl_url r) (Some url) = false).
    { intros r Hr.
      assert (Hr' : sql_eq (Some rid) (rl_id r)
                    || sql_eq (Some url) (rl_url r) = false).
      { apply not_true_is_false. intros H.
        assert (Hex : existsb (fun r => sql_eq (Some rid) (rl_id r)
                                        || sql_eq (Some url) (rl_url r)) rls
                      = true) by (apply existsb_exists; eauto).
        congruence. }
      apply orb_false_iff in Hr' as [H1 H2].
      rewrite sql_eq_sym in H1. rewrite sql_eq_sym in H2. now split. }
    assert (Hid : select_one rl_id (Some rid) rls = None).
    { apply select_one_none. intros r Hr. now apply Hfresh. }
    erewrite bind_Return;
      [|unfold save_relay, insert_into, relay_clash; cbn [bindable];
        rewrite Hts; change (fits_signed 64 1) with true; cbn [andb negb];
        subst db'; cbn [relays entities rl_id rl_url]; rewrite Hclash;
        reflexivity].
    fold relay.
    erewrite bind_Return;
      [|unfold fetchone; cbn [relays];
        rewrite (select_one_app_fresh rl_id rid rls);
        [reflexivity|exact Hid|reflexivity]].
    do 4 passes.
    destruct (fits_signed 64 new_timestamp) eqn:Hnew.
    2:{ apply bind_Raise. unfold update_relay. cbn [bindable]. rewrite Hnew.
        now rewrite andb_false_r. }
    erewrite bind_Return.
    2:{ unfold update_relay. cbn [bindable]. rewrite Hnew.
        change (fits_signed 64 1) with true. cbn [andb negb].
        cbn [relays entities].
        destruct (filter_hit_fresh rl_id rid rls relay Hid eq_refl)
          as [Hhits Hothers].
        rewrite Hhits, Hothers.
        replace (existsb (fun r => sql_eq (rl_url r) (Some url)) rls)
          with false.
        2:{ symmetry. apply not_true_is_false. intros H.
            apply existsb_exists in H as (r & Hr & Hu).
            destruct (Hfresh r Hr) as [_ Hu']. congruence. }
        rewrite (update_app_fresh rl_id rid _ rls);
          [reflexivity|exact Hid|reflexivity]. }
    cbn [rl_id].
    erewrite bind_Return;
      [|unfold fetchone; cbn [relays];
        rewrite (select_one_app_fresh rl_id rid rls);
        [reflexivity|exact Hid|reflexivity]].
    erewrite bind_Return; [|reflexivity].
    do 2 passes.
    erewrite bind_Return;
      [|unfold delete_relay; cbn [relays entities];
        rewrite (delete_from_app_fresh rl_id rid rls);
        [reflexivity|exact Hid|reflexivity]].
    erewrite bind_Return;
      [|unfold fetchone; cbn [relays]; rewrite Hid; reflexivity].
    unfold assert. rewrite bool_decide_eq_false_2; [reflexivity|].
    intros [x Hx]. discriminate Hx.
Qed.

End relays_table.

(** ** More of [advanced_nips.py] *)

(** The number of binary digits of [n], as [len(bin(n)[2:])] gives it. *)
Definition bit_length (n : Z) : Z :=
  if n =? 0 then 1 else Z.log2 n + 1.

Lemma int_of_hex_fold (l : list ascii) (a : Z) :
  Forall is_hex_digit l -> 0 <= a ->
  exists n,
    fold_left
      (fun acc c =>
         n ← acc;
         match hex_value c with
         | Some v => Return (16 * n + v)
         | None => Raise (ValueError "invalid literal for int() with base 16")
         end)
      l (Return a) = Return n
    /\ a * 16 ^ Z.of_nat (length l) <= n.
Proof.
  intros Hl. revert a. induction Hl as [|c l Hc _ IH]; intros a Ha.
  - exists a. split; [reflexivity|]. cbn. lia.
  - cbn [fold_left mbind outcome_bind]. unfold is_hex_digit in Hc.
    destruct (hex_value c) as [v|] eqn:Hv; [|contradiction].
    destruct (hex_value_range c v Hv) as (Hvr & _).
    destruct (IH (16 * a + v) ltac:(lia)) as (n & Hn & Hle).
    exists n. split; [exact Hn|].
    rewrite length_cons, Nat2Z.inj_succ, Z.pow_succ_r by lia.
    assert (0 < 16 ^ Z.of_nat (length l)) by (apply Z.pow_pos_nonneg; lia).
    nia.
Qed.

Lemma zfill_pos_bin (p : positive) :
  zfill 256 (pos_bin p)
  = replicate (256 - Pos.size_nat p)%nat "0"%char ++ pos_bin p.
Proof.
  destruct (pos_bin_head p) as [rest Hrest].
  unfold zfill. rewrite pos_bin_length, Hrest. reflexivity.
Qed.

(** X9. Zero bits are counted against 256 bits, whatever the length of the
    text.  On a non-empty string of hexadecimal digits
    [count_leading_zero_bits] returns: 256 for the value 0, [256 -
    bit_length] for a value below [2 ^ 256] (so ["00ff"] counts 248, not 8),
    and 0 for any larger value, leading zero digits or not. *)
Theorem count_leading_zero_bits_value (hex_string : string) :
  chars hex_string <> [] -> Forall is_hex_digit (chars hex_string) ->
  exists n,
    int_of_hex hex_string = Return n /\ 0 <= n
    /\ count_leading_zero_bits hex_string
       = Return (if n =? 0 then 256 else Z.max 0 (256 - bit_length n)).
Proof.
  intros Hne Hhex.
  destruct (int_of_hex_fold (chars hex_string) 0 Hhex ltac:(lia))
    as (n & Hfold & Hle).
  assert (Hint : int_of_hex hex_string = Return n).
  { unfold int_of_hex. destruct (chars hex_string); [contradiction|exact Hfold]. }
  exists n. split; [exact Hint|]. split; [lia|].
  unfold count_leading_zero_bits. rewrite Hint. cbn [mbind outcome_bind].
  f_equal. destruct n as [|p|p]; [reflexivity| |lia].
  change (drop 2 (bin (Z.pos p))) with (pos_bin p).
  rewrite zfill_pos_bin, lstrip_zeros_replicate.
  rewrite <- (app_nil_r (pos_bin p)) at 2.
  rewrite lstrip_zeros_pos_bin, app_nil_r.
  rewrite length_app, length_replicate, pos_bin_length.
  unfold bit_length. change (Z.pos p =? 0) with false. cbv iota.
  pose proof (size_nat_log2 p). lia.
Qed.

Lemma count_leading_zero_bits_value_witness :
  exists n,
    int_of_hex "00ff" = Return n /\ 0 <= n
    /\ count_leading_zero_bits "00ff"
       = Return (if n =? 0 then 256 else Z.max 0 (256 - bit_length n)).
Proof.
  apply count_leading_zero_bits_value.
  - discriminate.
  - repeat constructor; discriminate.
Defined.

Section ProofOfWorkBounds.

Variable sha256 : string -> list Z.
Variable json_dumps : gmap string pyval -> string.
Variable time_time : nat -> Z.

Hypothesis sha256_digest : forall data,
  length (sha256 data) = 32%nat /\ Forall is_byte (sha256 data).

Local Abbreviation mine' := (mine_note sha256 json_dumps time_time).
Local Abbreviation zeros_at := (attempt_zeros sha256 json_dumps time_time).
Local Abbreviation note_at := (mined_at sha256 json_dumps time_time).

Lemma leading_zero_bits_le (w : nat) (n : Z) :
  (leading_zero_bits w n <= w)%nat.
Proof.
  induction w as [|w IH]; cbn [leading_zero_bits]; [lia|].
  destruct (Z.testbit n (Z.of_nat w)); lia.
Qed.

Lemma attempt_zeros_range (note : gmap string pyval) (d : Z) (k : nat) :
  0 <= zeros_at note d k <= 256.
Proof.
  unfold attempt_zeros.
  pose proof (leading_zero_bits_le 256
                (attempt_int sha256 json_dumps time_time note d k)).
  lia.
Qed.

(** X10. Difficulties outside 1..256.  With a difficulty of 0 or below the
    loop returns at its first attempt, nonce 0, whatever the digest; with a
    difficulty above 256 no digest can meet it and the loop never returns,
    however many iterations it is given. *)
Theorem mine_note_difficulty_out_of_range (note : gmap string pyval)
  (difficulty : Z) :
  (difficulty <= 0 ->
   forall fuel, mine' (S fuel) note difficulty
                = Some (Return (note_at note difficulty 0)))
  /\ (256 < difficulty -> forall fuel, mine' fuel note difficulty = None).
Proof.
  split.
  - intros Hd fuel. unfold mine_note.
    destruct (mine_from_spec sha256 json_dumps time_time sha256_digest
                note difficulty (S fuel) 0%nat note)
      as [[_ Hall]|(nonce & _ & _ & Hmin & Hsome)]; [reflexivity| |].
    + specialize (Hall 0%nat ltac:(lia)).
      pose proof (attempt_zeros_range note difficulty 0). lia.
    + destruct nonce as [|nonce]; [exact Hsome|].
      specialize (Hmin 0%nat ltac:(lia)).
      pose proof (attempt_zeros_range note difficulty 0). lia.
  - intros Hd fuel. unfold mine_note.
    destruct (mine_from_spec sha256 json_dumps time_time sha256_digest
                note difficulty fuel 0%nat note)
      as [[Hnone _]|(nonce & _ & Hmeets & _ & _)]; [reflexivity|exact Hnone|].
    pose proof (attempt_zeros_range note difficulty nonce). lia.
Qed.

(** X11. What mining does to the note.  A note returned by [mine_note]
    carries exactly one tag, the nonce tag of the attempt that succeeded
    with the difficulty as its third element: the tags of the note passed
    in are gone.  ["created_at"] is the clock at that attempt and ["id"]
    the digest; every other key is as in the note passed in. *)
Theorem mine_note_fields (note mined : gmap string pyval) (difficulty : Z)
  (fuel : nat) :
  mine' fuel note difficulty = Some (Return mined) ->
  exists nonce,
    (nonce < fuel)%nat
    /\ mined !! "tags"
       = Some (PList [PList [PStr "nonce"; PStr (str_of_Z (Z.of_nat nonce));
                             PStr (str_of_Z difficulty)]])
    /\ mined !! "created_at" = Some (PInt (time_time nonce))
    /\ mined !! "id"
       = Some (PStr (attempt_id sha256 json_dumps time_time note difficulty nonce))
    /\ forall k, k <> "tags" -> k <> "created_at" -> k <> "id" ->
                 mined !! k = note !! k.
Proof.
  intros Hret. unfold mine_note in Hret.
  destruct (mine_from_spec sha256 json_dumps time_time sha256_digest
              note difficulty fuel 0%nat note)
    as [[Hnone _]|(nonce & Hrange & _ & _ & Hsome)]; [reflexivity| |].
  - rewrite Hnone in Hret. discriminate Hret.
  - rewrite Hsome in Hret. injection Hret as <-.
    exists nonce. split; [lia|]. unfold mined_at, stamp, nonce_tags.
    split; [now rewrite !lookup_insert|].
    split; [now rewrite !lookup_insert|].
    split; [now rewrite !lookup_insert|].
    intros k Ht Hc Hi. rewrite !lookup_insert.
    repeat case_decide; congruence.
Qed.

End ProofOfWorkBounds.

Lemma sample_sha256_digest (data : string) :
  length (sample_sha256 data) = 32%nat /\ Forall is_byte (sample_sha256 data).
Proof.
  split; [reflexivity|]. constructor.
  - unfold is_byte. apply Z.mod_pos_bound. lia.
  - apply Forall_replicate. unfold is_byte. lia.
Qed.

Lemma mine_note_difficulty_out_of_range_witness :
  mine_note sample_sha256 sample_json_dumps sample_clock 3 sample_template (-1)
  = Some (Return (mined_at sample_sha256 sample_json_dumps sample_clock
                    sample_template (-1) 0))
  /\ mine_note sample_sha256 sample_json_dumps sample_clock 5 sample_template 257
     = None.
Proof.
  pose proof (mine_note_difficulty_out_of_range sample_sha256
                sample_json_dumps sample_clock sample_sha256_digest
                sample_template) as H.
  split.
  - apply (proj1 (H (-1))). lia.
  - apply (proj2 (H 257)). lia.
Defined.

Lemma mine_note_fields_witness :
  exists nonce,
    (nonce < 1)%nat
    /\ mined_at sample_sha256 sample_json_dumps sample_clock sample_template
         0 0 !! "tags"
       = Some (PList [PList [PStr "nonce"; PStr (str_of_Z (Z.of_nat nonce));
                             PStr (str_of_Z 0)]])
    /\ mined_at sample_sha256 sample_json_dumps sample_clock sample_template
         0 0 !! "created_at" = Some (PInt (sample_clock nonce))
    /\ mined_at sample_sha256 sample_json_dumps sample_clock sample_template
         0 0 !! "id"
       = Some (PStr (attempt_id sample_sha256 sample_json_dumps sample_clock
                       sample_template 0 nonce))
    /\ forall k, k <> "tags" -> k <> "created_at" -> k <> "id" ->
                 mined_at sample_sha256 sample_json_dumps sample_clock
                   sample_template 0 0 !! k
                 = sample_template !! k.
Proof.
  apply (mine_note_fields sample_sha256 sample_json_dumps sample_clock
           sample_sha256_digest sample_template _ 0 1).
  vm_compute. reflexivity.
Defined.

(** ** More of [convert_hex_to_npub] and [decode_npub] *)

(** The text [bech32_encode] writes for the prefix [npub]. *)
Definition npub_text (five : list Z) : string :=
  "npub" +:+ "1"
  +:+ str_of_chars (map charset_char
                      (five ++ bech32.bech32_create_checksum "npub" five)).

Lemma bech32_encode_npub (five : list Z) :
  Forall (in_range 5) five ->
  bech32.bech32_encode "npub" five = Return (npub_text five).
Proof.
  intros Hfive. unfold bech32.bech32_encode, npub_text.
  rewrite charset_all_in_range; [reflexivity|].
  apply Forall_app. split; [exact Hfive|apply checksum_in_range].
Qed.

Lemma npub_text_length (five : list Z) :
  length (chars (npub_text five)) = (length five + 11)%nat.
Proof.
  unfold npub_text. rewrite npub_text_chars.
  rewrite length_app, length_map, length_app, checksum_length.
  change (length (chars "npub1")) with 5%nat. lia.
Qed.

Lemma unhex_pairs_Some (bs : list Z) :
  forall l, unhex_pairs l = Some bs ->
            Forall is_hex_digit l /\ length l = (2 * length bs)%nat.
Proof.
  induction bs as [|x bs IH]; intros [|a [|b l]] H; cbn [unhex_pairs] in H;
    try discriminate H.
  - split; [constructor|reflexivity].
  - destruct (hex_value a), (hex_value b), (unhex_pairs l); discriminate H.
  - destruct (hex_value a) as [va|] eqn:Ha; [|discriminate H].
    destruct (hex_value b) as [vb|] eqn:Hb; [|discriminate H].
    destruct (unhex_pairs l) as [bs'|] eqn:Hl; [|discriminate H].
    injection H as _ <-. destruct (IH l Hl) as [Hhex Hlen].
    split; [|cbn [length]; lia].
    constructor; [unfold is_hex_digit; congruence|].
    constructor; [unfold is_hex_digit; congruence|exact Hhex].
Qed.

Lemma unhexlify_Return (h : string) (bs : list Z) :
  unhexlify h = Return bs ->
  Forall is_hex_digit (chars h) /\ length (chars h) = (2 * length bs)%nat.
Proof.
  unfold unhexlify. destruct (existsb _ _); [discriminate|].
  destruct (Nat.odd _); [discriminate|].
  destruct (unhex_pairs (chars h)) as [bs'|] eqn:Hp; [|discriminate].
  intros [= <-]. now apply unhex_pairs_Some.
Qed.

(** The steps of [convert_hex_to_npub] on an even number of hexadecimal
    digits. *)
Lemma convert_hex_to_npub_steps (h : string) (n : nat) :
  length (chars h) = (2 * n)%nat -> Forall is_hex_digit (chars h) ->
  exists bs five,
    unhexlify h = Return bs /\ length bs = n /\ hexlify bs = lower h
    /\ Forall (in_range 5) five
    /\ Z.of_nat n * 8 <= Z.of_nat (length five) * 5 < Z.of_nat n * 8 + 5
    /\ bech32.convertbits five 5 8 false = Some bs
    /\ convert_hex_to_npub h = Return (npub_text five).
Proof.
  intros Hlen Hhex.
  destruct (unhexlify_hex h n Hlen Hhex) as (bs & Hbs & Hn & Hbytes & Hlow).
  assert (Hbytes8 : Forall (in_range 8) bs).
  { eapply Forall_impl; [exact Hbytes|]. intros b Hb. exact Hb. }
  destruct (convertbits_round_trip 8 5 bs ltac:(lia) Hbytes8)
    as (five & Hfive & Hrange & Hsize & Hback).
  rewrite Hn in Hsize.
  exists bs, five. repeat (split; [assumption|]).
  unfold convert_hex_to_npub. rewrite Hbs. cbn [mbind outcome_bind].
  rewrite Hfive, (bech32_encode_npub five Hrange). reflexivity.
Qed.

(** X12. Keys of any length.  [convert_hex_to_npub] returns for every even
    number of hexadecimal digits, none and more than 64 included, and
    [decode_npub] gives the digits back in lowercase from the text it
    wrote, however long: the text of a key of 50 bytes or more is longer
    than the 90 characters of BIP-173, and it is decoded all the same. *)
Theorem decode_npub_any_length (h : string) (n : nat) :
  length (chars h) = (2 * n)%nat -> Forall is_hex_digit (chars h) ->
  exists npub,
    convert_hex_to_npub h = Return npub
    /\ decode_npub npub = Return (lower h)
    /\ ((50 <= n)%nat -> (90 < length (chars npub))%nat).
Proof.
  intros Hlen Hhex.
  destruct (convert_hex_to_npub_steps h n Hlen Hhex)
    as (bs & five & Hbs & Hn & Hlow & Hrange & Hsize & Hback & Hconv).
  exists (npub_text five). split; [exact Hconv|]. split.
  - destruct (bech32_round_trip five Hrange) as (s & Henc & Hdec).
    rewrite (bech32_encode_npub five Hrange) in Henc. injection Henc as <-.
    unfold decode_npub. rewrite Hdec. cbn [String.eqb Ascii.eqb Bool.eqb negb].
    rewrite Hback, Hlow. reflexivity.
  - intros Hlong. rewrite npub_text_length. lia.
Qed.

(** A key of 50 bytes: 100 digits, and an [npub] of 91 characters. *)
Definition long_key : string :=
  "000102030405060708090a0b0c0d0e0f101112131415161718191a1b1c1d1e1f202122232425262728292a2b2c2d2e2f3031".

Lemma decode_npub_any_length_witness :
  exists npub,
    convert_hex_to_npub long_key = Return npub
    /\ decode_npub npub = Return long_key
    /\ (90 < length (chars npub))%nat.
Proof.
  assert (Hhex : Forall is_hex_digit (chars long_key)).
  { apply Forall_forall. intros c Hc. apply list_elem_of_In in Hc.
    cbn in Hc.
    repeat (destruct Hc as [<-|Hc]; [discriminate|]). destruct Hc. }
  destruct (decode_npub_any_length long_key 50 eq_refl Hhex)
    as (npub & Hconv & Hdec & Hlong).
  exists npub. split; [exact Hconv|]. split; [|apply Hlong; lia].
  rewrite Hdec. reflexivity.
Defined.

(** X13. When [convert_hex_to_npub] returns, and what.  It returns exactly
    on the strings made of an even number of hexadecimal digits; the text
    returned starts with [npub1], goes on with characters of the bech32
    alphabet only, and has 11 characters more than the key has 5-bit
    groups: 63 characters for a 32-byte key. *)
Theorem convert_hex_to_npub_returns (h : string) :
  ((exists npub, convert_hex_to_npub h = Return npub)
   <-> Nat.Even (length (chars h)) /\ Forall is_hex_digit (chars h))
  /\ forall npub,
       convert_hex_to_npub h = Return npub ->
       exists cs,
         chars npub = chars "npub1" ++ cs
         /\ Forall (fun c => In c (chars bech32.CHARSET)) cs
         /\ Z.of_nat (length cs)
            = (Z.of_nat (length (chars h)) * 4 + 4) / 5 + 6.
Proof.
  assert (Hback : forall npub, convert_hex_to_npub h = Return npub ->
            Nat.Even (length (chars h)) /\ Forall is_hex_digit (chars h)).
  { intros npub H. unfold convert_hex_to_npub in H.
    destruct (unhexlify h) as [bs|e] eqn:Hbs.
    - destruct (unhexlify_Return h bs Hbs) as [Hhex Hlen].
      split; [exists (length bs); exact Hlen|exact Hhex].
    - cbn [mbind outcome_bind] in H. now destruct e. }
  split.
  - split.
    + intros [npub H]. exact (Hback npub H).
    + intros [[n Hn] Hhex].
      destruct (convert_hex_to_npub_steps h n Hn Hhex)
        as (_ & five & _ & _ & _ & _ & _ & _ & Hconv).
      now exists (npub_text five).
  - intros npub H. destruct (Hback npub H) as [[n Hn] Hhex].
    destruct (convert_hex_to_npub_steps h n Hn Hhex)
      as (_ & five & _ & _ & _ & Hrange & Hsize & _ & Hconv).
    rewrite Hconv in H. injection H as <-.
    exists (map charset_char
              (five ++ bech32.bech32_create_checksum "npub" five)).
    split; [apply npub_text_chars|]. split.
    + apply List.Forall_forall. intros c Hc.
      apply in_map_iff in Hc as (d & <- & Hd).
      assert (Hd5 : in_range 5 d).
      { apply in_app_or in Hd as [Hd|Hd].
        - rewrite Forall_forall in Hrange. apply Hrange.
          now apply list_elem_of_In.
        - pose proof (checksum_in_range "npub" five) as Hck.
          rewrite Forall_forall in Hck. apply Hck. now apply list_elem_of_In. }
      unfold charset_char. apply nth_In.
      destruct Hd5 as [Hd0 Hd1]. change (2 ^ 5) with 32 in Hd1.
      change (length (chars bech32.CHARSET)) with 32%nat. lia.
    + rewrite length_map, length_app, checksum_length, Hn.
      rewrite Nat2Z.inj_add. change (Z.of_nat 6) with 6. f_equal.
      apply Z.div_unique with
        (r := Z.of_nat (2 * n) * 4 + 4 - 5 * Z.of_nat (length five)); lia.
Qed.

(** *** The case of the digits *)

Lemma hex_value_lower_char (c : ascii) :
  hex_value (bech32.lower_char c) = hex_value c
  /\ (128 <=? ord (bech32.lower_char c)) = (128 <=? ord c).
Proof.
  destruct c as [[] [] [] [] [] [] [] []]; vm_compute; split; reflexivity.
Qed.

Lemma unhex_pairs_lower (n : nat) :
  forall l, (length l <= n)%nat ->
            unhex_pairs (map bech32.lower_char l) = unhex_pairs l.
Proof.
  induction n as [|n IH]; intros [|a [|b l]] Hlen; try reflexivity;
    cbn [length] in Hlen; try lia.
  cbn [map unhex_pairs].
  rewrite (proj1 (hex_value_lower_char a)), (proj1 (hex_value_lower_char b)).
  rewrite IH by lia. reflexivity.
Qed.

Lemma chars_lower (h : string) : chars (lower h) = map bech32.lower_char (chars h).
Proof. unfold lower. apply chars_str_of_chars. Qed.

Lemma unhexlify_lower (h : string) : unhexlify (lower h) = unhexlify h.
Proof.
  unfold unhexlify. rewrite chars_lower, length_map.
  rewrite (unhex_pairs_lower (length (chars h))) by lia.
  replace (existsb (fun c => 128 <=? ord c) (map bech32.lower_char (chars h)))
    with (existsb (fun c => 128 <=? ord c) (chars h)); [reflexivity|].
  induction (chars h) as [|c l IH]; [reflexivity|].
  cbn [map existsb]. now rewrite (proj2 (hex_value_lower_char c)), IH.
Qed.

Lemma charset_char_inj (l1 l2 : list Z) :
  Forall (in_range 5) l1 -> Forall (in_range 5) l2 ->
  map charset_char l1 = map charset_char l2 -> l1 = l2.
Proof.
  intros H1. revert l2. induction H1 as [|d1 l1 Hd1 _ IH];
    intros [|d2 l2] H2 Heq; try discriminate Heq; [reflexivity|].
  apply Forall_cons in H2 as [Hd2 H2]. injection Heq as Hc Hl.
  f_equal; [|now apply IH].
  rewrite <- (proj2 (charset_char_facts d1 Hd1)),
          <- (proj2 (charset_char_facts d2 Hd2)).
  now rewrite Hc.
Qed.

(** X14. One key, one [npub].  [convert_hex_to_npub] sees a key only
    through its lowercase form: capital digits change neither the text
    returned nor the exception raised.  And two keys are given the same
    text only when they are the same key, the case of the digits apart. *)
Theorem convert_hex_to_npub_one_to_one (h1 h2 : string) :
  convert_hex_to_npub (lower h1) = convert_hex_to_npub h1
  /\ forall npub,
       convert_hex_to_npub h1 = Return npub ->
       (convert_hex_to_npub h2 = Return npub <-> lower h2 = lower h1).
Proof.
  assert (Hlow : forall h, convert_hex_to_npub (lower h) = convert_hex_to_npub h).
  { intros h. unfold convert_hex_to_npub. now rewrite unhexlify_lower. }
  split; [apply Hlow|]. intros npub H1. split.
  - intros H2.
    assert (Hsteps : forall h, convert_hex_to_npub h = Return npub ->
              exists bs five,
                hexlify bs = lower h /\ Forall (in_range 5) five
                /\ bech32.convertbits five 5 8 false = Some bs
                /\ npub = npub_text five).
    { intros h H. unfold convert_hex_to_npub in H.
      destruct (unhexlify h) as [bs|e] eqn:Hbs;
        [|cbn [mbind outcome_bind] in H; now destruct e].
      destruct (unhexlify_Return h bs Hbs) as [Hhex Hlen].
      destruct (convert_hex_to_npub_steps h (length bs) Hlen Hhex)
        as (bs' & five & Hbs' & _ & Hl & Hrange & _ & Hb & Hconv).
      unfold convert_hex_to_npub in Hconv. rewrite Hbs in Hconv.
      rewrite Hconv in H. injection H as <-.
      now exists bs', five. }
    destruct (Hsteps h1 H1) as (bs1 & five1 & Hl1 & Hr1 & Hb1 & Hn1).
    destruct (Hsteps h2 H2) as (bs2 & five2 & Hl2 & Hr2 & Hb2 & Hn2).
    assert (Hfive : five2 = five1).
    { assert (Hc : chars (npub_text five2) = chars (npub_text five1))
        by congruence.
      unfold npub_text in Hc. rewrite !npub_text_chars in Hc.
      apply app_inv_head in Hc. apply charset_char_inj in Hc.
      - apply app_inj_2 in Hc; [tauto|reflexivity].
      - apply Forall_app. split; [exact Hr2|apply checksum_in_range].
      - apply Forall_app. split; [exact Hr1|apply checksum_in_range]. }
    subst five2. congruence.
  - intros Heq. rewrite <- (Hlow h2), Heq, (Hlow h1). exact H1.
Qed.

Lemma convert_hex_to_npub_one_to_one_witness :
  convert_hex_to_npub "00ff" = Return "npub1qrlsx8f9n9"
  /\ convert_hex_to_npub "00FF" = Return "npub1qrlsx8f9n9".
Proof.
  assert (H : convert_hex_to_npub "00ff" = Return "npub1qrlsx8f9n9")
    by (vm_compute; reflexivity).
  split; [exact H|].
  apply (proj2 (convert_hex_to_npub_one_to_one "00ff" "00FF") _ H).
  reflexivity.
Defined.

(** ** More of the follow list *)

Lemma add_p_tags_malformed (tags : list (list string)) :
  Exists (fun tag => ~ well_formed_tag tag) tags ->
  forall s, add_p_tags tags s = Raise (IndexError "list index out of range").
Proof.
  induction tags as [|tag rest IH]; intros Hex s;
    [now apply Exists_nil in Hex|].
  apply Exists_cons in Hex.
  destruct tag as [|t0 [|t1 tl]]; cbn [add_p_tags]; [reflexivity| |].
  - destruct (String.eqb_spec t0 "p") as [->|Hne]; [reflexivity|].
    destruct Hex as [Hbad|Hex]; [|now apply IH].
    exfalso. apply Hbad. exact Hne.
  - destruct Hex as [Hbad|Hex]; [exfalso; apply Hbad; exact I|].
    destruct (String.eqb t0 "p"); now apply IH.
Qed.

Lemma add_p_tags_Raise (tags : list (list string)) :
  forall s e, add_p_tags tags s = Raise e ->
              e = IndexError "list index out of range".
Proof.
  induction tags as [|tag rest IH]; intros s e H; [discriminate H|].
  destruct tag as [|t0 [|t1 tl]]; cbn [add_p_tags] in H.
  - now injection H as <-.
  - destruct (String.eqb t0 "p"); [now injection H as <-|].
    now apply (IH s).
  - destruct (String.eqb t0 "p"); eapply IH; exact H.
Qed.

(** The tags of the events of other kinds are not read. *)
Lemma collect_follows_kind3 (pool : list EventMessage) (s : gset string) :
  Forall (fun m => kind (event m) = 3 ->
                   Forall well_formed_tag (tags (event m))) pool ->
  collect_follows pool s
  = Return (list_to_set
              (flat_map (fun m => if kind (event m) =? 3
                                  then p_targets (tags (event m)) else [])
                 pool) ∪ s).
Proof.
  intros Hwf. revert s. induction Hwf as [|m rest Hm _ IH]; intros s.
  - cbn. f_equal. set_solver.
  - cbn [collect_follows flat_map].
    destruct (Z.eqb_spec (kind (event m)) 3) as [H3|H3].
    + rewrite add_p_tags_union by exact (Hm H3). cbn [mbind outcome_bind].
      rewrite IH. f_equal. rewrite list_to_set_app_L. set_solver.
    + rewrite IH. reflexivity.
Qed.

Lemma collect_follows_malformed (pool : list EventMessage) :
  Exists (fun m => kind (event m) = 3
                   /\ Exists (fun tag => ~ well_formed_tag tag)
                        (tags (event m))) pool ->
  forall s, collect_follows pool s
            = Raise (IndexError "list index out of range").
Proof.
  induction pool as [|m rest IH]; intros Hex s;
    [now apply Exists_nil in Hex|].
  apply Exists_cons in Hex. cbn [collect_follows].
  destruct (Z.eqb_spec (kind (event m)) 3) as [H3|H3].
  - destruct (add_p_tags (tags (event m)) s) as [s'|e] eqn:Hadd.
    + cbn [mbind outcome_bind]. destruct Hex as [[_ Hbad]|Hex]; [|now apply IH].
      rewrite (add_p_tags_malformed _ Hbad) in Hadd. discriminate Hadd.
    + cbn [mbind outcome_bind]. now rewrite (add_p_tags_Raise _ _ _ Hadd).
  - destruct Hex as [[Hk _]|Hex]; [contradiction|now apply IH].
Qed.

Section FollowsFacts.

Variable RelayManager : Type.
Variable Filters : Type.
Variable add_subscription_on_relay :
  RelayManager -> string -> list Filters -> string -> outcome RelayManager.
Variable run_sync : RelayManager -> outcome RelayManager.
Variable message_pool : RelayManager -> list EventMessage.
Variable authors_kinds : list string -> list Z -> Filters.

Local Abbreviation follows_of :=
  (fetch_existing_follows RelayManager Filters add_subscription_on_relay
     run_sync message_pool authors_kinds).

(** X15. What [fetch_existing_follows] returns.  Once the subscription on
    [wss://relay.damus.io] is placed and [run_sync] has returned, and when
    no tag of a kind-3 event of the pool is too short, the result is a list
    without repetition that holds exactly the targets of the ["p"] tags of
    the kind-3 events of the pool.  Events of other kinds are skipped, tags
    unread; the author of an event is never looked at. *)
Theorem fetch_existing_follows_p_targets (subscription_id : string)
  (relay_manager rm1 rm2 : RelayManager) (public_key : string) :
  add_subscription_on_relay relay_manager subscription_id
    [authors_kinds [public_key] [3]] "wss://relay.damus.io" = Return rm1 ->
  run_sync rm1 = Return rm2 ->
  Forall (fun m => kind (event m) = 3 ->
                   Forall well_formed_tag (tags (event m)))
    (message_pool rm2) ->
  exists followed,
    follows_of subscription_id relay_manager public_key = FollowList followed
    /\ NoDup followed
    /\ forall pk, pk ∈ followed <->
         exists m, m ∈ message_pool rm2 /\ kind (event m) = 3
                   /\ pk ∈ p_targets (tags (event m)).
Proof.
  intros Hsub Hrun Hwf. unfold fetch_existing_follows.
  rewrite Hsub. cbn [mbind outcome_bind]. rewrite Hrun. cbn [mbind outcome_bind].
  rewrite (collect_follows_kind3 _ _ Hwf). cbn [mbind outcome_bind].
  eexists. split; [reflexivity|]. split; [apply NoDup_elements|].
  intros pk. rewrite elem_of_elements, elem_of_union, elem_of_list_to_set.
  rewrite list_elem_of_In, in_flat_map. split.
  - intros [(m & Hm & Hpk)|Hempty]; [|now apply elem_of_empty in Hempty].
    exists m. split; [now apply list_elem_of_In|].
    destruct (Z.eqb_spec (kind (event m)) 3) as [H3|H3]; [|contradiction].
    split; [exact H3|now apply list_elem_of_In].
  - intros (m & Hm & H3 & Hpk). left. exists m.
    split; [now apply list_elem_of_In|].
    rewrite H3. change (3 =? 3) with true. cbv iota. now apply list_elem_of_In.
Qed.

(** X16. One short tag loses the follow list.  When a kind-3 event of the
    pool has an empty tag, or a ["p"] tag without a target, the loop raises
    [IndexError] and the function returns the error dictionary instead of
    the list: the keys read from the other events are not returned. *)
Theorem fetch_existing_follows_short_tag (subscription_id : string)
  (relay_manager rm1 rm2 : RelayManager) (public_key : string) :
  add_subscription_on_relay relay_manager subscription_id
    [authors_kinds [public_key] [3]] "wss://relay.damus.io" = Return rm1 ->
  run_sync rm1 = Return rm2 ->
  Exists (fun m => kind (event m) = 3
                   /\ Exists (fun tag => ~ well_formed_tag tag)
                        (tags (event m)))
    (message_pool rm2) ->
  follows_of subscription_id relay_manager public_key
  = FollowError
      "An error occurred while fetching followed users: list index out of range".
Proof.
  intros Hsub Hrun Hbad. unfold fetch_existing_follows.
  rewrite Hsub. cbn [mbind outcome_bind]. rewrite Hrun. cbn [mbind outcome_bind].
  rewrite (collect_follows_malformed _ Hbad). reflexivity.
Qed.

End FollowsFacts.

(** A text note of [author] that mentions [pk]. *)
Definition mention (author pk : string) (stamp : Z) : EventMessage :=
  {| event := {| id := str_of_Z stamp; pubkey := author; content := "gm";
                 kind := 1; tags := [["p"; pk]; []]; created_at := stamp;
                 sig := None |};
     url := "wss://relay.damus.io" |}.

(** A contact list whose second tag has lost its target. *)
Definition short_contact_list (author pk : string) (stamp : Z) : EventMessage :=
  {| event := {| id := str_of_Z stamp; pubkey := author; content := "";
                 kind := 3; tags := [["p"; pk]; ["p"]]; created_at := stamp;
                 sig := None |};
     url := "wss://relay.damus.io" |}.

Lemma fetch_existing_follows_p_targets_witness :
  exists followed,
    replay.fetch_existing_follows "2f1c"
      [contact_list alice 1700000000 [pkA]; mention alice pkB 1700000060;
       contact_list pkC 1700000120 [pkB]] alice
    = FollowList followed
    /\ NoDup followed
    /\ forall pk, pk ∈ followed <->
         exists m,
           m ∈ [contact_list alice 1700000000 [pkA];
                mention alice pkB 1700000060;
                contact_list pkC 1700000120 [pkB]]
           /\ kind (event m) = 3 /\ pk ∈ p_targets (tags (event m)).
Proof.
  apply (fetch_existing_follows_p_targets replay.RelayManager replay.Filters
           replay.add_subscription_on_relay replay.run_sync
           replay.message_pool replay.authors_kinds "2f1c" _ _ _ alice
           eq_refl eq_refl).
  repeat first [apply List.Forall_nil | apply List.Forall_cons];
    cbn; intros H; try discriminate H; repeat constructor.
Defined.

Lemma fetch_existing_follows_short_tag_witness :
  replay.fetch_existing_follows "2f1c"
    [contact_list alice 1700000000 [pkA; pkB];
     short_contact_list alice pkC 1700000060] alice
  = FollowError
      "An error occurred while fetching followed users: list index out of range".
Proof.
  apply (fetch_existing_follows_short_tag replay.RelayManager replay.Filters
           replay.add_subscription_on_relay replay.run_sync
           replay.message_pool replay.authors_kinds "2f1c" _ _ _ alice
           eq_refl eq_refl).
  apply Exists_cons_tl, Exists_cons_hd. split; [reflexivity|].
  apply Exists_cons_tl, Exists_cons_hd. cbn. intros H. now apply H.
Defined.

(** *** Toggling, without and with repetitions *)

(** [l.count(x)] *)
Definition list_count (x : string) (l : list string) : nat :=
  length (List.filter (String.eqb x) l).

Lemma list_count_app (x : string) (l1 l2 : list string) :
  list_count x (l1 ++ l2) = (list_count x l1 + list_count x l2)%nat.
Proof. unfold list_count. now rewrite List.filter_app, length_app. Qed.

Lemma list_count_contains (x : string) (l : list string) :
  list_contains x l = negb (Nat.eqb (list_count x l) 0).
Proof.
  unfold list_contains, list_count.
  induction l as [|y l IH]; [reflexivity|]. cbn.
  destruct (String.eqb x y); [reflexivity|exact IH].
Qed.

Lemma list_count_remove (x p : string) (l : list string) :
  list_count x (list_remove p l)
  = if String.eqb x p then Nat.pred (list_count x l) else list_count x l.
Proof.
  unfold list_count. induction l as [|y l IH]; cbn.
  - now destruct (String.eqb x p).
  - destruct (String.eqb_spec y p) as [->|Hyp].
    + destruct (String.eqb_spec x p) as [->|Hxp]; reflexivity.
    + cbn. destruct (String.eqb_spec x y) as [->|Hxy]; cbn.
      * rewrite IH. now rewrite (proj2 (String.eqb_neq y p) Hyp).
      * exact IH.
Qed.

Lemma list_remove_last (p : string) (l : list string) :
  list_contains p l = false -> list_remove p (l ++ [p]) = l.
Proof.
  unfold list_contains. induction l as [|y l IH]; cbn.
  - now rewrite String.eqb_refl.
  - rewrite String.eqb_sym. destruct (String.eqb y p); [discriminate|].
    cbn. intros H. now rewrite IH.
Qed.

Lemma list_remove_perm (p : string) (l : list string) :
  list_contains p l = true -> list_remove p l ++ [p] ≡ₚ l.
Proof.
  unfold list_contains. induction l as [|y l IH]; cbn; [discriminate|].
  rewrite String.eqb_sym.
  destruct (String.eqb_spec y p) as [->|Hne]; cbn.
  - intros _. now rewrite Permutation_app_comm.
  - intros H. now rewrite (IH H).
Qed.

Section ToggleFacts.

Variable RelayManager : Type.
Variable compute_id : string -> Z -> Z -> list (list string) -> string -> string.
Variable sign_event : Event -> outcome string.
Variable publish_event : RelayManager -> Event -> outcome unit * RelayManager.

Local Abbreviation toggle :=
  (update_follow_list RelayManager compute_id sign_event publish_event).
Local Abbreviation follows_after := (local_follows RelayManager).

Lemma local_follows_toggle (existing_follows : list string)
  (relay_manager : RelayManager) (relay_urls : list string)
  (public_key_hex : string) (now : Z) (pubkey_to_toggle : string) :
  follows_after (toggle existing_follows relay_manager relay_urls
                   public_key_hex now pubkey_to_toggle)
  = if list_contains pubkey_to_toggle existing_follows
    then list_remove pubkey_to_toggle existing_follows
    else existing_follows ++ [pubkey_to_toggle].
Proof.
  unfold update_follow_list. destruct (sign_event _); [|reflexivity].
  now destruct (publish_to_each _ _ _ _ _).
Qed.

(** X17. Toggling a list with repetitions.  Whatever the list, a toggle
    changes the number of occurrences of the toggled key by one, up from
    none, down otherwise, and no other key.  So a key that stands twice in
    the list is still followed after it was "unfollowed", and the contact
    event of that toggle still carries a ["p"] tag for it. *)
Theorem update_follow_list_counts (existing_follows : list string)
  (relay_manager : RelayManager) (relay_urls : list string)
  (public_key_hex : string) (now : Z) (pubkey_to_toggle : string) :
  let u := toggle existing_follows relay_manager relay_urls public_key_hex
             now pubkey_to_toggle in
  (forall x,
     list_count x (follows_after u)
     = if String.eqb x pubkey_to_toggle
       then match list_count x existing_follows with
            | O => 1%nat
            | S n => n
            end
       else list_count x existing_follows)
  /\ ((2 <= list_count pubkey_to_toggle existing_follows)%nat ->
      pubkey_to_toggle ∈ follows_after u
      /\ Forall (fun entry => ["p"; pubkey_to_toggle] ∈ tags entry.1.2)
           (published RelayManager u)).
Proof.
  intros u.
  assert (Hcount : forall x,
     list_count x (follows_after u)
     = if String.eqb x pubkey_to_toggle
       then match list_count x existing_follows with
            | O => 1%nat
            | S n => n
            end
       else list_count x existing_follows).
  { intros x. subst u. rewrite local_follows_toggle.
    rewrite list_count_contains.
    destruct (String.eqb_spec x pubkey_to_toggle) as [->|Hne].
    - destruct (list_count pubkey_to_toggle existing_follows) as [|n] eqn:Hn;
        cbn [Nat.eqb negb].
      + rewrite list_count_app, Hn. unfold list_count. cbn.
        now rewrite String.eqb_refl.
      + rewrite list_count_remove, String.eqb_refl, Hn. reflexivity.
    - destruct (negb _).
      + rewrite list_count_remove.
        now rewrite (proj2 (String.eqb_neq x pubkey_to_toggle) Hne).
      + rewrite list_count_app. unfold list_count at 2. cbn.
        rewrite (proj2 (String.eqb_neq x pubkey_to_toggle) Hne). cbn. lia. }
  split; [exact Hcount|]. intros Htwice.
  assert (Hin : pubkey_to_toggle ∈ follows_after u).
  { apply list_contains_elem_of. rewrite list_count_contains, Hcount.
    rewrite String.eqb_refl.
    destruct (list_count pubkey_to_toggle existing_follows) as [|[|n]];
      [lia|lia|reflexivity]. }
  split; [exact Hin|].
  subst u. rewrite local_follows_toggle in Hin. unfold update_follow_list.
  destruct (sign_event _) as [signature|e]; [|constructor].
  match goal with
  | |- context [publish_to_each _ _ ?rm ?ev ?urls] =>
      pose proof (publish_to_each_log RelayManager publish_event rm ev urls)
        as [_ Hlog];
      destruct (publish_to_each RelayManager publish_event rm ev urls)
        as [rm' log]
  end.
  cbn [published snd] in *. eapply Forall_impl; [exact Hlog|].
  intros entry ->. cbn [tags]. apply list_elem_of_fmap.
  exists pubkey_to_toggle. split; [reflexivity|exact Hin].
Qed.

(** X18. Toggling twice.  Two toggles of a key that was not followed give
    the list back as it was.  Two toggles of a key that was followed once
    move it to the end of the list: the same keys, in another order. *)
Theorem update_follow_list_twice (existing_follows : list string)
  (rm1 rm2 : RelayManager) (urls1 urls2 : list string)
  (public_key_hex : string) (now1 now2 : Z) (pubkey_to_toggle : string) :
  NoDup existing_follows ->
  let u1 := toggle existing_follows rm1 urls1 public_key_hex now1
              pubkey_to_toggle in
  let u2 := toggle (follows_after u1) rm2 urls2 public_key_hex now2
              pubkey_to_toggle in
  follows_after u2 ≡ₚ existing_follows
  /\ (pubkey_to_toggle ∉ existing_follows ->
      follows_after u2 = existing_follows)
  /\ (pubkey_to_toggle ∈ existing_follows ->
      follows_after u2
      = list_remove pubkey_to_toggle existing_follows ++ [pubkey_to_toggle]).
Proof.
  intros Hnd u1 u2. subst u1 u2. rewrite !local_follows_toggle.
  destruct (list_contains pubkey_to_toggle existing_follows) eqn:Hc.
  - assert (Hin : pubkey_to_toggle ∈ existing_follows)
      by now apply list_contains_elem_of.
    assert (Hgone : list_contains pubkey_to_toggle
                      (list_remove pubkey_to_toggle existing_follows) = false).
    { apply not_true_is_false. intros H. apply list_contains_elem_of in H.
      apply (list_remove_elem_of _ _ Hnd) in H. now destruct H. }
    rewrite Hgone. split; [now apply list_remove_perm|].
    split; [intros Hnot; contradiction|reflexivity].
  - assert (Hback : list_contains pubkey_to_toggle
                      (existing_follows ++ [pubkey_to_toggle]) = true).
    { apply list_contains_elem_of, elem_of_app. right.
      now apply list_elem_of_singleton. }
    rewrite Hback, (list_remove_last _ _ Hc).
    split; [reflexivity|]. split; [reflexivity|].
    intros Hin. apply list_contains_elem_of in Hin. congruence.
Qed.

End ToggleFacts.

Lemma update_follow_list_counts_witness :
  let u := update_follow_list unit sample_compute_id sample_sign_event
             unreachable_publish [pkA; pkB; pkA] tt sample_relays alice
             1700000000 pkA in
  (2 <= list_count pkA [pkA; pkB; pkA])%nat
  /\ local_follows unit u = [pkB; pkA]
  /\ pkA ∈ local_follows unit u.
Proof.
  assert (H2 : (2 <= list_count pkA [pkA; pkB; pkA])%nat)
    by (vm_compute; lia).
  split; [exact H2|]. split; [reflexivity|].
  exact (proj1 (proj2 (update_follow_list_counts unit sample_compute_id
                         sample_sign_event unreachable_publish
                         [pkA; pkB; pkA] tt sample_relays alice 1700000000
                         pkA) H2)).
Defined.

Lemma update_follow_list_twice_witness :
  let u1 := update_follow_list unit sample_compute_id sample_sign_event
              unreachable_publish [pkA; pkB] tt sample_relays alice
              1700000000 pkA in
  let u2 := update_follow_list unit sample_compute_id sample_sign_event
              unreachable_publish (local_follows unit u1) tt sample_relays
              alice 1700000060 pkA in
  NoDup [pkA; pkB]
  /\ local_follows unit u2 = [pkB; pkA]
  /\ local_follows unit u2 ≡ₚ [pkA; pkB].
Proof.
  assert (Hnd : NoDup [pkA; pkB]).
  { apply NoDup_cons. split; [|apply NoDup_singleton].
    intros H. apply list_elem_of_singleton in H. discriminate H. }
  split; [exact Hnd|]. split; [reflexivity|].
  exact (proj1 (update_follow_list_twice unit sample_compute_id
                  sample_sign_event unreachable_publish [pkA; pkB] tt tt
                  sample_relays sample_relays alice 1700000000 1700000060
                  pkA Hnd)).
Defined.

(** ** More of the chat rooms *)

Lemma group_rooms_Return_inv (msgs : list chat_msg) :
  forall rooms rooms', group_rooms msgs rooms = Return rooms' ->
    Forall (fun m => exists k, get_other_pubkey m = Return k) msgs.
Proof.
  induction msgs as [|m msgs IH]; intros rooms rooms' H; [constructor|].
  cbn [group_rooms] in H.
  destruct (get_other_pubkey m) as [k|e] eqn:Hk; [|discriminate H].
  cbn [mbind outcome_bind] in H.
  constructor; [now exists k|]. eapply IH. exact H.
Qed.

Lemma with_keys_Return_inv {A : Type} (key : A -> outcome Z) (l : list A) :
  forall ks, with_keys key l = Return ks ->
    Forall (fun x => exists t, key x = Return t) l.
Proof.
  induction l as [|x l IH]; intros ks H; [constructor|].
  cbn [with_keys] in H.
  destruct (key x) as [t|e] eqn:Hx; [|discriminate H].
  cbn [mbind outcome_bind] in H.
  destruct (with_keys key l) as [ks'|e]; [|discriminate H].
  constructor; [now exists t|]. now apply (IH ks').
Qed.

Lemma rooms_lookup_Some (rooms : rooms_t) (k : string) (l : list chat_msg) :
  rooms_lookup rooms k = Some l -> (k, l) ∈ rooms.
Proof.
  induction rooms as [|[k0 v] rooms IH]; [discriminate|]. cbn.
  destruct (String.eqb_spec k0 k) as [->|Hne].
  - intros [= <-]. apply list_elem_of_here.
  - intros H. apply list_elem_of_further. now apply IH.
Qed.

Section ChatFailureFacts.

Variable PrivateKey : Type.
Variable strptime : string -> outcome Z.

Local Abbreviation instant := (sent_at strptime).

Lemma sort_rooms_Return_inv (rooms : rooms_t) :
  forall rooms', sort_rooms strptime rooms = Return rooms' ->
    Forall (fun r => Forall (fun m => exists t, instant m = Return t) r.2)
      rooms.
Proof.
  induction rooms as [|[k l] rooms IH]; intros rooms' H; [constructor|].
  cbn [sort_rooms] in H. unfold sort_by_key in H.
  destruct (with_keys _ l) as [ks|e] eqn:Hks; [|discriminate H].
  cbn [mbind outcome_bind] in H.
  destruct (sort_rooms strptime rooms) as [rest|e]; [|discriminate H].
  constructor; [|now apply (IH rest)].
  cbn. exact (with_keys_Return_inv _ _ _ Hks).
Qed.

Lemma print_messages_Return_inv
  (decrypt_msg_fn : PrivateKey -> string -> string -> outcome string)
  (private_key : PrivateKey) (room : string) (messages : list chat_msg) :
  forall lines,
    print_messages PrivateKey decrypt_msg_fn private_key room messages
    = Return lines ->
    Forall (fun m => exists p,
              decrypt_msg_fn private_key (Content (data m)) room = Return p)
      messages.
Proof.
  induction messages as [|m l IH]; intros lines H; [constructor|].
  cbn [print_messages] in H.
  destruct (decrypt_msg_fn private_key (Content (data m)) room) as [p|e] eqn:Hp;
    [|discriminate H].
  cbn [mbind outcome_bind] in H.
  destruct (print_messages _ _ _ _ l) as [more|e]; [|discriminate H].
  constructor; [now exists p|]. now apply (IH more).
Qed.

Lemma print_rooms_Return_inv (convert_hex_to_npub_fn : string -> outcome string)
  (decrypt_msg_fn : PrivateKey -> string -> string -> outcome string)
  (private_key : PrivateKey) (rooms : rooms_t) :
  forall lines,
    print_rooms PrivateKey convert_hex_to_npub_fn decrypt_msg_fn private_key
      rooms = Return lines ->
    Forall (fun r =>
              (exists npub, convert_hex_to_npub_fn r.1 = Return npub)
              /\ Forall (fun m => exists p,
                           decrypt_msg_fn private_key (Content (data m)) r.1
                           = Return p) r.2) rooms.
Proof.
  induction rooms as [|[k l] rooms IH]; intros lines H; [constructor|].
  cbn [print_rooms] in H.
  destruct (convert_hex_to_npub_fn k) as [npub|e] eqn:Hk; [|discriminate H].
  cbn [mbind outcome_bind] in H.
  destruct (print_messages _ _ _ _ l) as [ls|e] eqn:Hl; [|discriminate H].
  cbn [mbind outcome_bind] in H.
  destruct (print_rooms _ _ _ _ rooms) as [more|e]; [|discriminate H].
  constructor; [|now apply (IH more)].
  cbn. split; [now exists npub|].
  exact (print_messages_Return_inv _ _ _ _ _ Hl).
Qed.

Lemma sorted_rooms_elem_of (rooms rooms' : rooms_t) (k : string)
  (l : list chat_msg) :
  Forall2 (fun r r' => r'.1 = r.1 /\ r'.2 ≡ₚ r.2
                       /\ StronglySorted (key_le instant) r'.2) rooms rooms' ->
  (k, l) ∈ rooms -> exists l', (k, l') ∈ rooms' /\ l' ≡ₚ l.
Proof.
  induction 1 as [|[k0 l0] [k0' l0'] rooms rooms' (Hk & Hperm & _) _ IH];
    intros Hin; [now apply elem_of_nil in Hin|].
  cbn in Hk, Hperm. subst k0'.
  apply elem_of_cons in Hin as [[= -> ->]|Hin].
  - exists l0'. split; [apply list_elem_of_here|exact Hperm].
  - destruct (IH Hin) as (l' & Hl' & Hp). exists l'.
    split; [now apply list_elem_of_further|exact Hp].
Qed.

(** X19. One bad message hides every chat.  [organize_chat_messages]
    returns the empty dictionary as soon as one message of the two lists
    has no counterparty (a sent message without a ["p"] tag), or a time
    that cannot be parsed, or a counterparty the conversion function
    rejects, or a content on which the decryption function raises: the
    rooms of all the other messages are lost with it. *)
Theorem organize_chat_messages_all_or_nothing
  (sent_msgs received_msgs : list event_data) (private_key : PrivateKey)
  (convert_hex_to_npub_fn : string -> outcome string)
  (decrypt_msg_fn : PrivateKey -> string -> string -> outcome string)
  (m : chat_msg) :
  m ∈ all_msgs sent_msgs received_msgs ->
  (exists e, get_other_pubkey m = Raise e)
  \/ (exists e, instant m = Raise e)
  \/ (exists k e, get_other_pubkey m = Return k
                  /\ (convert_hex_to_npub_fn k = Raise e
                      \/ decrypt_msg_fn private_key (Content (data m)) k
                         = Raise e)) ->
  organize_chat_messages PrivateKey strptime sent_msgs received_msgs
    private_key convert_hex_to_npub_fn decrypt_msg_fn = [].
Proof.
  intros Hm Hbad. unfold organize_chat_messages.
  fold (all_msgs sent_msgs received_msgs).
  set (msgs := all_msgs sent_msgs received_msgs) in *.
  destruct (group_rooms msgs []) as [g|e] eqn:Hg; [|reflexivity].
  cbn [mbind outcome_bind].
  destruct (sort_rooms strptime g) as [sorted|e] eqn:Hsort; [|reflexivity].
  cbn [mbind outcome_bind].
  destruct (print_rooms _ _ _ _ sorted) as [lines|e] eqn:Hprint; [|reflexivity].
  exfalso.
  pose proof (group_rooms_Return_inv _ _ _ Hg) as Hkeys.
  destruct (group_rooms_grouped msgs [] [])
    as (g' & Hg' & Hgrouped); [split; [constructor|now intros k]|exact Hkeys|].
  rewrite Hg in Hg'. injection Hg' as <-. cbn [app] in Hgrouped.
  pose proof (sort_rooms_Return_inv _ _ Hsort) as Htimes.
  destruct (sort_rooms_Return strptime g Htimes)
    as (sorted' & Hsort' & Hrel).
  rewrite Hsort in Hsort'. injection Hsort' as <-.
  pose proof (print_rooms_Return_inv _ _ _ _ _ Hprint) as Hprinted.
  rewrite Forall_forall in Hkeys. destruct (Hkeys m Hm) as [k Hk].
  assert (Hroom : exists l, (k, l) ∈ g /\ m ∈ l).
  { destruct Hgrouped as [_ Hlook]. specialize (Hlook k).
    assert (Hin : m ∈ List.filter (other_is k) msgs)
      by now apply filter_other_is_elem_of.
    destruct (List.filter (other_is k) msgs) as [|m0 l0] eqn:Hf;
      [now apply elem_of_nil in Hin|].
    exists (m0 :: l0). split; [now apply rooms_lookup_Some|exact Hin]. }
  destruct Hroom as (l & Hkl & Hml).
  destruct Hbad as [[e He]|[[e He]|(k' & e & Hk' & He)]].
  - congruence.
  - rewrite Forall_forall in Htimes. specialize (Htimes _ Hkl). cbn in Htimes.
    rewrite Forall_forall in Htimes. destruct (Htimes m Hml) as [t Ht].
    congruence.
  - assert (k' = k) by congruence. subst k'.
    destruct (sorted_rooms_elem_of _ _ _ _ Hrel Hkl) as (l' & Hkl' & Hperm).
    rewrite Forall_forall in Hprinted.
    destruct (Hprinted _ Hkl') as [[npub Hnpub] Hdec]. cbn in Hnpub, Hdec.
    destruct He as [He|He]; [congruence|].
    rewrite Forall_forall in Hdec.
    destruct (Hdec m) as [p Hp]; [now rewrite Hperm|congruence].
Qed.

Variable decrypt_message : PrivateKey -> string -> string -> outcome string.

(** X20. From the key of a room to its view.  For a key of at most 98
    hexadecimal digits, [get_chat_for_pubkey] called with the text
    [convert_hex_to_npub] gives for the key looks the room up under the
    lowercase form of the key.  A room filed under a lowercase key is
    found, and its view has one entry per message, in order; a room filed
    under a key written with capitals is not found through its own
    [npub]. *)
Theorem get_chat_for_pubkey_of_room_key (k : string) (n : nat) :
  length (chars k) = (2 * n)%nat -> (n <= 49)%nat ->
  Forall is_hex_digit (chars k) ->
  exists npub,
    convert_hex_to_npub k = Return npub
    /\ forall (rooms : rooms_t)
         (convert_hex_to_npub_fn : string -> outcome string)
         (private_key : PrivateKey),
         get_chat_for_pubkey PrivateKey rooms npub convert_hex_to_npub_fn
           (decrypt_msg PrivateKey decrypt_message) private_key
         = match rooms_lookup rooms (lower k) with
           | Some messages =>
               RoomData npub
                 (map (fun msg =>
                         {| direction := direction_of msg;
                            timestamp := Created_at (data msg);
                            message_content :=
                              shown_text PrivateKey decrypt_message
                                private_key (lower k) msg |})
                    messages)
           | None => ChatError "No chat found with the specified public key."
           end.
Proof.
  intros Hlen Hshort Hhex.
  destruct (convert_hex_to_npub_steps k n Hlen Hhex)
    as (bs & five & Hbs & Hn & Hlow & Hrange & Hsize & Hback & Hconv).
  destruct (bech32_round_trip five Hrange) as (s & Henc & Hdec).
  rewrite (bech32_encode_npub five Hrange) in Henc. injection Henc as <-.
  exists (npub_text five). split; [exact Hconv|].
  intros rooms fn private_key. unfold get_chat_for_pubkey, decode_npub.
  rewrite Hdec. cbn [String.eqb Ascii.eqb Bool.eqb negb].
  rewrite Hback, Hlow. cbn [mbind outcome_bind].
  destruct (rooms_lookup rooms (lower k)) as [messages|]; [|reflexivity].
  rewrite room_messages_decrypt_msg. reflexivity.
Qed.

End ChatFailureFacts.

Lemma organize_chat_messages_all_or_nothing_witness :
  organize_chat_messages unit sample_strptime
    [{| Event_ID := "5c83da77"; Pubkey := alice; Content := "9fQ2?iv=Zm9v";
        Kind := 4; Tags := [["e"; "35f828c6"]];
        Created_at := "2023-11-14 22:13:20 UTC" |}]
    [sample_received "2023-11-14 22:15:00 UTC"]
    tt convert_hex_to_npub (decrypt_msg unit sample_decrypt_message)
  = [].
Proof.
  eapply (organize_chat_messages_all_or_nothing unit sample_strptime).
  - apply list_elem_of_here.
  - left. exists StopIteration. reflexivity.
Defined.

Lemma get_chat_for_pubkey_of_room_key_witness :
  exists npub,
    convert_hex_to_npub "00Ff" = Return npub
    /\ get_chat_for_pubkey unit [("00Ff", sample_room)] npub
         convert_hex_to_npub (decrypt_msg unit sample_decrypt_message) tt
       = ChatError "No chat found with the specified public key.".
Proof.
  destruct (get_chat_for_pubkey_of_room_key unit sample_decrypt_message
              "00Ff" 2 eq_refl) as (npub & Hconv & Hview).
  - lia.
  - repeat constructor; discriminate.
  - exists npub. split; [exact Hconv|].
    rewrite (Hview [("00Ff", sample_room)] convert_hex_to_npub tt).
    reflexivity.
Defined.

(** ** More of [convert_timestamp] and [fetch_events_by_kind] *)

(** A check run on every integer of [[i, i + fuel)]. *)
Fixpoint all_from (fuel : nat) (i : Z) (p : Z -> bool) : bool :=
  match fuel with
  | O => true
  | S fuel' => p i && all_from fuel' (i + 1) p
  end.

Lemma all_from_spec (fuel : nat) (p : Z -> bool) :
  forall i, all_from fuel i p = true ->
            forall j, i <= j < i + Z.of_nat fuel -> p j = true.
Proof.
  induction fuel as [|fuel IH]; intros i H j Hj; [lia|].
  cbn [all_from] in H. apply andb_true_iff in H as [Hi H].
  destruct (Z.eq_dec j i) as [->|Hne]; [exact Hi|].
  apply (IH (i + 1) H). lia.
Qed.

(** The date of the day [doe] of a 400-year era that starts on a first of
    March, as [civil_from_days] computes it: the year within the era, the
    month and the day. *)
Definition era_date (doe : Z) : Z * Z * Z :=
  let yoe := (doe - doe / 1460 + doe / 36524 - doe / 146096) / 365 in
  let doy := doe - (365 * yoe + yoe / 4 - yoe / 100) in
  let mp := (5 * doy + 2) / 153 in
  let d := doy - (153 * mp + 2) / 5 + 1 in
  let m := if mp <? 10 then mp + 3 else mp - 9 in
  (if m <=? 2 then yoe + 1 else yoe, m, d).

(** Some years of an era, each with the day of the era of its first of
    January. *)
Definition year_starts : list (Z * Z) :=
  [(1, 306); (10, 3593); (100, 36465); (200, 72989); (252, 91981);
   (348, 127044); (400, 146037)].

Definition era_date_ok (doe : Z) : bool :=
  let '(y, m, d) := era_date doe in
  (0 <=? y) && (y <=? 400) && (1 <=? m) && (m <=? 12) && (1 <=? d) && (d <=? 31)
  && forallb (fun start : Z * Z => Bool.eqb (start.1 <=? y) (start.2 <=? doe))
       year_starts.

Lemma era_date_facts (doe : Z) :
  0 <= doe < 146097 ->
  let '(y, m, d) := era_date doe in
  0 <= y <= 400 /\ 1 <= m <= 12 /\ 1 <= d <= 31
  /\ forall y0 doe0, In (y0, doe0) year_starts -> (y0 <= y <-> doe0 <= doe).
Proof.
  intros Hdoe.
  assert (Hall : all_from (Z.to_nat 146097) 0 era_date_ok = true)
    by (vm_compute; reflexivity).
  pose proof (all_from_spec _ _ 0 Hall doe ltac:(lia)) as Hok.
  unfold era_date_ok in Hok. destruct (era_date doe) as [[y m] d].
  apply andb_true_iff in Hok as [Hok Hstarts].
  repeat (apply andb_true_iff in Hok as [Hok ?]).
  repeat match goal with
         | H : (_ <=? _) = true |- _ => apply Z.leb_le in H
         end.
  repeat (split; [lia|]).
  intros y0 doe0 Hin.
  pose proof (proj1 (forallb_forall _ _) Hstarts (y0, doe0) Hin) as Hstart.
  cbn [fst snd] in Hstart. apply Bool.eqb_prop in Hstart. lia.
Qed.

Lemma year_starts_bounds (y0 doe0 : Z) :
  In (y0, doe0) year_starts -> 1 <= y0 <= 400 /\ 0 <= doe0 <= 146097.
Proof.
  unfold year_starts. cbn [In].
  intros H.
  repeat (destruct H as [H|H]; [injection H as <- <-; lia|]).
  destruct H.
Qed.

Lemma civil_from_days_era (days : Z) :
  let z := days + 719468 in
  civil_from_days days
  = let '(y, m, d) := era_date (z mod 146097) in
    (y + z / 146097 * 400, m, d).
Proof.
  cbv zeta. unfold civil_from_days, era_date.
  replace (days + 719468 - (days + 719468) / 146097 * 146097)
    with ((days + 719468) mod 146097)
    by (rewrite Z.mod_eq by lia; lia).
  set (doe := (days + 719468) mod 146097).
  set (yoe := (doe - doe / 1460 + doe / 36524 - doe / 146096) / 365).
  set (doy := doe - (365 * yoe + yoe / 4 - yoe / 100)).
  set (mp := (5 * doy + 2) / 153).
  destruct ((if mp <? 10 then mp + 3 else mp - 9) <=? 2);
    f_equal; f_equal; lia.
Qed.

(** The civil date of a day: the month, the day, and the day a year
    starts on, for the years of [year_starts] in any era. *)
Lemma civil_from_days_year (days : Z) :
  let '(y, m, d) := civil_from_days days in
  1 <= m <= 12 /\ 1 <= d <= 31
  /\ forall era0 y0 doe0, In (y0, doe0) year_starts ->
       (y0 + era0 * 400 <= y <-> era0 * 146097 + doe0 - 719468 <= days).
Proof.
  pose proof (civil_from_days_era days) as Hera. cbv zeta in Hera.
  rewrite Hera. clear Hera.
  pose proof (Z.mod_pos_bound (days + 719468) 146097 ltac:(lia)) as Hdoe.
  pose proof (Z.div_mod (days + 719468) 146097 ltac:(lia)) as Hdiv.
  pose proof (era_date_facts _ Hdoe) as Hfacts.
  destruct (era_date ((days + 719468) mod 146097)) as [[y m] d].
  destruct Hfacts as (Hy & Hm & Hd & Hstarts).
  set (era := (days + 719468) / 146097) in *.
  set (doe := (days + 719468) mod 146097) in *.
  split; [exact Hm|]. split; [exact Hd|].
  intros era0 y0 doe0 Hin.
  pose proof (year_starts_bounds _ _ Hin) as Hbounds.
  pose proof (Hstarts _ _ Hin) as Hstart.
  destruct (Z_lt_le_dec era era0) as [Hlt|Hge]; [lia|].
  destruct (Z.eq_dec era era0) as [Heq|Hne]; [|lia].
  rewrite Heq in *. split; intros H.
  - assert (doe0 <= doe) by (apply Hstart; lia). lia.
  - assert (y0 <= y) by (apply Hstart; lia). lia.
Qed.

(** The year of a timestamp, against the limits of [utcfromtimestamp] and
    the powers of ten. *)
Lemma timestamp_year (timestamp : Z) :
  let '(y, m, d) := civil_from_days (timestamp / 86400) in
  1 <= m <= 12 /\ 1 <= d <= 31
  /\ (-2147481748 <= y <-> -67768040609740800 <= timestamp)
  /\ (1 <= y <-> -62135596800 <= timestamp)
  /\ (10 <= y <-> -61851600000 <= timestamp)
  /\ (100 <= y <-> -59011459200 <= timestamp)
  /\ (1000 <= y <-> -30610224000 <= timestamp)
  /\ (10000 <= y <-> 253402300800 <= timestamp)
  /\ (2147485548 <= y <-> 67768036191676800 <= timestamp).
Proof.
  pose proof (civil_from_days_year (timestamp / 86400)) as Hyear.
  pose proof (Z.div_mod timestamp 86400 ltac:(lia)) as Hdiv.
  pose proof (Z.mod_pos_bound timestamp 86400 ltac:(lia)) as Hsecs.
  destruct (civil_from_days (timestamp / 86400)) as [[y m] d].
  destruct Hyear as (Hm & Hd & Hyear).
  split; [exact Hm|]. split; [exact Hd|].
  pose proof (Hyear (-5368705) 252 91981 ltac:(cbn; tauto)) as H1.
  pose proof (Hyear 0 1 306 ltac:(cbn; tauto)) as H2.
  pose proof (Hyear 0 10 3593 ltac:(cbn; tauto)) as H3.
  pose proof (Hyear 0 100 36465 ltac:(cbn; tauto)) as H4.
  pose proof (Hyear 2 200 72989 ltac:(cbn; tauto)) as H5.
  pose proof (Hyear 24 400 146037 ltac:(cbn; tauto)) as H6.
  pose proof (Hyear 5368713 348 127044 ltac:(cbn; tauto)) as H7.
  clear Hyear. lia.
Qed.

Lemma zero_padded_length (width : nat) (bound : Z) (n : Z) :
  all_from (Z.to_nat bound) 0
    (fun i => Nat.eqb (length (chars (zero_padded width i))) width) = true ->
  0 <= n < bound -> length (chars (zero_padded width n)) = width.
Proof.
  intros Hall Hn. apply Nat.eqb_eq.
  apply (all_from_spec _ _ 0 Hall n). lia.
Qed.

(** The number of characters [%Y] writes for a year of a [datetime]. *)
Definition year_width (y : Z) : nat :=
  if y <? 10 then 1 else if y <? 100 then 2 else if y <? 1000 then 3 else 4.

Lemma str_of_Z_year_length (y : Z) :
  1 <= y <= 9999 -> length (chars (str_of_Z y)) = year_width y.
Proof.
  intros Hy. apply Nat.eqb_eq.
  assert (Hall : all_from (Z.to_nat 10000) 0
            (fun i => Nat.eqb (length (chars (str_of_Z i))) (year_width i))
          = true) by (vm_compute; reflexivity).
  apply (all_from_spec _ _ 0 Hall y). lia.
Qed.

Lemma chars_append (a b : string) : chars (a +:+ b) = chars a ++ chars b.
Proof.
  unfold chars. induction a as [|c a IH]; [reflexivity|].
  change (String c a +:+ b) with (String c (a +:+ b)).
  cbn [list_ascii_of_string]. now rewrite IH.
Qed.

(** The text of a date has nineteen characters after the year. *)
Lemma strftime_length (y m d secs : Z) :
  1 <= y <= 9999 -> 1 <= m <= 12 -> 1 <= d <= 31 -> 0 <= secs < 86400 ->
  length (chars (strftime (y, m, d, secs))) = (year_width y + 19)%nat.
Proof.
  intros Hy Hm Hd Hsecs. unfold strftime.
  assert (H2 : forall n, 0 <= n < 100 ->
            length (chars (zero_padded 2 n)) = 2%nat).
  { intros n Hn. apply (zero_padded_length 2 100 n); [|exact Hn].
    vm_compute. reflexivity. }
  assert (Hh : 0 <= secs / 3600 < 24).
  { split; [apply Z.div_pos; lia|apply Z.div_lt_upper_bound; lia]. }
  assert (Hmin : 0 <= secs mod 3600 / 60 < 60).
  { pose proof (Z.mod_pos_bound secs 3600 ltac:(lia)).
    split; [apply Z.div_pos; lia|apply Z.div_lt_upper_bound; lia]. }
  pose proof (Z.mod_pos_bound secs 60 ltac:(lia)) as Hs.
  rewrite !chars_append, !length_app.
  rewrite (str_of_Z_year_length y Hy).
  rewrite (H2 m), (H2 d), (H2 (secs / 3600)), (H2 (secs mod 3600 / 60)),
    (H2 (secs mod 60)) by lia.
  cbn [chars list_ascii_of_string length]. lia.
Qed.

Lemma fits_signed_64 (n : Z) :
  fits_signed 64 n = true
  <-> -9223372036854775808 <= n < 9223372036854775808.
Proof.
  unfold fits_signed. change (2 ^ (64 - 1)) with 9223372036854775808.
  rewrite andb_true_iff, Z.leb_le, Z.ltb_lt. reflexivity.
Qed.

Lemma fits_signed_32 (n : Z) :
  fits_signed 32 n = true <-> -2147483648 <= n < 2147483648.
Proof.
  unfold fits_signed. change (2 ^ (32 - 1)) with 2147483648.
  rewrite andb_true_iff, Z.leb_le, Z.ltb_lt. reflexivity.
Qed.

(** A timestamp of the years 1 to 9999. *)
Definition datetime_range (timestamp : Z) : Prop :=
  -62135596800 <= timestamp <= 253402300799.

(** A timestamp [gmtime] accepts: the year, counted from 1900, fits a C
    [int]. *)
Definition gmtime_range (timestamp : Z) : Prop :=
  -67768040609740800 <= timestamp <= 67768036191676799.

(** What [utcfromtimestamp] does, by the timestamp alone. *)
Lemma utcfromtimestamp_cases (timestamp : Z) :
  (datetime_range timestamp ->
   exists y m d, utcfromtimestamp timestamp
                 = Return (y, m, d, timestamp mod 86400)
                 /\ 1 <= y <= 9999 /\ 1 <= m <= 12 /\ 1 <= d <= 31
                 /\ (10 <= y <-> -61851600000 <= timestamp)
                 /\ (100 <= y <-> -59011459200 <= timestamp)
                 /\ (1000 <= y <-> -30610224000 <= timestamp))
  /\ (gmtime_range timestamp -> ~ datetime_range timestamp ->
      exists msg, utcfromtimestamp timestamp = Raise (ValueError msg))
  /\ (fits_signed 64 timestamp = true -> ~ gmtime_range timestamp ->
      utcfromtimestamp timestamp
      = Raise (OSError "[Errno 75] Value too large for defined data type"))
  /\ (fits_signed 64 timestamp = false ->
      utcfromtimestamp timestamp
      = Raise (OverflowError "timestamp out of range for platform time_t")).
Proof.
  unfold utcfromtimestamp, datetime_range, gmtime_range.
  pose proof (timestamp_year timestamp) as Hyear.
  pose proof (fits_signed_64 timestamp) as H64.
  destruct (civil_from_days (timestamp / 86400)) as [[y m] d].
  pose proof (fits_signed_32 (y - 1900)) as H32.
  destruct Hyear as (Hm & Hd & Hlow & H1 & H10 & H100 & H1000 & H10000 & Hhigh).
  split; [|split; [|split]].
  - intros Hts.
    replace (fits_signed 64 timestamp) with true by (symmetry; apply H64; lia).
    replace (fits_signed 32 (y - 1900)) with true by (symmetry; apply H32; lia).
    replace (y <? 1) with false by (symmetry; apply Z.ltb_ge; lia).
    replace (9999 <? y) with false by (symmetry; apply Z.ltb_ge; lia).
    cbn [negb orb]. exists y, m, d. split; [reflexivity|].
    split; [lia|]. split; [exact Hm|]. split; [exact Hd|].
    split; [exact H10|]. split; [exact H100|exact H1000].
  - intros Hgm Hts.
    replace (fits_signed 64 timestamp) with true by (symmetry; apply H64; lia).
    replace (fits_signed 32 (y - 1900)) with true by (symmetry; apply H32; lia).
    replace ((y <? 1) || (9999 <? y)) with true; [cbn [negb]; now eexists|].
    symmetry. apply orb_true_iff. rewrite !Z.ltb_lt. lia.
  - intros Hfit Hgm. rewrite Hfit. cbn [negb].
    replace (fits_signed 32 (y - 1900)) with false; [reflexivity|].
    symmetry. apply not_true_iff_false. rewrite H32. lia.
  - intros Hfit. rewrite Hfit. reflexivity.
Qed.

(** [convert_timestamp] returns on the timestamps of the years 1 to 9999,
    a text of twenty to twenty-three characters. *)
Lemma convert_timestamp_returns (timestamp : Z) :
  datetime_range timestamp ->
  exists s, convert_timestamp timestamp = Return s
            /\ length (chars s)
               = (if (timestamp <? -61851600000)%Z then 20
                  else if (timestamp <? -59011459200)%Z then 21
                  else if (timestamp <? -30610224000)%Z then 22 else 23)%nat.
Proof.
  intros Hts. unfold convert_timestamp.
  destruct (proj1 (utcfromtimestamp_cases timestamp) Hts)
    as (y & m & d & -> & Hy & Hm & Hd & H10 & H100 & H1000).
  eexists. split; [reflexivity|].
  pose proof (Z.mod_pos_bound timestamp 86400 ltac:(lia)) as Hsecs.
  rewrite (strftime_length y m d _ Hy Hm Hd Hsecs). unfold year_width.
  destruct (Z.ltb_spec y 10); destruct (Z.ltb_spec y 100);
    destruct (Z.ltb_spec y 1000);
    destruct (Z.ltb_spec timestamp (-61851600000));
    destruct (Z.ltb_spec timestamp (-59011459200));
    destruct (Z.ltb_spec timestamp (-30610224000)); try reflexivity; lia.
Qed.

(** On any other timestamp it raises. *)
Lemma convert_timestamp_raises (timestamp : Z) :
  ~ datetime_range timestamp ->
  (gmtime_range timestamp ->
   exists msg, convert_timestamp timestamp = Raise (ValueError msg))
  /\ (fits_signed 64 timestamp = true -> ~ gmtime_range timestamp ->
      convert_timestamp timestamp
      = Raise (OSError "[Errno 75] Value too large for defined data type"))
  /\ (fits_signed 64 timestamp = false ->
      convert_timestamp timestamp
      = Raise (OverflowError "timestamp out of range for platform time_t"))
  /\ exists e, convert_timestamp timestamp = Raise e.
Proof.
  intros Hts. unfold convert_timestamp.
  destruct (utcfromtimestamp_cases timestamp) as (_ & Hvalue & Hos & Hover).
  assert (Hgm : forall t, {gmtime_range t} + {~ gmtime_range t}).
  { intros t. unfold gmtime_range.
    destruct (Z_le_dec (-67768040609740800) t);
      [destruct (Z_le_dec t 67768036191676799)|]; [left|right|right]; lia. }
  split; [|split; [|split]].
  - intros Hin. destruct (Hvalue Hin Hts) as [msg ->]. cbn. now eexists.
  - intros Hfit Hout. now rewrite (Hos Hfit Hout).
  - intros Hfit. now rewrite (Hover Hfit).
  - destruct (fits_signed 64 timestamp) eqn:Hfit.
    + destruct (Hgm timestamp) as [Hin|Hout].
      * destruct (Hvalue Hin Hts) as [msg ->]. cbn. now eexists.
      * rewrite (Hos eq_refl Hout). now eexists.
    + rewrite (Hover eq_refl). now eexists.
Qed.

(** X21. The timestamps [convert_timestamp] accepts.  It returns exactly
    for the seconds of the years 1 to 9999, from -62135596800 to
    253402300799.  The year is written without padding, so the text has
    23 characters from the year 1000 on and 20, 21 or 22 before.  On
    another integer it raises: [ValueError], with the prefix of the
    handler, while [gmtime] can still give the year, which is the case of
    a time in milliseconds; [OSError] beyond that, when the year does not
    fit a C [int]; [OverflowError] when the timestamp does not fit 64
    bits.  The last two are not caught by the handler. *)
Theorem convert_timestamp_range (timestamp : Z) :
  (-62135596800 <= timestamp <= 253402300799 ->
   exists s, convert_timestamp timestamp = Return s
             /\ length (chars s)
                = (if (timestamp <? -61851600000)%Z then 20
                   else if (timestamp <? -59011459200)%Z then 21
                   else if (timestamp <? -30610224000)%Z then 22 else 23)%nat)
  /\ (-67768040609740800 <= timestamp < -62135596800
      \/ 253402300799 < timestamp <= 67768036191676799 ->
      exists msg,
        utcfromtimestamp timestamp = Raise (ValueError msg)
        /\ convert_timestamp timestamp
           = Raise (ValueError ("Invalid timestamp: " +:+ msg)))
  /\ (- 2 ^ 63 <= timestamp < -67768040609740800
      \/ 67768036191676799 < timestamp < 2 ^ 63 ->
      convert_timestamp timestamp
      = Raise (OSError "[Errno 75] Value too large for defined data type"))
  /\ (timestamp < - 2 ^ 63 \/ 2 ^ 63 <= timestamp ->
      convert_timestamp timestamp
      = Raise (OverflowError "timestamp out of range for platform time_t")).
Proof.
  change (2 ^ 63) with 9223372036854775808.
  pose proof (fits_signed_64 timestamp) as H64.
  split; [|split; [|split]].
  - intros Hts. now apply convert_timestamp_returns.
  - intros Hts.
    destruct (proj1 (proj2 (utcfromtimestamp_cases timestamp))) as [msg Hmsg].
    + unfold gmtime_range. lia.
    + unfold datetime_range. lia.
    + exists msg. split; [exact Hmsg|].
      unfold convert_timestamp. rewrite Hmsg. reflexivity.
  - intros Hts.
    apply (convert_timestamp_raises timestamp).
    + unfold datetime_range. lia.
    + apply H64. lia.
    + unfold gmtime_range. lia.
  - intros Hts.
    apply (convert_timestamp_raises timestamp).
    + unfold datetime_range. lia.
    + apply not_true_iff_false. rewrite H64. lia.
Qed.

Lemma convert_timestamp_range_witness :
  convert_timestamp 1700000000 = Return "2023-11-14 22:13:20 UTC"
  /\ convert_timestamp (-62135596800) = Return "1-01-01 00:00:00 UTC"
  /\ (exists s, convert_timestamp (-62135596800) = Return s
                /\ length (chars s) = 20%nat)
  /\ (exists msg,
        utcfromtimestamp 1700000060000 = Raise (ValueError msg)
        /\ convert_timestamp 1700000060000
           = Raise (ValueError ("Invalid timestamp: " +:+ msg)))
  /\ convert_timestamp (10 ^ 18)
     = Raise (OSError "[Errno 75] Value too large for defined data type")
  /\ convert_timestamp (2 ^ 63)
     = Raise (OverflowError "timestamp out of range for platform time_t").
Proof.
  destruct (convert_timestamp_range (-62135596800)) as (Hret & _).
  destruct (convert_timestamp_range 1700000060000) as (_ & Hvalue & _).
  destruct (convert_timestamp_range (10 ^ 18)) as (_ & _ & Hos & _).
  destruct (convert_timestamp_range (2 ^ 63)) as (_ & _ & _ & Hover).
  split; [vm_compute; reflexivity|]. split; [vm_compute; reflexivity|].
  split; [apply Hret; lia|]. split; [apply Hvalue; lia|].
  split; [apply Hos; cbn; lia|apply Hover; cbn; lia].
Defined.

(** Either a first delivery of the pool has a timestamp out of range, or
    none has. *)
Lemma first_delivery_range_dec (pool : list EventMessage) :
  (exists l1 m l2, pool = l1 ++ m :: l2 /\ (id (event m) ∉ ids l1)
                   /\ ~ datetime_range (created_at (event m)))
  \/ (forall l1 m l2, pool = l1 ++ m :: l2 -> id (event m) ∉ ids l1 ->
        datetime_range (created_at (event m))).
Proof.
  induction pool as [|m0 pool IH] using rev_ind.
  - right. intros l1 m l2 Hl. now destruct l1.
  - destruct IH as [(l1 & m & l2 & -> & Hl1 & Hts)|Hgood].
    { left. exists l1, m, (l2 ++ [m0]).
      split; [now rewrite <- app_assoc|now split]. }
    assert (Hold : forall l1 m l2 x,
              pool ++ [m0] = l1 ++ m :: l2 ++ [x] ->
              id (event m) ∉ ids l1 ->
              datetime_range (created_at (event m))).
    { intros l1 m l2 x Hl Hl1.
      change (l1 ++ m :: l2 ++ [x]) with (l1 ++ ((m :: l2) ++ [x])) in Hl.
      rewrite app_assoc in Hl. apply app_inj_tail in Hl as [-> _].
      now apply (Hgood l1 m l2). }
    assert (Hlast : forall l1 m, pool ++ [m0] = l1 ++ [m] ->
              l1 = pool /\ m = m0).
    { intros l1 m Hl. apply app_inj_tail in Hl as [-> ->]. now split. }
    destruct (decide (id (event m0) ∈ ids pool)) as [Hseen|Hnew].
    + right. intros l1 m l2 Hl Hl1.
      destruct l2 as [|x l2] using rev_ind; [|now apply (Hold l1 m l2 x)].
      destruct (Hlast l1 m Hl) as [-> ->]. contradiction.
    + destruct (Z_le_dec (-62135596800) (created_at (event m0))) as [Hlo|Hlo];
        [destruct (Z_le_dec (created_at (event m0)) 253402300799) as [Hhi|Hhi]|].
      * right. intros l1 m l2 Hl Hl1.
        destruct l2 as [|x l2] using rev_ind; [|now apply (Hold l1 m l2 x)].
        destruct (Hlast l1 m Hl) as [-> ->]. now split.
      * left. exists pool, m0, []. split; [reflexivity|]. split; [exact Hnew|].
        unfold datetime_range. lia.
      * left. exists pool, m0, []. split; [reflexivity|]. split; [exact Hnew|].
        unfold datetime_range. lia.
Qed.

Section FetchMore.

Variable RelayManager : Type.
Variable Filters : Type.
Variable add_subscription_on_relay :
  RelayManager -> string -> list Filters -> string -> outcome RelayManager.
Variable run_sync : RelayManager -> outcome RelayManager.
Variable message_pool : RelayManager -> list EventMessage.

Local Abbreviation fetched :=
  (fetch_events_by_kind RelayManager Filters add_subscription_on_relay
     run_sync message_pool).
Local Abbreviation subscribed :=
  (subscribe_each RelayManager Filters add_subscription_on_relay).

(** X22. When the list fetched is empty.  Once the subscriptions are
    placed and [run_sync] has returned, [fetch_events_by_kind] returns the
    empty list in two cases only: the pool was empty, or a message that
    brings a new identifier carries a timestamp outside the years 1 to
    9999.  An empty result does not tell the two apart. *)
Theorem fetch_events_by_kind_empty (subscription_id : string)
  (relay_manager rm1 rm2 : RelayManager) (filters : Filters)
  (relay_urls : list string) :
  subscribed relay_manager subscription_id [filters] relay_urls = Return rm1 ->
  run_sync rm1 = Return rm2 ->
  (fetched subscription_id relay_manager filters relay_urls = []
   <-> message_pool rm2 = []
       \/ exists m, first_delivery (message_pool rm2) m
                    /\ ~ datetime_range (created_at (event m))).
Proof.
  intros Hsub Hrun. unfold fetch_events_by_kind.
  rewrite Hsub. cbn [mbind outcome_bind]. rewrite Hrun. cbn [mbind outcome_bind].
  set (pool := message_pool rm2).
  destruct (first_delivery_range_dec pool) as [Hbad|Hgood].
  - destruct Hbad as (l1 & m & l2 & Hl & Hl1 & Hts).
    split; [intros _|].
    + right. exists m. split; [now exists l1, l2|exact Hts].
    + intros _.
      destruct (convert_timestamp_raises _ Hts) as (_ & _ & _ & e & Hraise).
      destruct (collect_events_bad_timestamp pool [] ∅ l1 m l2 e Hl)
        as [x' Hx']; [apply not_elem_of_empty|exact Hl1|exact Hraise|].
      now rewrite Hx'.
  - destruct (collect_events_spec pool [] ∅)
      as (picked & datas & Hret & Hdata & _ & _ & Hmem).
    { intros l1 m l2 Hl _ Hl1.
      destruct (convert_timestamp_returns (created_at (event m)))
        as (s & Hs & _); [|now exists s].
      apply (Hgood l1 m l2 Hl Hl1). }
    rewrite Hret. cbn [app]. split.
    + intros ->. apply Forall2_nil_inv_r in Hdata. subst picked.
      left. destruct pool as [|m0 pool']; [reflexivity|exfalso].
      assert (Hin : m0 ∈ @nil EventMessage).
      { apply Hmem. exists [], pool'. split; [reflexivity|].
        split; [apply not_elem_of_empty|apply not_elem_of_nil]. }
      now apply elem_of_nil in Hin.
    + intros [Hempty|(m & (l1 & l2 & Hl & Hl1) & Hts)].
      * assert (Hp : picked = []).
        { destruct picked as [|m0 picked']; [reflexivity|exfalso].
          assert (Hin : m0 ∈ m0 :: picked') by apply list_elem_of_here.
          apply Hmem in Hin as (l1 & l2 & Hl & _).
          rewrite Hempty in Hl. now destruct l1. }
        subst picked. now apply Forall2_nil_inv_l in Hdata.
      * exfalso. apply Hts. apply (Hgood l1 m l2 Hl Hl1).
Qed.

End FetchMore.

Lemma fetch_events_by_kind_empty_witness :
  replay.fetch_events_by_kind "2f1c"
    [delivery "wss://relay.damus.io" "32cf229e" 1700000000;
     delivery "wss://relay.damus.io" "35f828c6" 1700000060000]
    ([alice], [1]) sample_relays
  = [].
Proof.
  apply (proj2 (fetch_events_by_kind_empty replay.RelayManager replay.Filters
                  replay.add_subscription_on_relay replay.run_sync
                  replay.message_pool "2f1c" _ _ _ ([alice], [1])
                  sample_relays eq_refl eq_refl)).
  right. exists (delivery "wss://relay.damus.io" "35f828c6" 1700000060000).
  split.
  - exists [delivery "wss://relay.damus.io" "32cf229e" 1700000000], [].
    split; [reflexivity|]. cbn. intros H.
    apply list_elem_of_singleton in H. discriminate H.
  - unfold datetime_range. cbn. lia.
Defined.
